(** * WeChat Work archive API: data model, session handling and sync engine

    Shallow embedding of [src/api/src/models.py], [schemas.py],
    [database.py] and [routes.py], followed by the properties of the
    archive's specification that are settled against it.

    Layout: the Python values and exceptions the code relies on; the
    enumerations and table rows of [models.py]; the relational schema the
    declarations describe (primary keys, unique indexes, foreign keys) with
    the statements a session can flush; the request schemas of
    [schemas.py]; the session decorator of [database.py]; the sync route of
    [routes.py]; the engine operations that the repository keeps in its
    [services] package, which is not part of this tree and is modelled
    from the specification; the vocabulary of the properties; and finally
    the theorems. The tables embedded are the four the properties
    concern. *)

From Stdlib Require Import ZArith String List Bool Lia.
From Stdlib Require Import Floats.
From stdpp Require Import base option list gmap strings.

Local Open Scope string_scope.
Local Open Scope Z_scope.

(* ===================================================================== *)
(** ** Python values, exceptions and arithmetic                           *)
(* ===================================================================== *)

Module Py.

(** The exception classes that occur in the sources, with their place in
    Python's hierarchy: [except Exception] catches a class exactly when
    it derives from [Exception]. [KeyboardInterrupt], [SystemExit] and
    [GeneratorExit] derive from [BaseException] only, and so does
    [asyncio.CancelledError] since Python 3.8. *)
Inductive exc_class : Set :=
| ValueError
| TypeError
| AttributeError
| ZeroDivisionError
| RuntimeError
| KeyError
| IntegrityError
| OperationalError
| ValidationError
| HTTPException (status_code : Z)
| KeyboardInterrupt
| SystemExit
| GeneratorExit
| CancelledError.

Definition is_Exception (c : exc_class) : bool :=
  match c with
  | KeyboardInterrupt | SystemExit | GeneratorExit | CancelledError => false
  | _ => true
  end.

Record exn : Set := mk_exn { exn_class : exc_class; exn_detail : string }.

(** The outcome of evaluating an expression or running a call. *)
Inductive result (A : Type) : Type :=
| Return (a : A)
| Raise (e : exn).
Arguments Return {A} a.
Arguments Raise {A} e.

Definition bind {A B} (r : result A) (k : A -> result B) : result B :=
  match r with
  | Return a => k a
  | Raise e => Raise e
  end.

Definition raises {A} (r : result A) (c : exc_class) : Prop :=
  exists d, r = Raise (mk_exn c d).

Definition returns {A} (r : result A) : Prop := exists a, r = Return a.

(** [datetime.datetime]: the wall-clock reading in microseconds and, for
    an aware value, its UTC offset in microseconds. *)
Record datetime : Set := mk_datetime {
  dt_wall : Z;
  dt_utcoffset : option Z
}.

(** [a <= b] on datetimes. Two naive values compare by their readings,
    two aware values by their instants, and a naive against an aware one
    raises [TypeError]. *)
Definition datetime_le (a b : datetime) : result bool :=
  match dt_utcoffset a, dt_utcoffset b with
  | None, None => Return (dt_wall a <=? dt_wall b)
  | Some oa, Some ob => Return (dt_wall a - oa <=? dt_wall b - ob)
  | _, _ =>
      Raise (mk_exn TypeError
               "can't compare offset-naive and offset-aware datetimes")
  end.

(** A JSONB column holds a document; no operation below looks inside
    one, so a document is carried as its serialised text. *)
Definition json : Set := string.

(** *** Floats

    Python floats are IEEE 754 binary64, as Rocq's primitive floats. *)

(** [float(z)]; exact for [|z| <= 2^53], in particular for every value of
    a 32-bit [Integer] column. *)
Definition float_of_Z (z : Z) : float :=
  if z <? 0
  then PrimFloat.opp (PrimFloat.of_uint63 (Uint63.of_Z (- z)))
  else PrimFloat.of_uint63 (Uint63.of_Z z).

(** [a / b] on ints: true division, [ZeroDivisionError] on a zero
    divisor. *)
Definition truediv (a b : Z) : result float :=
  if b =? 0
  then Raise (mk_exn ZeroDivisionError "division by zero")
  else Return (PrimFloat.div (float_of_Z a) (float_of_Z b)).

(** The integer nearest to [n / d] for [0 < d], ties to even. *)
Definition div_half_even (n d : Z) : Z :=
  let q := n / d in
  let r := n mod d in
  if 2 * r <? d then q
  else if d <? 2 * r then q + 1
  else if Z.even q then q else q + 1.

(** [round(x, 2)] on a float: the exact value of [x] is rounded to the
    nearest multiple of 1/100, ties to even, and that decimal is read
    back as the nearest float. A float with a non-negative exponent is an
    integer and rounds to itself, as do zeros, infinities and NaN. The
    read-back is exact below [2^53 / 100] in magnitude, far above any
    percentage of 32-bit counters. *)
Definition round2 (x : float) : float :=
  match Prim2SF x with
  | S754_finite s m e =>
      if 0 <=? e then x
      else
        let h := div_half_even (Z.pos m * 100) (2 ^ (- e)) in
        let r := PrimFloat.div (float_of_Z h) (float_of_Z 100) in
        if s then PrimFloat.opp r else r
  | _ => x
  end.

(** What a property may return: the code returns the int [0] on one
    path and a float on the other. *)
Inductive number : Set :=
| Int (z : Z)
| Float (f : float).

End Py.

Import Py.

(* ===================================================================== *)
(** ** [models.py]: enumerations                                          *)
(* ===================================================================== *)

Module MessageType.
Inductive t : Set :=
| TEXT | IMAGE | VOICE | VIDEO | FILE | LOCATION
| LINK | MINIPROGRAM | CARD | SYSTEM | REVOKE | EMOTION.

Definition value (m : t) : string :=
  match m with
  | TEXT => "text"
  | IMAGE => "image"
  | VOICE => "voice"
  | VIDEO => "video"
  | FILE => "file"
  | LOCATION => "location"
  | LINK => "link"
  | MINIPROGRAM => "miniprogram"
  | CARD => "card"
  | SYSTEM => "system"
  | REVOKE => "revoke"
  | EMOTION => "emotion"
  end.

(** The members in definition order ([list(MessageType)]). *)
Definition members : list t :=
  [TEXT; IMAGE; VOICE; VIDEO; FILE; LOCATION;
   LINK; MINIPROGRAM; CARD; SYSTEM; REVOKE; EMOTION].

(** [MessageType(s)]: lookup by value, [ValueError] when no member has
    it. *)
Definition of_value (s : string) : result t :=
  match find (fun m => String.eqb (value m) s) members with
  | Some m => Return m
  | None => Raise (mk_exn ValueError "is not a valid MessageType")
  end.

#[global] Instance eq_dec : EqDecision t.
Proof. solve_decision. Defined.
End MessageType.

Module MemberType.
Inductive t : Set := OWNER | ADMIN | MEMBER.

Definition value (m : t) : string :=
  match m with
  | OWNER => "owner"
  | ADMIN => "admin"
  | MEMBER => "member"
  end.

#[global] Instance eq_dec : EqDecision t.
Proof. solve_decision. Defined.
End MemberType.

Module TaskStatus.
Inductive t : Set := PENDING | RUNNING | COMPLETED | FAILED | CANCELLED.

Definition value (s : t) : string :=
  match s with
  | PENDING => "pending"
  | RUNNING => "running"
  | COMPLETED => "completed"
  | FAILED => "failed"
  | CANCELLED => "cancelled"
  end.

#[global] Instance eq_dec : EqDecision t.
Proof. solve_decision. Defined.
End TaskStatus.

(* ===================================================================== *)
(** ** [models.py]: table rows                                            *)
(* ===================================================================== *)

(** A [DateTime(timezone=True)] column stores an instant: microseconds
    since the epoch. *)
Definition timestamptz : Set := Z.

(** Every column is nullable unless declared [nullable=False] or part of
    the primary key; a nullable column is an [option]. Column defaults are
    filled in by the ORM when the row is flushed, so a row that reaches a
    statement below already carries them. *)

Module ChatGroup.
Record t : Set := mk {
  roomid : string;
  room_name : string;
  creator : option string;
  notice : option string;
  owner_corpid : string;
  create_time : option timestamptz;
  member_count : option Z;
  metadata : option json;
  is_active : option bool;
  last_sync_time : option timestamptz;
  created_at : option timestamptz;
  updated_at : option timestamptz
}.

(** Column assignments, as the SET clause of an UPDATE makes them. *)
Definition set_is_active (v : option bool) (g : t) : t :=
  mk (roomid g) (room_name g) (creator g) (notice g) (owner_corpid g)
     (create_time g) (member_count g) (metadata g) v (last_sync_time g)
     (created_at g) (updated_at g).

Definition set_sync_info (count : option Z) (at_ : option timestamptz)
    (g : t) : t :=
  mk (roomid g) (room_name g) (creator g) (notice g) (owner_corpid g)
     (create_time g) count (metadata g) (is_active g) at_
     (created_at g) (updated_at g).
End ChatGroup.

Module ChatMessage.
Record t : Set := mk {
  id : Z;
  seq : Z;
  msgid : string;
  roomid : string;
  msgtype : MessageType.t;
  msgtime : timestamptz;
  from_user : option string;
  to_users : option (list string);
  content : option string;
  media_data : option json;
  raw_data : option json;
  is_revoked : option bool;
  revoke_time : option timestamptz;
  forward_count : option Z;
  reply_to_msgid : option string;
  created_at : option timestamptz;
  updated_at : option timestamptz
}.

(** The [id] a row gets from the sequence when it is inserted; until then
    the field holds no meaning. *)
Definition set_id (v : Z) (m : t) : t :=
  mk v (seq m) (msgid m) (roomid m) (msgtype m) (msgtime m) (from_user m)
     (to_users m) (content m) (media_data m) (raw_data m) (is_revoked m)
     (revoke_time m) (forward_count m) (reply_to_msgid m) (created_at m)
     (updated_at m).

End ChatMessage.

Module ChatMember.
Record t : Set := mk {
  id : Z;
  roomid : string;
  userid : string;
  user_name : option string;
  join_time : timestamptz;
  quit_time : option timestamptz;
  member_type : option MemberType.t;
  inviter : option string;
  is_active : option bool;
  last_seen : option timestamptz;
  message_count : option Z;
  metadata : option json;
  created_at : option timestamptz;
  updated_at : option timestamptz
}.

(** The [id] a row gets from the sequence when it is inserted. *)
Definition set_id (v : Z) (m : t) : t :=
  mk v (roomid m) (userid m) (user_name m) (join_time m) (quit_time m)
     (member_type m) (inviter m) (is_active m) (last_seen m)
     (message_count m) (metadata m) (created_at m) (updated_at m).

(** Column assignments, as the SET clause of an UPDATE makes them. *)
Definition set_is_active (v : option bool) (m : t) : t :=
  mk (id m) (roomid m) (userid m) (user_name m) (join_time m) (quit_time m)
     (member_type m) (inviter m) v (last_seen m) (message_count m)
     (metadata m) (created_at m) (updated_at m).

Definition set_quit (at_ : option timestamptz) (m : t) : t :=
  mk (id m) (roomid m) (userid m) (user_name m) (join_time m) at_
     (member_type m) (inviter m) (Some false) (last_seen m)
     (message_count m) (metadata m) (created_at m) (updated_at m).

(** [is_admin_or_owner]. *)
Definition is_admin_or_owner (m : t) : bool :=
  match member_type m with
  | Some MemberType.ADMIN | Some MemberType.OWNER => true
  | _ => false
  end.

(** The columns of the unique index [idx_members_unique]. *)
Definition idx_members_unique (m : t) : string * string * timestamptz :=
  (roomid m, userid m, join_time m).
End ChatMember.

Module SyncTask.
Record t : Set := mk {
  id : Z;
  task_id : string;
  roomid : option string;
  task_type : string;
  status : string;
  start_time : option timestamptz;
  end_time : option timestamptz;
  progress : option Z;
  total_count : option Z;
  success_count : option Z;
  error_count : option Z;
  error_message : option string;
  metadata : option json;
  created_at : option timestamptz;
  updated_at : option timestamptz
}.

(** The [id] a row gets from the sequence when it is inserted. *)
Definition set_id (v : Z) (k : t) : t :=
  mk v (task_id k) (roomid k) (task_type k) (status k) (start_time k)
     (end_time k) (progress k) (total_count k) (success_count k)
     (error_count k) (error_message k) (metadata k) (created_at k)
     (updated_at k).

(** Column assignments, as the SET clause of an UPDATE makes them. *)
Definition set_roomid (v : option string) (k : t) : t :=
  mk (id k) (task_id k) v (task_type k) (status k) (start_time k)
     (end_time k) (progress k) (total_count k) (success_count k)
     (error_count k) (error_message k) (metadata k) (created_at k)
     (updated_at k).

Definition set_started (at_ : option timestamptz) (k : t) : t :=
  mk (id k) (task_id k) (roomid k) (task_type k)
     (TaskStatus.value TaskStatus.RUNNING) at_ (end_time k) (progress k)
     (total_count k) (success_count k) (error_count k) (error_message k)
     (metadata k) (created_at k) (updated_at k).

Definition set_finished (s : TaskStatus.t) (at_ : option timestamptz)
    (err : option string) (k : t) : t :=
  mk (id k) (task_id k) (roomid k) (task_type k) (TaskStatus.value s)
     (start_time k) at_ (progress k) (total_count k) (success_count k)
     (error_count k) err (metadata k) (created_at k) (updated_at k).

Definition set_counters (p n s e : option Z) (k : t) : t :=
  mk (id k) (task_id k) (roomid k) (task_type k) (status k) (start_time k)
     (end_time k) p n s e (error_message k) (metadata k) (created_at k)
     (updated_at k).

(** [progress_percentage]:
<<
    if self.total_count and self.total_count > 0:
        return round((self.progress / self.total_count) * 100, 2)
    return 0
>>
    An unset column is [None]: falsy in the test, and a [TypeError] as
    the dividend. *)
Definition progress_percentage (k : t) : result number :=
  match total_count k with
  | Some n =>
      if negb (n =? 0) && (0 <? n) then
        match progress k with
        | Some p =>
            bind (truediv p n) (fun q =>
              Return (Float (round2 (PrimFloat.mul q (float_of_Z 100)))))
        | None =>
            Raise (mk_exn TypeError
                     "unsupported operand type(s) for /: 'NoneType' and 'int'")
        end
      else Return (Int 0)
  | None => Return (Int 0)
  end.

(** [duration], in microseconds. *)
Definition duration (k : t) : option Z :=
  match start_time k, end_time k with
  | Some s, Some e => Some (e - s)
  | _, _ => None
  end.
End SyncTask.

(* ===================================================================== *)
(** ** The relational schema declared by [models.py]                      *)
(* ===================================================================== *)

(** The four tables the properties below concern, with the sequences
    behind the [autoincrement] primary keys. *)
Record Database : Set := mk_db {
  chat_groups : list ChatGroup.t;
  chat_messages : list ChatMessage.t;
  chat_members : list ChatMember.t;
  sync_tasks : list SyncTask.t;
  chat_messages_id_seq : Z;
  chat_members_id_seq : Z;
  sync_tasks_id_seq : Z
}.

Definition empty_db : Database := mk_db [] [] [] [] 1 1 1.

(** [primary_key=True], [unique=True] and [Index(..., unique=True)]: no two
    rows share the key. *)
Definition unique {K} `{EqDecision K} (keys : list K) : bool :=
  bool_decide (NoDup keys).

(** [ForeignKey(...)]: every referencing value is a key of the referenced
    table. A NULL reference is not checked. *)
Definition references {K} `{EqDecision K} (fks pks : list K) : bool :=
  forallb (fun k => bool_decide (k ∈ pks)) fks.

Definition group_keys (db : Database) : list string :=
  map ChatGroup.roomid (chat_groups db).

Definition message_keys (db : Database) : list string :=
  map ChatMessage.msgid (chat_messages db).

(** The declared constraints, table by table. *)
Definition constraints_ok (db : Database) : bool :=
  (* chat_groups: roomid is the primary key *)
  unique (group_keys db)
  (* chat_messages: id primary key; seq unique; msgid unique;
     roomid -> chat_groups.roomid; reply_to_msgid -> chat_messages.msgid *)
  && unique (map ChatMessage.id (chat_messages db))
  && unique (map ChatMessage.seq (chat_messages db))
  && unique (message_keys db)
  && references (map ChatMessage.roomid (chat_messages db)) (group_keys db)
  && references (omap ChatMessage.reply_to_msgid (chat_messages db))
       (message_keys db)
  (* chat_members: id primary key; idx_members_unique;
     roomid -> chat_groups.roomid *)
  && unique (map ChatMember.id (chat_members db))
  && unique (map ChatMember.idx_members_unique (chat_members db))
  && references (map ChatMember.roomid (chat_members db)) (group_keys db)
  (* sync_tasks: id primary key; task_id unique;
     roomid -> chat_groups.roomid *)
  && unique (map SyncTask.id (sync_tasks db))
  && unique (map SyncTask.task_id (sync_tasks db))
  && references (omap SyncTask.roomid (sync_tasks db)) (group_keys db).

(** The statements a session flushes. An INSERT into a table with an
    autoincrement key takes its [id] from the sequence; UPDATE and DELETE
    act on the rows their WHERE clause selects. *)
Inductive statement : Type :=
| INSERT_chat_groups (g : ChatGroup.t)
| INSERT_chat_messages (m : ChatMessage.t)
| INSERT_chat_members (m : ChatMember.t)
| INSERT_sync_tasks (k : SyncTask.t)
| UPDATE_chat_groups (where_ : ChatGroup.t -> bool)
    (set : ChatGroup.t -> ChatGroup.t)
| UPDATE_chat_messages (where_ : ChatMessage.t -> bool)
    (set : ChatMessage.t -> ChatMessage.t)
| UPDATE_chat_members (where_ : ChatMember.t -> bool)
    (set : ChatMember.t -> ChatMember.t)
| UPDATE_sync_tasks (where_ : SyncTask.t -> bool)
    (set : SyncTask.t -> SyncTask.t)
| DELETE_chat_groups (where_ : ChatGroup.t -> bool)
| DELETE_chat_messages (where_ : ChatMessage.t -> bool)
| DELETE_chat_members (where_ : ChatMember.t -> bool)
| DELETE_sync_tasks (where_ : SyncTask.t -> bool).

Definition update_rows {A} (where_ : A -> bool) (set : A -> A)
    (rows : list A) : list A :=
  map (fun r => if where_ r then set r else r) rows.

Definition delete_rows {A} (where_ : A -> bool) (rows : list A) : list A :=
  List.filter (fun r => negb (where_ r)) rows.

(** The tables a statement would leave, before the constraints are
    checked. *)
Definition effect (s : statement) (db : Database) : Database :=
  match s with
  | INSERT_chat_groups g =>
      mk_db (chat_groups db ++ [g]) (chat_messages db) (chat_members db)
        (sync_tasks db) (chat_messages_id_seq db) (chat_members_id_seq db)
        (sync_tasks_id_seq db)
  | INSERT_chat_messages m =>
      mk_db (chat_groups db)
        (chat_messages db ++ [ChatMessage.set_id (chat_messages_id_seq db) m])
        (chat_members db) (sync_tasks db) (chat_messages_id_seq db + 1)
        (chat_members_id_seq db) (sync_tasks_id_seq db)
  | INSERT_chat_members m =>
      mk_db (chat_groups db) (chat_messages db)
        (chat_members db ++ [ChatMember.set_id (chat_members_id_seq db) m])
        (sync_tasks db) (chat_messages_id_seq db)
        (chat_members_id_seq db + 1) (sync_tasks_id_seq db)
  | INSERT_sync_tasks k =>
      mk_db (chat_groups db) (chat_messages db) (chat_members db)
        (sync_tasks db ++ [SyncTask.set_id (sync_tasks_id_seq db) k])
        (chat_messages_id_seq db) (chat_members_id_seq db)
        (sync_tasks_id_seq db + 1)
  | UPDATE_chat_groups w f =>
      mk_db (update_rows w f (chat_groups db)) (chat_messages db)
        (chat_members db) (sync_tasks db) (chat_messages_id_seq db)
        (chat_members_id_seq db) (sync_tasks_id_seq db)
  | UPDATE_chat_messages w f =>
      mk_db (chat_groups db) (update_rows w f (chat_messages db))
        (chat_members db) (sync_tasks db) (chat_messages_id_seq db)
        (chat_members_id_seq db) (sync_tasks_id_seq db)
  | UPDATE_chat_members w f =>
      mk_db (chat_groups db) (chat_messages db)
        (update_rows w f (chat_members db)) (sync_tasks db)
        (chat_messages_id_seq db) (chat_members_id_seq db)
        (sync_tasks_id_seq db)
  | UPDATE_sync_tasks w f =>
      mk_db (chat_groups db) (chat_messages db) (chat_members db)
        (update_rows w f (sync_tasks db)) (chat_messages_id_seq db)
        (chat_members_id_seq db) (sync_tasks_id_seq db)
  | DELETE_chat_groups w =>
      mk_db (delete_rows w (chat_groups db)) (chat_messages db)
        (chat_members db) (sync_tasks db) (chat_messages_id_seq db)
        (chat_members_id_seq db) (sync_tasks_id_seq db)
  | DELETE_chat_messages w =>
      mk_db (chat_groups db) (delete_rows w (chat_messages db))
        (chat_members db) (sync_tasks db) (chat_messages_id_seq db)
        (chat_members_id_seq db) (sync_tasks_id_seq db)
  | DELETE_chat_members w =>
      mk_db (chat_groups db) (chat_messages db)
        (delete_rows w (chat_members db)) (sync_tasks db)
        (chat_messages_id_seq db) (chat_members_id_seq db)
        (sync_tasks_id_seq db)
  | DELETE_sync_tasks w =>
      mk_db (chat_groups db) (chat_messages db) (chat_members db)
        (delete_rows w (sync_tasks db)) (chat_messages_id_seq db)
        (chat_members_id_seq db) (sync_tasks_id_seq db)
  end.

(** A statement takes effect when the tables it leaves satisfy the
    declared constraints, and is refused with [IntegrityError] otherwise,
    leaving the tables as they were. *)
Definition execute (s : statement) (db : Database) : result Database :=
  if constraints_ok (effect s db) then Return (effect s db)
  else Raise (mk_exn IntegrityError "constraint violated").

(** Several statements in order, stopping at the first one refused. *)
Fixpoint execute_all (ss : list statement) (db : Database)
    : result Database :=
  match ss with
  | [] => Return db
  | s :: ss' => bind (execute s db) (execute_all ss')
  end.

(** [session.delete(group)] followed by a flush. The relationships of
    [ChatGroup] decide what goes with the group: [messages] and [members]
    are declared [cascade="all, delete-orphan"], so their rows are deleted
    with it; [sync_tasks] declares no cascade, so its rows are kept with
    their [roomid] set to NULL. *)
Definition session_delete_group (r : string) (db : Database)
    : result Database :=
  execute_all
    [ DELETE_chat_messages (fun m => String.eqb (ChatMessage.roomid m) r);
      DELETE_chat_members (fun m => String.eqb (ChatMember.roomid m) r);
      UPDATE_sync_tasks
        (fun k => bool_decide (SyncTask.roomid k = Some r))
        (SyncTask.set_roomid None);
      DELETE_chat_groups (fun g => String.eqb (ChatGroup.roomid g) r) ]
    db.

(** [active_member_count] of a group: the members reached through the
    [members] relationship whose [is_active] is truthy. *)
Definition active_member_count (r : string) (db : Database) : Z :=
  Z.of_nat (length (List.filter
    (fun m => String.eqb (ChatMember.roomid m) r
              && bool_decide (ChatMember.is_active m = Some true))
    (chat_members db))).

(* ===================================================================== *)
(** ** [schemas.py]: request and response schemas                         *)
(* ===================================================================== *)

Module MessageTypeEnum.
Inductive t : Set :=
| TEXT | IMAGE | VOICE | VIDEO | FILE | LOCATION
| LINK | MINIPROGRAM | CARD | SYSTEM | REVOKE | EMOTION.

Definition value (m : t) : string :=
  match m with
  | TEXT => "text"
  | IMAGE => "image"
  | VOICE => "voice"
  | VIDEO => "video"
  | FILE => "file"
  | LOCATION => "location"
  | LINK => "link"
  | MINIPROGRAM => "miniprogram"
  | CARD => "card"
  | SYSTEM => "system"
  | REVOKE => "revoke"
  | EMOTION => "emotion"
  end.

Definition members : list t :=
  [TEXT; IMAGE; VOICE; VIDEO; FILE; LOCATION;
   LINK; MINIPROGRAM; CARD; SYSTEM; REVOKE; EMOTION].

(** Validation of a field declared [msgtype: MessageTypeEnum] (in
    [MessageBase], hence in [MessageCreate] and [MessageResponse]): the
    incoming tag is looked up by value and refused when no member has
    it. *)
Definition validate (s : string) : result t :=
  match find (fun m => String.eqb (value m) s) members with
  | Some m => Return m
  | None =>
      Raise (mk_exn ValidationError
               "value is not a valid enumeration member")
  end.
End MessageTypeEnum.

(** The values a validator of [SyncTaskRequest] meets: [None], a group id,
    a parsed datetime. *)
Inductive pyvalue : Set :=
| PNone
| PStr (s : string)
| PDatetime (d : datetime).

(** Truth value testing: [None] and the empty string are false, a
    datetime is always true. *)
Definition truthy (v : pyvalue) : bool :=
  match v with
  | PNone => false
  | PStr s => negb (String.eqb s "")
  | PDatetime _ => true
  end.

(** [d.get(k)] and [d[k]] on a dict with string keys. *)
Definition dict_get (d : gmap string pyvalue) (k : string) : pyvalue :=
  default PNone (d !! k).

Definition dict_getitem (d : gmap string pyvalue) (k : string)
    : result pyvalue :=
  match d !! k with
  | Some v => Return v
  | None => Raise (mk_exn KeyError k)
  end.

(** [a <= b]. *)
Definition py_le (a b : pyvalue) : result bool :=
  match a, b with
  | PDatetime x, PDatetime y => datetime_le x y
  | PStr x, PStr y => Return (String.leb x y)
  | _, _ =>
      Raise (mk_exn TypeError "'<=' not supported between instances")
  end.

Definition of_option {A} (f : A -> pyvalue) (o : option A) : pyvalue :=
  match o with
  | Some a => f a
  | None => PNone
  end.

Module SyncTaskRequest.
Record t : Set := mk {
  roomid : option string;
  start_time : option datetime;
  end_time : option datetime;
  task_type : string
}.

(** The validator of [end_time]:
<<
    if v and values.get('start_time') and v <= values['start_time']:
        raise ValueError('结束时间必须晚于开始时间')
    return v
>>
    [values] holds the fields validated before [end_time]. *)
Definition end_time_must_be_after_start_time (v : pyvalue)
    (values : gmap string pyvalue) : result pyvalue :=
  if truthy v then
    if truthy (dict_get values "start_time") then
      bind (dict_getitem values "start_time") (fun start =>
      bind (py_le v start) (fun le =>
        if le
        then Raise (mk_exn ValueError "结束时间必须晚于开始时间")
        else Return v))
    else Return v
  else Return v.

(** The fields that precede [end_time] in the class body, as the
    validator receives them. *)
Definition values_before_end_time (room : option string)
    (start : option datetime) : gmap string pyvalue :=
  <["start_time" := of_option PDatetime start]>
    (<["roomid" := of_option PStr room]> ∅).

(** Building a request from parsed field values. The fields are
    validated in declaration order; an exception of a validator
    ([ValueError], [TypeError]) is reported as a [ValidationError]. *)
Definition validate (room : option string) (start end_ : option datetime)
    (type_ : string) : result t :=
  match end_time_must_be_after_start_time
          (of_option PDatetime end_) (values_before_end_time room start)
  with
  | Return _ => Return (mk room start end_ type_)
  | Raise e =>
      match exn_class e with
      | ValueError | TypeError =>
          Raise (mk_exn ValidationError (exn_detail e))
      | _ => Raise e
      end
  end.
End SyncTaskRequest.

(* ===================================================================== *)
(** ** [database.py]: the session decorator                               *)
(* ===================================================================== *)

Module database.

(** What the wrapper does to its session, in order. *)
Inductive call : Set :=
| Commit
| Rollback
| Close
| AExit
| LoggerError.

#[global] Instance call_eq_dec : EqDecision call.
Proof. solve_decision. Defined.

Section Decorator.

(** The session class and its methods are SQLAlchemy's; the wrapper is
    written against whatever they do. [aexit] is the exit of
    [async with async_session_maker() as session]. *)
Context {Session R : Type}.
Variable commit rollback close aexit : Session -> result unit * Session.

(** A computation of the wrapper: it acts on the session and records
    the calls it makes. *)
Definition M (A : Type) : Type :=
  Session * list call -> result A * (Session * list call).

Definition ret {A} (a : A) : M A := fun w => (Return a, w).

Definition raise {A} (e : exn) : M A := fun w => (Raise e, w).

Definition seq {A B} (m : M A) (k : A -> M B) : M B :=
  fun w =>
    match m w with
    | (Return a, w') => k a w'
    | (Raise e, w') => (Raise e, w')
    end.

Definition invoke (c : call) (method : Session -> result unit * Session)
    : M unit :=
  fun w =>
    let (r, s') := method (fst w) in (r, (s', (snd w ++ [c])%list)).

Definition logger_error : M unit :=
  fun w => (Return tt, (fst w, (snd w ++ [LoggerError])%list)).

(** The wrapped coroutine: it works on the session; the calls recorded
    are the wrapper's own. *)
Definition await_func (func : Session -> result R * Session) : M R :=
  fun w => let (r, s') := func (fst w) in (r, (s', snd w)).

(** [try: body / except Exception as e: handler; raise / finally: fin].
    The handler runs for an exception deriving from [Exception] and
    ends in a bare [raise]; [fin] runs on every path, and an exception
    of the handler or of [fin] replaces the one in flight. *)
Definition try_except_Exception_finally {A} (body : M A)
    (handler : exn -> M unit) (fin : M unit) : M A :=
  fun w =>
    let (r, w1) := body w in
    let (r', w2) :=
      match r with
      | Return a => (Return a, w1)
      | Raise e =>
          if is_Exception (exn_class e) then
            match handler e w1 with
            | (Return _, w') => (Raise e, w')
            | (Raise e', w') => (Raise e', w')
            end
          else (Raise e, w1)
      end in
    match fin w2 with
    | (Return _, w3) => (r', w3)
    | (Raise e, w3) => (Raise e, w3)
    end.

(** [async with ... as session: body]: the exit runs on every path and
    does not swallow the exception of the body. *)
Definition async_with {A} (body : M A) : M A :=
  fun w =>
    let (r, w1) := body w in
    match invoke AExit aexit w1 with
    | (Return _, w2) => (r, w2)
    | (Raise e, w2) => (Raise e, w2)
    end.

(** [with_db_session(func)], called on the session that
    [async_session_maker()] returns:
<<
  async with async_session_maker() as session:
      try:
          result = await func(session, *args, **kwargs)
          await session.commit()
          return result
      except Exception as e:
          await session.rollback()
          logger.error(...)
          raise
      finally:
          await session.close()
>>
*)
Definition wrapper (func : Session -> result R * Session) : M R :=
  async_with
    (try_except_Exception_finally
       (seq (await_func func) (fun result =>
        seq (invoke Commit commit) (fun _ =>
        ret result)))
       (fun e => seq (invoke Rollback rollback) (fun _ => logger_error))
       (invoke Close close)).

(** [async_session_maker] is [None] until [init_db] has run; calling
    it then is a [TypeError]. *)
Definition with_db_session (func : Session -> result R * Session)
    (async_session_maker : option Session)
    : result R * option (Session * list call) :=
  match async_session_maker with
  | Some session =>
      let (r, w) := wrapper func (session, []) in (r, Some w)
  | None =>
      (Raise (mk_exn TypeError "'NoneType' object is not callable"),
       None)
  end.

End Decorator.

(** A session over the tables above, as a unit of work: statements
    wait in [pending] until [commit] flushes them in one transaction;
    [rollback] and [close] discard them. *)
Record AsyncSession : Type := mk_session {
  bound : Database;
  pending : list statement
}.

Definition session_commit (s : AsyncSession)
    : result unit * AsyncSession :=
  match execute_all (pending s) (bound s) with
  | Return db' => (Return tt, mk_session db' [])
  | Raise e => (Raise e, s)
  end.

Definition session_rollback (s : AsyncSession)
    : result unit * AsyncSession :=
  (Return tt, mk_session (bound s) []).

Definition session_close (s : AsyncSession)
    : result unit * AsyncSession :=
  (Return tt, mk_session (bound s) []).

End database.

(* ===================================================================== *)
(** ** [routes.py]: the sync route                                        *)
(* ===================================================================== *)

Module routes.
Section SyncRoute.

(** [SyncService(db).create_sync_task]: the service behind the route,
    acting on the tables. *)
Variable create_sync_task :
  option string -> option datetime -> option datetime ->
  Database -> result SyncTask.t * Database.

(** [POST /sync]:
<<
  try:
      sync_service = SyncService(db)
      task = await sync_service.create_sync_task(
          roomid=request.roomid,
          start_time=request.start_time,
          end_time=request.end_time)
      return task
  except Exception as e:
      logger.error("Failed to create sync task", error=str(e))
      raise HTTPException(status_code=500, detail="创建同步任务失败")
>>
*)
Definition sync_messages (request : SyncTaskRequest.t) (db : Database)
    : result SyncTask.t * Database :=
  match create_sync_task (SyncTaskRequest.roomid request)
          (SyncTaskRequest.start_time request)
          (SyncTaskRequest.end_time request) db
  with
  | (Return task, db') => (Return task, db')
  | (Raise e, db') =>
      if is_Exception (exn_class e)
      then (Raise (mk_exn (HTTPException 500) "创建同步任务失败"), db')
      else (Raise e, db')
  end.

End SyncRoute.
End routes.

(* ===================================================================== *)
(** ** The engine behind the routes ([services], not in this tree)        *)
(* ===================================================================== *)

Module services.

(** Modelled from the spec: the membership change a system message
    announces, as decoded by the Payload Codec (spec 3, 4.2), which is not
    in the source tree: "lifecycle driven entirely by system messages
    decoded from the message stream". *)
Inductive member_event : Set :=
| Joined (userid : string) (user_name : option string)
| Quit (userid : string).

(** Modelled from the spec: the record the Payload Codec hands to the
    Upsert Engine (spec 4.2, 4.4); the codec is not in the source tree.
    It carries the Message row to store, what is known of its group
    ("display name, owning tenant id") and, for a system message, the
    membership change it announces. *)
Record DecodedMessage : Set := mk_decoded {
  dm_message : ChatMessage.t;
  dm_room_name : string;
  dm_owner_corpid : string;
  dm_member_event : option member_event
}.

(** Modelled from the spec: [PersistResult{committed,
    skipped_duplicates, errors}] of the Upsert Engine (spec 4.4), which is
    not in the source tree. *)
Record PersistResult : Set := mk_result {
  committed : Z;
  skipped_duplicates : Z;
  errors : Z
}.

(** Modelled from the spec: the result of an empty batch (spec 4.4). *)
Definition no_result : PersistResult := mk_result 0 0 0.

(** Modelled from the spec: the dedup test of the Upsert Engine
    (spec 3, 4.4), "msgid, the dedup key": is a Message with this [msgid]
    stored? *)
Definition message_stored (id : string) (db : Database) : bool :=
  bool_decide (id ∈ message_keys db).

(** Modelled from the spec: the test behind "created on first message
    referencing it" (spec 3): is the Group stored? *)
Definition group_stored (r : string) (db : Database) : bool :=
  bool_decide (r ∈ group_keys db).

(** Modelled from the spec: the side effects of one decoded message in
    the Upsert Engine (spec 3, 4.4), whose code is not in the source
    tree. A Group is "created on first message referencing it"; a system
    message that announces a join adds a Member record keyed by group,
    user and join time ("a user may rejoin, producing a new record"); one
    that announces a departure deactivates the active record and sets
    its quit time. *)
Definition side_effects (dm : DecodedMessage) (db : Database)
    : list statement :=
  let m := dm_message dm in
  (if group_stored (ChatMessage.roomid m) db then []
   else [INSERT_chat_groups
           (ChatGroup.mk (ChatMessage.roomid m) (dm_room_name dm) None
              None (dm_owner_corpid dm) None (Some 0) None (Some true)
              None (Some (ChatMessage.msgtime m))
              (Some (ChatMessage.msgtime m)))])
  ++
  match ChatMessage.msgtype m, dm_member_event dm with
  | MessageType.SYSTEM, Some (Joined u name) =>
      [INSERT_chat_members
         (ChatMember.mk 0 (ChatMessage.roomid m) u name
            (ChatMessage.msgtime m) None (Some MemberType.MEMBER) None
            (Some true) None (Some 0) None
            (Some (ChatMessage.msgtime m)) (Some (ChatMessage.msgtime m)))]
  | MessageType.SYSTEM, Some (Quit u) =>
      [UPDATE_chat_members
         (fun r => String.eqb (ChatMember.roomid r) (ChatMessage.roomid m)
                   && String.eqb (ChatMember.userid r) u
                   && bool_decide (ChatMember.is_active r = Some true))
         (ChatMember.set_quit (Some (ChatMessage.msgtime m)))]
  | _, _ => []
  end.

(** Modelled from the spec: one message in the Upsert Engine's
    [persist_batch] (spec 4.4), whose code is not in the source tree:
    "messages are inserted keyed by msgid with insert-if-absent,
    otherwise no-op semantics; a duplicate delivery is idempotent and
    contributes to skipped_duplicates, not to errors". A message whose
    statements the tables refuse counts as an error and leaves them as
    they were. *)
Definition persist_message (dm : DecodedMessage)
    (acc : Database * PersistResult) : Database * PersistResult :=
  let (db, r) := acc in
  if message_stored (ChatMessage.msgid (dm_message dm)) db then
    (db, mk_result (committed r) (skipped_duplicates r + 1) (errors r))
  else
    match execute_all
            (side_effects dm db ++ [INSERT_chat_messages (dm_message dm)])
            db
    with
    | Return db' =>
        (db', mk_result (committed r + 1) (skipped_duplicates r) (errors r))
    | Raise _ =>
        (db, mk_result (committed r) (skipped_duplicates r) (errors r + 1))
    end.

(** Modelled from the spec: the closing write of a batch (spec 4.4),
    which is not in the source tree: "group member_count and
    last_sync_time are updated in the same transaction", for a group the
    batch refers to. *)
Definition touch_group (now : timestamptz) (db : Database) (r : string)
    : Database :=
  match execute
          (UPDATE_chat_groups
             (fun g => String.eqb (ChatGroup.roomid g) r)
             (ChatGroup.set_sync_info (Some (active_member_count r db))
                (Some now)))
          db
  with
  | Return db' => db'
  | Raise _ => db
  end.

(** Modelled from the spec: the transaction of [persist_batch]
    (spec 4.4), whose code is not in the source tree: the messages in
    order, then the closing write for their groups. *)
Definition persist_batch_tx (batch : list DecodedMessage)
    (now : timestamptz) (db : Database) : Database * PersistResult :=
  let (db1, r) := fold_left (fun acc dm => persist_message dm acc) batch
                    (db, no_result) in
  (fold_left (touch_group now)
     (map (fun dm => ChatMessage.roomid (dm_message dm)) batch) db1,
   r).

(** Modelled from the spec: [persist_batch] (spec 4.4), whose code is not
    in the source tree: "each batch is persisted in one atomic
    transaction"; when the storage refuses the commit nothing of the batch
    is kept and the caller sees the error. *)
Definition persist_batch (batch : list DecodedMessage)
    (now : timestamptz) (commit_succeeds : bool) (db : Database)
    : result PersistResult * Database :=
  if commit_succeeds then
    let (db', r) := persist_batch_tx batch now db in (Return r, db')
  else (Raise (mk_exn OperationalError "commit failed"), db).

(** Modelled from the spec: deactivation of a group (spec 3): "never
    hard-deleted, only deactivated", "cascade-deactivate, not
    cascade-delete"; no code of the source tree deactivates a group. The
    write reaches the rows that have an active flag: the group and its
    members. *)
Definition deactivate_group (r : string) (db : Database)
    : result Database :=
  execute_all
    [ UPDATE_chat_groups (fun g => String.eqb (ChatGroup.roomid g) r)
        (ChatGroup.set_is_active (Some false));
      UPDATE_chat_members (fun m => String.eqb (ChatMember.roomid m) r)
        (ChatMember.set_is_active (Some false)) ]
    db.

(** Modelled from the spec: the non-terminal statuses of a run (spec 4.6,
    glossary), for the Sync Task Controller that is not in the source
    tree: a run is active while pending or running. *)
Definition is_active_status (s : string) : bool :=
  String.eqb s (TaskStatus.value TaskStatus.PENDING)
  || String.eqb s (TaskStatus.value TaskStatus.RUNNING).

(** Modelled from the spec: an active run of a scope (spec 4.6). The scope
    of a task is its [roomid]: a group, or NULL for all groups
    ("为空则同步所有群组" in [SyncTaskRequest]). *)
Definition active_for (scope : option string) (k : SyncTask.t) : bool :=
  bool_decide (SyncTask.roomid k = scope)
  && is_active_status (SyncTask.status k).

(** Modelled from the spec: the active runs of a scope (spec 4.6). *)
Definition active_runs (scope : option string) (db : Database)
    : list SyncTask.t :=
  List.filter (active_for scope) (sync_tasks db).

(** Modelled from the spec: the per-scope "active run" marker (spec 5),
    read off the task table. *)
Definition has_active_run (scope : option string) (db : Database) : bool :=
  existsb (active_for scope) (sync_tasks db).

(** Modelled from the spec: [get_task(task_id)] (spec 6), whose code is
    not in the source tree. *)
Definition find_task (task_id : string) (db : Database)
    : option SyncTask.t :=
  find (fun k => String.eqb (SyncTask.task_id k) task_id) (sync_tasks db).

(** Modelled from the spec: the task record "created at task start"
    (spec 3), pending, with the column defaults of [SyncTask]. *)
Definition pending_task (task_id : string) (roomid : option string)
    : SyncTask.t :=
  SyncTask.mk 0 task_id roomid "sync_messages"
    (TaskStatus.value TaskStatus.PENDING) None None (Some 0) (Some 0)
    (Some 0) (Some 0) None None None None.

(** Modelled from the spec: [start_sync(scope, time_range) -> task_id]
    (spec 4.6, 6), the [create_sync_task] of [SyncService] that
    [routes.sync_messages] calls and the source tree does not contain:
    "exactly one active run per target scope is permitted at a time; a
    start request for a scope with an active run is rejected rather than
    queued". An accepted request stores a pending task under the new
    [task_id] and returns it. *)
Definition create_sync_task (task_id : string) (roomid : option string)
    (start_time end_time : option datetime) (db : Database)
    : result SyncTask.t * Database :=
  if has_active_run roomid db then
    (Raise (mk_exn RuntimeError "a sync run is already active"), db)
  else
    match execute (INSERT_sync_tasks (pending_task task_id roomid)) db
    with
    | Return db' =>
        match find_task task_id db' with
        | Some k => (Return k, db')
        | None => (Raise (mk_exn RuntimeError "task not stored"), db)
        end
    | Raise e => (Raise e, db)
    end.

(** Modelled from the spec: the terminal states of a run (spec 4.6):
    "pending -> running -> {completed, failed, cancelled}"; a failed run
    has its "error_message populated". *)
Inductive terminal : Set :=
| Completed
| Failed (error_message : string)
| Cancelled.

(** Modelled from the spec: the status a terminal state writes
    (spec 4.6). *)
Definition terminal_status (t : terminal) : TaskStatus.t :=
  match t with
  | Completed => TaskStatus.COMPLETED
  | Failed _ => TaskStatus.FAILED
  | Cancelled => TaskStatus.CANCELLED
  end.

(** Modelled from the spec: the error detail a terminal state writes
    (spec 4.6). *)
Definition terminal_error (t : terminal) : option string :=
  match t with
  | Failed e => Some e
  | _ => None
  end.

(** Modelled from the spec: the WHERE clause of a controller write
    (spec 3, 4.6): the task by its id, in the status the transition
    leaves, so that a task is "immutable after reaching a terminal
    state". *)
Definition task_in (task_id : string) (s : TaskStatus.t) (k : SyncTask.t)
    : bool :=
  String.eqb (SyncTask.task_id k) task_id
  && String.eqb (SyncTask.status k) (TaskStatus.value s).

(** Modelled from the spec: "pending -> running on start" (spec 4.6), a
    write of the Sync Task Controller, whose code is not in the source
    tree. *)
Definition begin_run (task_id : string) (now : timestamptz)
    : statement :=
  UPDATE_sync_tasks (task_in task_id TaskStatus.PENDING)
    (SyncTask.set_started (Some now)).

(** Modelled from the spec: "progress counters are updated after every
    batch" (spec 4.6), a write of the Sync Task Controller, whose code is
    not in the source tree. The spec does not say how each counter moves,
    so the write takes the new values as given. *)
Definition report_progress (task_id : string)
    (progress total success error : Z) : statement :=
  UPDATE_sync_tasks (task_in task_id TaskStatus.RUNNING)
    (SyncTask.set_counters (Some progress) (Some total) (Some success)
       (Some error)).

(** Modelled from the spec: the finalization of a run as completed, failed
    or cancelled (spec 4.6), a write of the Sync Task Controller, whose
    code is not in the source tree. *)
Definition finish_run (task_id : string) (t : terminal)
    (now : timestamptz) : statement :=
  UPDATE_sync_tasks (task_in task_id TaskStatus.RUNNING)
    (SyncTask.set_finished (terminal_status t) (Some now)
       (terminal_error t)).

(** Modelled from the spec: the operations of the core (spec 2, 4, 6),
    none of which is in the source tree, as one type, so that a history
    of the archive is a list of them. *)
Inductive operation : Set :=
| Persist_batch (batch : list DecodedMessage) (now : timestamptz)
    (commit_succeeds : bool)
| Deactivate_group (roomid : string)
| Start_sync (task_id : string) (request : SyncTaskRequest.t)
| Begin_run (task_id : string) (now : timestamptz)
| Report_progress (task_id : string) (progress total success error : Z)
| Finish_run (task_id : string) (t : terminal) (now : timestamptz).

(** Modelled from the spec: a refused write leaves the tables as they
    were (spec 4.4, 5: "no partial visibility"). *)
Definition or_unchanged (db : Database) (r : result Database) : Database :=
  match r with
  | Return db' => db'
  | Raise _ => db
  end.

(** Modelled from the spec: the tables after an operation of the core
    (spec 4); [Start_sync] goes through the route of [routes.py]. *)
Definition run (op : operation) (db : Database) : Database :=
  match op with
  | Persist_batch batch now ok => snd (persist_batch batch now ok db)
  | Deactivate_group r => or_unchanged db (deactivate_group r db)
  | Start_sync task_id request =>
      snd (routes.sync_messages (create_sync_task task_id) request db)
  | Begin_run task_id now =>
      or_unchanged db (execute (begin_run task_id now) db)
  | Report_progress task_id p n s e =>
      or_unchanged db (execute (report_progress task_id p n s e) db)
  | Finish_run task_id t now =>
      or_unchanged db (execute (finish_run task_id t now) db)
  end.

(** Modelled from the spec: a history of operations, from the first. *)
Definition run_all (ops : list operation) (db : Database) : Database :=
  fold_left (fun d op => run op d) ops db.

(** Modelled from the spec: the states of the archive that the core
    reaches from the empty one. *)
Definition reachable (db : Database) : Prop :=
  exists ops, db = run_all ops empty_db.

End services.

(* ===================================================================== *)
(** ** [database.py]: URLs, session generators, health, start and stop    *)
(* ===================================================================== *)

(** [s.startswith(p)]. *)
Definition startswith (s p : string) : bool := String.prefix p s.

(** [s[n:]]. *)
Fixpoint string_drop (n : nat) (s : string) : string :=
  match n, s with
  | O, _ => s
  | S n', String _ s' => string_drop n' s'
  | S _, EmptyString => EmptyString
  end.

(** [s.replace(old, new, 1)]: the first occurrence of [old], from the
    left, is replaced; a string without one is returned as it is. *)
Fixpoint replace_first (old new s : string) : string :=
  if String.prefix old s then (new ++ string_drop (String.length old) s)%string
  else
    match s with
    | EmptyString => EmptyString
    | String c s' => String c (replace_first old new s')
    end.

(** [get_database_url(async_mode)], over [settings.database_url]:
<<
    if async_mode and not db_url.startswith("postgresql+asyncpg://"):
        if db_url.startswith("postgresql://"):
            db_url = db_url.replace("postgresql://", "postgresql+asyncpg://", 1)
        else:
            raise ValueError("Unsupported database URL format")
    return db_url
>>
*)
Definition get_database_url (database_url : string) (async_mode : bool)
    : result string :=
  if async_mode && negb (startswith database_url "postgresql+asyncpg://")
  then
    if startswith database_url "postgresql://" then
      Return (replace_first "postgresql://" "postgresql+asyncpg://"
                database_url)
    else Raise (mk_exn ValueError "Unsupported database URL format")
  else Return database_url.

Section SessionGenerators.

(** The session and its methods are SQLAlchemy's. The code that runs
    while the generator is suspended at its [yield] is the [consumer]: it
    works on the session, and what it raises is thrown into the generator
    at the [yield]. *)
Context {Session R : Type}.
Variable rollback close aexit : Session -> result unit * Session.

(** The body shared by the two generators:
<<
    try:
        yield session
    except Exception as e:
        session.rollback()
        logger.error("Database session error", error=str(e))
        raise
    finally:
        session.close()
>>
*)
Definition yield_session (consumer : Session -> result R * Session)
    : database.M R :=
  database.try_except_Exception_finally
    (database.await_func consumer)
    (fun e => database.seq (database.invoke database.Rollback rollback)
                (fun _ => database.logger_error))
    (database.invoke database.Close close).

(** [get_async_session()]: the maker must have been set by [init_db]; the
    session is entered with [async with]. [get_db] and
    [DatabaseManager.get_session] pass its session on unchanged. *)
Definition get_async_session (consumer : Session -> result R * Session)
    (async_session_maker : option Session)
    : result R * option (Session * list database.call) :=
  match async_session_maker with
  | None =>
      (Raise (mk_exn RuntimeError
                "Database not initialized. Call init_db() first."),
       None)
  | Some session =>
      let (r, w) :=
        database.async_with aexit (yield_session consumer) (session, []) in
      (r, Some w)
  end.

(** [get_sync_session()]: the same without a context manager. *)
Definition get_sync_session (consumer : Session -> result R * Session)
    (sync_session_maker : option Session)
    : result R * option (Session * list database.call) :=
  match sync_session_maker with
  | None =>
      (Raise (mk_exn RuntimeError
                "Database not initialized. Call init_db() first."),
       None)
  | Some session =>
      let (r, w) := yield_session consumer (session, []) in (r, Some w)
  end.

End SessionGenerators.

(** The calls a generator or the decorator makes once an exception that
    derives from [Exception] is in flight: the rollback, and the log line
    when the rollback returned. *)
Definition recovery_calls {Session} (rollback_outcome : result unit * Session)
    : list database.call :=
  match fst rollback_outcome with
  | Return _ => [database.Rollback; database.LoggerError]
  | Raise _ => [database.Rollback]
  end.

(** [try: body / except Exception as e: handler], for code that returns a
    value. *)
Definition try_except_Exception {A} (body : result A)
    (handler : exn -> result A) : result A :=
  match body with
  | Return a => Return a
  | Raise e => if is_Exception (exn_class e) then handler e else Raise e
  end.

(** The module's globals, [None] until [init_db] has run. A session maker
    is kept as the engine it is bound to. *)
Record Globals {AsyncEngine SyncEngine : Type} : Type := mk_globals {
  engine : option AsyncEngine;
  async_session_maker : option AsyncEngine;
  sync_engine : option SyncEngine;
  sync_session_maker : option SyncEngine
}.
Arguments Globals : clear implicits.
Arguments mk_globals {AsyncEngine SyncEngine} _ _ _ _.

(** The globals as the module body leaves them when it is imported. *)
Definition globals_at_import {AsyncEngine SyncEngine : Type}
    : Globals AsyncEngine SyncEngine :=
  mk_globals None None None None.

Section Engines.

(** Engines and connections are SQLAlchemy's; the code is written against
    whatever they do. [engine_begin] enters [engine.begin()],
    [execute_select_1] runs [conn.execute(text("SELECT 1"))], [scalar]
    reads the first column of the first row ([None] when there is none),
    and [begin_exit] leaves the [async with] block, with the exception in
    flight if there is one. The engine constructors take the URL and
    [settings.database_config]. *)
Context {AsyncEngine SyncEngine Conn Cursor Config : Type}.
Variable engine_begin : AsyncEngine -> result Conn.
Variable execute_select_1 : Conn -> result Cursor.
Variable scalar : Cursor -> result (option Z).
Variable begin_exit : Conn -> option exn -> result unit.
Variable create_async_engine : string -> Config -> result AsyncEngine.
Variable create_engine : string -> Config -> result SyncEngine.
Variable dispose : AsyncEngine -> result unit.
Variable sync_dispose : SyncEngine -> result unit.

(** [async with engine.begin() as conn: body]. The exit runs on every
    path once the block is entered; it does not swallow the exception of
    the body, and its own exception replaces the outcome. *)
Definition with_begin {A} (e : AsyncEngine) (body : Conn -> result A)
    : result A :=
  bind (engine_begin e) (fun conn =>
    match body conn with
    | Return a => bind (begin_exit conn None) (fun _ => Return a)
    | Raise x => bind (begin_exit conn (Some x)) (fun _ => Raise x)
    end).

(** [check_database_health()]:
<<
    try:
        if engine is None:
            return False
        async with engine.begin() as conn:
            result = await conn.execute(text("SELECT 1"))
            return result.scalar() == 1
    except Exception as e:
        logger.error("Database health check failed", error=str(e))
        return False
>>
*)
Definition check_database_health (g : Globals AsyncEngine SyncEngine)
    : result bool :=
  try_except_Exception
    (match engine g with
     | None => Return false
     | Some e =>
         with_begin e (fun conn =>
           bind (execute_select_1 conn) (fun result_ =>
           bind (scalar result_) (fun v =>
           Return (bool_decide (v = Some 1)))))
     end)
    (fun _ => Return false).

(** [init_db()], for [settings.database_url] and
    [settings.database_config]. The globals are assigned one by one inside
    the [try]; the handler logs and re-raises, so what was assigned before
    an exception stays assigned.
<<
    try:
        engine = create_async_engine(get_database_url(async_mode=True), ...)
        async_session_maker = async_sessionmaker(engine, ...)
        sync_engine = create_engine(get_database_url(async_mode=False), ...)
        sync_session_maker = sessionmaker(sync_engine, ...)
        async with engine.begin() as conn:
            await conn.execute(text("SELECT 1"))
        logger.info(...)
    except Exception as e:
        logger.error(...)
        raise
>>
*)
Definition init_db (database_url : string) (config : Config)
    (g : Globals AsyncEngine SyncEngine)
    : result unit * Globals AsyncEngine SyncEngine :=
  match bind (get_database_url database_url true)
          (fun url => create_async_engine url config)
  with
  | Raise x => (Raise x, g)
  | Return e =>
      let g1 := mk_globals (Some e) (Some e) (sync_engine g)
                  (sync_session_maker g) in
      match bind (get_database_url database_url false)
              (fun url => create_engine url config)
      with
      | Raise x => (Raise x, g1)
      | Return se =>
          let g2 := mk_globals (Some e) (Some e) (Some se) (Some se) in
          (with_begin e (fun conn =>
             bind (execute_select_1 conn) (fun _ => Return tt)),
           g2)
      end
  end.

(** What [close_db] and the shutdown of the application do to engines. *)
Inductive engine_call : Type :=
| Dispose (e : AsyncEngine)
| SyncDispose (e : SyncEngine).

(** [close_db()]: the globals are declared but not assigned, so they keep
    their engines.
<<
    if engine:
        await engine.dispose()
    if sync_engine:
        sync_engine.dispose()
>>
*)
Definition close_db (g : Globals AsyncEngine SyncEngine)
    : result unit * list engine_call :=
  let first :=
    match engine g with
    | Some e => (dispose e, [Dispose e])
    | None => (Return tt, [])
    end in
  match fst first with
  | Raise x => (Raise x, snd first)
  | Return _ =>
      match sync_engine g with
      | Some se => (sync_dispose se, (snd first ++ [SyncDispose se])%list)
      | None => (Return tt, snd first)
      end
  end.

(** [lifespan(app)] of [app.py]. The module binds [engine] with
    [from .database import engine] when it is imported, so the [engine]
    of the shutdown is [app_engine], the value [database.engine] had at
    that moment; [init_db] assigns [database.engine], not this name.
    [serve] is the application running while the context manager is
    suspended at its [yield].
<<
    try:
        await init_db()
    except Exception as e:
        logger.error(...)
        raise
    yield
    if engine:
        await engine.dispose()
>>
*)
Definition lifespan (app_engine : option AsyncEngine)
    (database_url : string) (config : Config) (serve : result unit)
    (g : Globals AsyncEngine SyncEngine)
    : result unit * Globals AsyncEngine SyncEngine * list engine_call :=
  match init_db database_url config g with
  | (Raise x, g') => (Raise x, g', [])
  | (Return _, g') =>
      match serve with
      | Raise x => (Raise x, g', [])
      | Return _ =>
          match app_engine with
          | Some e => (dispose e, g', [Dispose e])
          | None => (Return tt, g', [])
          end
      end
  end.

End Engines.

(* ===================================================================== *)
(** ** [routes.py]: the health route                                      *)
(* ===================================================================== *)

Module health_router.

(** What the route answers: the status code, the [status] of the body,
    its [services] and its [error]. A returned [HealthResponse] is sent
    with status 200. *)
Record response : Set := mk_response {
  status_code : Z;
  status : string;
  services : list (string * string);
  error : option string
}.


End health_router.

(* ===================================================================== *)
(** ** [routes.py]: the API routes                                        *)
(* ===================================================================== *)

Module api_router.

(** The handler every route ends in:
<<
    except Exception as e:
        logger.error(...)
        raise HTTPException(status_code=500, detail=...)
>>
*)
Definition internal_error {A} (detail : string)
    (out : result A * Database) : result A * Database :=
  match out with
  | (Raise e, db) =>
      if is_Exception (exn_class e)
      then (Raise (mk_exn (HTTPException 500) detail), db)
      else out
  | _ => out
  end.

(** [isinstance(e, HTTPException)]. *)
Definition is_HTTPException (c : exc_class) : bool :=
  match c with
  | HTTPException _ => true
  | _ => false
  end.

(** The two handlers of a route that raises a 404 of its own:
<<
    except HTTPException:
        raise
    except Exception as e:
        ...
>>
*)
Definition reraise_HTTPException {A} (detail : string)
    (out : result A * Database) : result A * Database :=
  match out with
  | (Raise e, db) =>
      if is_HTTPException (exn_class e) then out
      else internal_error detail out
  | _ => out
  end.

(** [if not x: raise HTTPException(status_code=404, detail=...)] on what
    a service found. *)
Definition or_404 {A} (detail : string)
    (out : result (option A) * Database) : result A * Database :=
  match out with
  | (Return (Some a), db) => (Return a, db)
  | (Return None, db) => (Raise (mk_exn (HTTPException 404) detail), db)
  | (Raise e, db) => (Raise e, db)
  end.

(** A query parameter declared [Query(default, ge=..., le=...)]: absent
    it takes the default, present it must lie within the bounds, or the
    request is refused before the route runs. *)
Definition Query (default : Z) (ge le : option Z) (raw : option Z)
    : result Z :=
  match raw with
  | None => Return default
  | Some v =>
      if match ge with Some b => b <=? v | None => true end
         && match le with Some b => v <=? b | None => true end
      then Return v
      else Raise (mk_exn ValidationError "value is out of range")
  end.

Section Routes.

(** The services behind the routes ([GroupService], [MessageService],
    [SyncService]) act on the tables and answer with values of their
    own. *)
Context {Groups Group Messages Message Task Tasks GroupStats MessageStats
         Found : Type}.
Variable group_service_get_groups :
  Z -> Z -> option string -> option bool ->
  Database -> result Groups * Database.
Variable group_service_get_group_by_id :
  string -> Database -> result (option Group) * Database.
Variable message_service_get_messages_by_room :
  string -> Z -> Z -> option string -> option string -> option string ->
  option string -> option string -> Database -> result Messages * Database.
Variable message_service_get_message_by_id :
  string -> Database -> result (option Message) * Database.
Variable sync_service_get_task_by_id :
  string -> Database -> result (option Task) * Database.
Variable sync_service_get_tasks :
  Z -> Z -> option string -> option string ->
  Database -> result Tasks * Database.
Variable sync_service_cancel_task :
  string -> Database -> result bool * Database.
Variable group_service_get_group_stats :
  Database -> result GroupStats * Database.
Variable message_service_get_message_stats :
  option string -> Z -> Database -> result MessageStats * Database.
Variable message_service_search_messages :
  string -> Z -> Z -> option string -> option string -> option string ->
  option string -> Database -> result Found * Database.

(** [GET /groups]. *)
Definition get_groups (page size : Z) (keyword : option string)
    (is_active : option bool) (db : Database) : result Groups * Database :=
  internal_error "获取群组列表失败"
    (group_service_get_groups page size keyword is_active db).

(** [GET /groups/{roomid}]. *)
Definition get_group (roomid : string) (db : Database)
    : result Group * Database :=
  reraise_HTTPException "获取群组详情失败"
    (or_404 "群组不存在" (group_service_get_group_by_id roomid db)).

(** [GET /groups/{roomid}/messages]. *)
Definition get_group_messages (roomid : string) (page size : Z)
    (start_time end_time msgtype from_user keyword : option string)
    (db : Database) : result Messages * Database :=
  internal_error "获取群组消息失败"
    (message_service_get_messages_by_room roomid page size start_time
       end_time msgtype from_user keyword db).

(** [GET /messages/{msgid}]. *)
Definition get_message (msgid : string) (db : Database)
    : result Message * Database :=
  reraise_HTTPException "获取消息详情失败"
    (or_404 "消息不存在" (message_service_get_message_by_id msgid db)).

(** [GET /sync/tasks/{task_id}]. *)
Definition get_sync_task (task_id : string) (db : Database)
    : result Task * Database :=
  reraise_HTTPException "获取同步任务失败"
    (or_404 "同步任务不存在" (sync_service_get_task_by_id task_id db)).

(** What [status.HTTP_500_INTERNAL_SERVER_ERROR] evaluates to where
    [status] is a query parameter, [None] or a [str], and not the module
    [fastapi.status]. *)
Definition status_attribute_error (status : option string) : exn :=
  mk_exn AttributeError
    match status with
    | None =>
        "'NoneType' object has no attribute 'HTTP_500_INTERNAL_SERVER_ERROR'"
    | Some _ =>
        "'str' object has no attribute 'HTTP_500_INTERNAL_SERVER_ERROR'"
    end.

(** [GET /sync/tasks]. The parameter [status] of the route hides the
    module [fastapi.status] imported by [routes.py], so the handler
<<
    except Exception as e:
        logger.error(...)
        raise HTTPException(
            status_code=status.HTTP_500_INTERNAL_SERVER_ERROR,
            detail="获取同步任务列表失败")
>>
    looks the attribute up on the parameter and raises [AttributeError]
    before any [HTTPException] is built. *)
Definition get_sync_tasks (page size : Z) (status roomid : option string)
    (db : Database) : result Tasks * Database :=
  match sync_service_get_tasks page size status roomid db with
  | (Raise e, db') =>
      if is_Exception (exn_class e)
      then (Raise (status_attribute_error status), db')
      else (Raise e, db')
  | out => out
  end.

(** [DELETE /sync/tasks/{task_id}]: the answer is the dict
    [{"message": "同步任务已取消"}], given here by its one value. *)
Definition cancel_sync_task (task_id : string) (db : Database)
    : result string * Database :=
  reraise_HTTPException "取消同步任务失败"
    (match sync_service_cancel_task task_id db with
     | (Return true, db') => (Return "同步任务已取消", db')
     | (Return false, db') =>
         (Raise (mk_exn (HTTPException 404) "同步任务不存在或无法取消"), db')
     | (Raise e, db') => (Raise e, db')
     end).


(** [GET /stats/messages]. *)
Definition get_message_stats (roomid : option string) (days : Z)
    (db : Database) : result MessageStats * Database :=
  internal_error "获取消息统计失败"
    (message_service_get_message_stats roomid days db).

(** [GET /search/messages]. *)
Definition search_messages (q : string) (page size : Z)
    (roomid msgtype start_time end_time : option string) (db : Database)
    : result Found * Database :=
  internal_error "搜索消息失败"
    (message_service_search_messages q page size roomid msgtype start_time
       end_time db).

(** [GET /groups] as a request reaches it: [page] is declared
    [Query(1, ge=1)] and [size] [Query(20, ge=1, le=100)]. *)
Definition get_groups_request (page size : option Z)
    (keyword : option string) (is_active : option bool) (db : Database)
    : result Groups * Database :=
  match Query 1 (Some 1) None page, Query 20 (Some 1) (Some 100) size with
  | Return p, Return s => get_groups p s keyword is_active db
  | Raise e, _ => (Raise e, db)
  | _, Raise e => (Raise e, db)
  end.

(** [GET /groups/{roomid}/messages] as a request reaches it: [page] is
    declared [Query(1, ge=1)] and [size] [Query(50, ge=1, le=200)]. *)
Definition get_group_messages_request (roomid : string)
    (page size : option Z)
    (start_time end_time msgtype from_user keyword : option string)
    (db : Database) : result Messages * Database :=
  match Query 1 (Some 1) None page, Query 50 (Some 1) (Some 200) size with
  | Return p, Return s =>
      get_group_messages roomid p s start_time end_time msgtype from_user
        keyword db
  | Raise e, _ => (Raise e, db)
  | _, Raise e => (Raise e, db)
  end.

(** [GET /sync/tasks] as a request reaches it: [page] is declared
    [Query(1, ge=1)] and [size] [Query(20, ge=1, le=100)]. *)
Definition get_sync_tasks_request (page size : option Z)
    (status roomid : option string) (db : Database)
    : result Tasks * Database :=
  match Query 1 (Some 1) None page, Query 20 (Some 1) (Some 100) size with
  | Return p, Return s => get_sync_tasks p s status roomid db
  | Raise e, _ => (Raise e, db)
  | _, Raise e => (Raise e, db)
  end.

(** [GET /stats/messages] as a request reaches it: [days] is declared
    [Query(7, ge=1, le=365)]. *)
Definition get_message_stats_request (roomid : option string)
    (days : option Z) (db : Database) : result MessageStats * Database :=
  match Query 7 (Some 1) (Some 365) days with
  | Return d => get_message_stats roomid d db
  | Raise e => (Raise e, db)
  end.

(** [GET /search/messages] as a request reaches it: [q] is declared
    [Query(...)] and so required, [page] [Query(1, ge=1)] and [size]
    [Query(20, ge=1, le=100)]. *)
Definition search_messages_request (q : option string)
    (page size : option Z) (roomid msgtype start_time end_time : option string)
    (db : Database) : result Found * Database :=
  match q with
  | None => (Raise (mk_exn ValidationError "field required"), db)
  | Some keyword =>
      match Query 1 (Some 1) None page,
            Query 20 (Some 1) (Some 100) size with
      | Return p, Return s =>
          search_messages keyword p s roomid msgtype start_time end_time db
      | Raise e, _ => (Raise e, db)
      | _, Raise e => (Raise e, db)
      end
  end.

End Routes.
End api_router.

(* ===================================================================== *)
(** ** [app.py]: the Prometheus middleware                                *)
(* ===================================================================== *)

Module app.

(** What the middleware reads of a request and of a response. *)
Record Request : Set := mk_request {
  method : string;
  url_path : string
}.

Record Response : Set := mk_http_response {
  status_code : Z;
  body : string
}.

(** [REQUEST_COUNT], a counter labelled by method, endpoint and status,
    and [REQUEST_DURATION], a histogram labelled by method and endpoint,
    kept as the observations made under each label. *)
Record Metrics : Type := mk_metrics {
  REQUEST_COUNT : gmap (string * string * Z) Z;
  REQUEST_DURATION : gmap (string * string) (list float)
}.

Definition no_metrics : Metrics := mk_metrics ∅ ∅.

(** [REQUEST_COUNT.labels(...)] read: a label never used counts 0. *)
Definition count (m : Metrics) (labels : string * string * Z) : Z :=
  default 0 (REQUEST_COUNT m !! labels).

(** [REQUEST_DURATION.labels(...)] read. *)
Definition durations (m : Metrics) (labels : string * string) : list float :=
  default [] (REQUEST_DURATION m !! labels).

(** [REQUEST_COUNT.labels(...).inc()]. *)
Definition inc (labels : string * string * Z) (m : Metrics) : Metrics :=
  mk_metrics (<[labels := count m labels + 1]> (REQUEST_COUNT m))
             (REQUEST_DURATION m).

(** [REQUEST_DURATION.labels(...).observe(x)]. *)
Definition observe (labels : string * string) (x : float) (m : Metrics)
    : Metrics :=
  mk_metrics (REQUEST_COUNT m)
             (<[labels := (durations m labels ++ [x])%list]>
                (REQUEST_DURATION m)).

(** [PrometheusMiddleware.dispatch]; [start_time] and [end_time] are the
    two readings of [time.time()], [call_next] the rest of the stack. *)
Definition dispatch (start_time end_time : float) (request : Request)
    (call_next : Request -> result Response) (m : Metrics)
    : result Response * Metrics :=
  match call_next request with
  | Raise e => (Raise e, m)
  | Return response =>
      let method := method request in
      let endpoint := url_path request in
      let status := status_code response in
      let m1 := inc (method, endpoint, status) m in
      let m2 := observe (method, endpoint)
                  (PrimFloat.sub end_time start_time) m1 in
      (Return response, m2)
  end.

(** One request as the middleware meets it: the request, what the rest
    of the stack does with it, and the two clock readings. *)
Record Served : Type := mk_served {
  served_request : Request;
  served_call_next : Request -> result Response;
  served_start : float;
  served_end : float
}.

(** The middleware over the requests of a run, one after the other. *)
Definition dispatch_all (l : list Served) (m : Metrics) : Metrics :=
  fold_left (fun m r =>
               snd (dispatch (served_start r) (served_end r)
                      (served_request r) (served_call_next r) m)) l m.

(** The labels a served request is counted under, if it was answered. *)
Definition answered_as (r : Served) : option (string * string * Z) :=
  match served_call_next r (served_request r) with
  | Return response =>
      Some (method (served_request r), url_path (served_request r),
            status_code response)
  | Raise _ => None
  end.

End app.

(* ===================================================================== *)
(** ** [config.py]: the validators of [Settings]                          *)
(* ===================================================================== *)

Module config.
Import Stdlib.Strings.Ascii.

(** [s.split(",")] for a separator of one character: the pieces between
    the separators, empty ones included. *)
Fixpoint split (sep : Ascii.ascii) (s : string) : list string :=
  match s with
  | EmptyString => [EmptyString]
  | String c s' =>
      if Ascii.eqb c sep then EmptyString :: split sep s'
      else match split sep s' with
           | head :: tail => String c head :: tail
           | [] => [String c EmptyString]
           end
  end.

(** [s.count(sep)]. *)
Fixpoint count (sep : Ascii.ascii) (s : string) : nat :=
  match s with
  | EmptyString => 0%nat
  | String c s' => ((if Ascii.eqb c sep then 1 else 0) + count sep s')%nat
  end.

(** [sep.join(l)]. *)
Fixpoint join (sep : Ascii.ascii) (l : list string) : string :=
  match l with
  | [] => EmptyString
  | [x] => x
  | x :: l' => x +:+ String sep (join sep l')
  end.

(** What a [pre=True] validator is handed: the text of the environment
    variable, or the list of the default. *)
Inductive raw : Set :=
  | RawStr (s : string)
  | RawList (l : list string).

Definition valid_levels : list string :=
  ["DEBUG"; "INFO"; "WARNING"; "ERROR"; "CRITICAL"].

Section Validators.

(** [str.strip], [str.lower] and [str.upper]. *)
Variables strip lower upper : string -> string.

(** [Settings.parse_allowed_origins]. *)
Definition parse_allowed_origins (v : raw) : list string :=
  match v with
  | RawStr s => map (fun origin => strip origin) (split ","%char s)
  | RawList l => l
  end.

(** [Settings.parse_allowed_file_types]. *)
Definition parse_allowed_file_types (v : raw) : list string :=
  match v with
  | RawStr s => map (fun file_type => lower (strip file_type)) (split ","%char s)
  | RawList l => l
  end.

(** [Settings.parse_celery_accept_content]. *)
Definition parse_celery_accept_content (v : raw) : list string :=
  match v with
  | RawStr s => map (fun content => strip content) (split ","%char s)
  | RawList l => l
  end.

(** [Settings.validate_log_level]. *)
Definition validate_log_level (v : string) : result string :=
  if negb (bool_decide (upper v ∈ valid_levels))
  then Raise (mk_exn ValueError
    "Log level must be one of: ['DEBUG', 'INFO', 'WARNING', 'ERROR', 'CRITICAL']")
  else Return (upper v).

End Validators.

(** [str.upper] and [str.lower] on ASCII text. *)
Definition ascii_upper (c : Ascii.ascii) : Ascii.ascii :=
  let n := Ascii.nat_of_ascii c in
  if ((97 <=? n) && (n <=? 122))%nat then Ascii.ascii_of_nat (n - 32) else c.

Definition ascii_lower (c : Ascii.ascii) : Ascii.ascii :=
  let n := Ascii.nat_of_ascii c in
  if ((65 <=? n) && (n <=? 90))%nat then Ascii.ascii_of_nat (n + 32) else c.

Fixpoint str_upper (s : string) : string :=
  match s with
  | EmptyString => EmptyString
  | String c s' => String (ascii_upper c) (str_upper s')
  end.

Fixpoint str_lower (s : string) : string :=
  match s with
  | EmptyString => EmptyString
  | String c s' => String (ascii_lower c) (str_lower s')
  end.

End config.

(* ===================================================================== *)
(** ** The other enumerations of [models.py] and [schemas.py]            *)
(* ===================================================================== *)

(** [models.DownloadStatus]. *)
Module DownloadStatus.
Inductive t : Set := PENDING | DOWNLOADING | COMPLETED | FAILED.
Definition value (s : t) : string :=
  match s with
  | PENDING => "pending"
  | DOWNLOADING => "downloading"
  | COMPLETED => "completed"
  | FAILED => "failed"
  end.
Definition members : list t := [PENDING; DOWNLOADING; COMPLETED; FAILED].
End DownloadStatus.

(** The lookup of an enumeration member by value, [Enum(value)], as
    pydantic runs it on a field of the type. *)
Definition enum_validate {E : Set} (value : E -> string) (members : list E)
    (v : string) : result E :=
  match List.find (fun e => String.eqb (value e) v) members with
  | Some e => Return e
  | None =>
      Raise (mk_exn ValidationError
               "value is not a valid enumeration member")
  end.

(** [schemas.MemberTypeEnum]. *)
Module MemberTypeEnum.
Inductive t : Set := OWNER | ADMIN | MEMBER.
Definition value (m : t) : string :=
  match m with
  | OWNER => "owner"
  | ADMIN => "admin"
  | MEMBER => "member"
  end.
Definition members : list t := [OWNER; ADMIN; MEMBER].
Definition validate : string -> result t := enum_validate value members.
End MemberTypeEnum.

(** [schemas.TaskStatusEnum]. *)
Module TaskStatusEnum.
Inductive t : Set := PENDING | RUNNING | COMPLETED | FAILED | CANCELLED.
Definition value (s : t) : string :=
  match s with
  | PENDING => "pending"
  | RUNNING => "running"
  | COMPLETED => "completed"
  | FAILED => "failed"
  | CANCELLED => "cancelled"
  end.
Definition members : list t :=
  [PENDING; RUNNING; COMPLETED; FAILED; CANCELLED].
Definition validate : string -> result t := enum_validate value members.
End TaskStatusEnum.

(** [schemas.DownloadStatusEnum]. *)
Module DownloadStatusEnum.
Inductive t : Set := PENDING | DOWNLOADING | COMPLETED | FAILED.
Definition value (s : t) : string :=
  match s with
  | PENDING => "pending"
  | DOWNLOADING => "downloading"
  | COMPLETED => "completed"
  | FAILED => "failed"
  end.
Definition members : list t := [PENDING; DOWNLOADING; COMPLETED; FAILED].
Definition validate : string -> result t := enum_validate value members.
End DownloadStatusEnum.

(* ===================================================================== *)
(** ** [models.py]: [SystemConfig]                                        *)
(* ===================================================================== *)

Module SystemConfig.

Record t : Set := mk {
  key : string;
  value : option string;
  description : option string;
  config_type : option string;
  is_encrypted : option bool;
  created_at : option timestamptz;
  updated_at : option timestamptz
}.

(** What [get_typed_value] returns: an [int], a [float], a [bool], a
    decoded JSON document, or the stored [value] itself. *)
Inductive typed_value (J : Type) : Type :=
| TInt (n : Z)
| TFloat (x : float)
| TBool (b : bool)
| TJson (j : J)
| TValue (v : option string).
Arguments TInt {J}.
Arguments TFloat {J}.
Arguments TBool {J}.
Arguments TJson {J}.
Arguments TValue {J}.

(** The truth value of a [Text] column: NULL and the empty text are
    falsy. *)
Definition truthy (v : option string) : bool :=
  match v with
  | Some (String _ _) => true
  | _ => false
  end.

Section TypedValue.

(** [int(s)], [float(s)], [json.loads(s)] and [str.lower], and the empty
    dict [{}]. *)
Context {J : Type}.
Variable int : string -> result Z.
Variable float_ : string -> result float.
Variable json_loads : string -> result J.
Variable empty_dict : J.
Variable lower : string -> string.

(** [SystemConfig.get_typed_value]. *)
Definition get_typed_value (c : t) : result (typed_value J) :=
  if bool_decide (config_type c = Some "integer") then
    match value c with
    | Some (String _ _ as v) => bind (int v) (fun n => Return (TInt n))
    | _ => Return (TInt 0)
    end
  else if bool_decide (config_type c = Some "float") then
    match value c with
    | Some (String _ _ as v) => bind (float_ v) (fun x => Return (TFloat x))
    | _ => Return (TFloat (float_of_Z 0))
    end
  else if bool_decide (config_type c = Some "boolean") then
    match value c with
    | Some (String _ _ as v) =>
        Return (TBool (bool_decide (lower v ∈ ["true"; "1"; "yes"])))
    | _ => Return (TBool false)
    end
  else if bool_decide (config_type c = Some "json") then
    match value c with
    | Some (String _ _ as v) => bind (json_loads v) (fun j => Return (TJson j))
    | _ => Return (TJson empty_dict)
    end
  else Return (TValue (value c)).

End TypedValue.
End SystemConfig.

(* ===================================================================== *)
(** * Vocabulary of the properties, and sample data                       *)
(* ===================================================================== *)

Import services.

(** ** Schema *)

(** A state of the tables that satisfies the declared constraints. *)
Definition consistent (db : Database) : Prop := constraints_ok db = true.

(** The constraints, read as propositions. *)
Record Constraints (db : Database) : Prop := {
  groups_pk : NoDup (group_keys db);
  messages_pk : NoDup (map ChatMessage.id (chat_messages db));
  messages_seq : NoDup (map ChatMessage.seq (chat_messages db));
  messages_msgid : NoDup (message_keys db);
  messages_roomid :
    forall r, In r (map ChatMessage.roomid (chat_messages db)) ->
              In r (group_keys db);
  messages_reply_to :
    forall r, In r (omap ChatMessage.reply_to_msgid (chat_messages db)) ->
              In r (message_keys db);
  members_pk : NoDup (map ChatMember.id (chat_members db));
  members_idx :
    NoDup (map ChatMember.idx_members_unique (chat_members db));
  members_roomid :
    forall r, In r (map ChatMember.roomid (chat_members db)) ->
              In r (group_keys db);
  tasks_pk : NoDup (map SyncTask.id (sync_tasks db));
  tasks_task_id : NoDup (map SyncTask.task_id (sync_tasks db));
  tasks_roomid :
    forall r, In r (omap SyncTask.roomid (sync_tasks db)) ->
              In r (group_keys db)
}.

(** The tenant of a stored message: the [owner_corpid] of its group. *)
Definition tenant_of (db : Database) (m : ChatMessage.t) : option string :=
  ChatGroup.owner_corpid <$>
    find (fun g => String.eqb (ChatGroup.roomid g) (ChatMessage.roomid m))
      (chat_groups db).

(** Uniqueness of [seq] within each tenant only: the weaker requirement
    that the cursor of one tenant never meets a duplicate. *)
Definition seq_unique_per_tenant (db : Database) : Prop :=
  forall i j m1 m2,
    chat_messages db !! i = Some m1 -> chat_messages db !! j = Some m2 ->
    i <> j -> tenant_of db m1 = tenant_of db m2 ->
    ChatMessage.seq m1 <> ChatMessage.seq m2.

(** The identity of a member row: its primary key and its unique index. *)
Definition member_key (m : ChatMember.t)
    : Z * (string * string * timestamptz) :=
  (ChatMember.id m, ChatMember.idx_members_unique m).

(** ** Engine *)

(** [db'] keeps every archive row of [db]: the messages as they were, the
    members and the groups under their keys, each table in its order with
    new rows only at the end. *)
Record extends (db db' : Database) : Prop := {
  messages_kept :
    exists new, chat_messages db' = (chat_messages db ++ new)%list;
  members_kept :
    exists new,
      map member_key (chat_members db')
      = (map member_key (chat_members db) ++ new)%list;
  groups_kept : exists new, group_keys db' = (group_keys db ++ new)%list
}.

(** The statements the engine writes to the archive tables: insertions,
    and updates that leave the keys alone. *)
Definition archive_write (s : statement) : Prop :=
  match s with
  | INSERT_chat_groups _ | INSERT_chat_messages _
  | INSERT_chat_members _ => True
  | UPDATE_chat_groups _ f =>
      forall g, ChatGroup.roomid (f g) = ChatGroup.roomid g
  | UPDATE_chat_members _ f =>
      forall m, member_key (f m) = member_key m
                /\ ChatMember.roomid (f m) = ChatMember.roomid m
  | _ => False
  end.

(** The statements the controller writes: to [sync_tasks] only. *)
Definition task_write (s : statement) : Prop :=
  match s with
  | INSERT_sync_tasks _ | UPDATE_sync_tasks _ _ => True
  | _ => False
  end.

(** What a step of the Upsert Engine does to the tables: it keeps the
    archive rows, leaves [sync_tasks] alone and keeps the constraints. *)
Definition archive_step (db db' : Database) : Prop :=
  extends db db'
  /\ sync_tasks db' = sync_tasks db
  /\ (consistent db -> consistent db').

(** What a write of the controller does to the tables: the archive tables
    stay as they are and the constraints are kept. *)
Definition task_step (db db' : Database) : Prop :=
  chat_messages db' = chat_messages db
  /\ chat_members db' = chat_members db
  /\ chat_groups db' = chat_groups db
  /\ (consistent db -> consistent db').

(** A result with one more skipped duplicate. *)
Definition skipped (r : PersistResult) : PersistResult :=
  mk_result (committed r) (skipped_duplicates r + 1) (errors r).

(** Every scope has at most one active run. *)
Definition single_active (db : Database) : Prop :=
  forall scope, (length (active_runs scope db) <= 1)%nat.

(** ** Decorator and property *)

(** The wrapper's last two calls are the [close] of its [finally] and the
    exit of the context manager. *)
Definition closes_last (calls : list database.call) : Prop :=
  exists before, calls = (before ++ [database.Close; database.AExit])%list.

(** The session's own [rollback], [close] and context exit return
    normally, whatever the state of the session. *)
Definition methods_return {Session : Type}
    (rollback close aexit : Session -> result unit * Session) : Prop :=
  (forall s, fst (rollback s) = Return tt)
  /\ (forall s, fst (close s) = Return tt)
  /\ (forall s, fst (aexit s) = Return tt).

(** The value [progress_percentage] computes on its arithmetic path. *)
Definition percentage (p n : Z) : number :=
  Float (round2 (PrimFloat.mul (PrimFloat.div (float_of_Z p) (float_of_Z n))
                   (float_of_Z 100))).

(** ** Sample data *)

(** Two groups of two tenants. *)
Definition room_a : ChatGroup.t :=
  ChatGroup.mk "room-a" "A" None None "corp-1" None (Some 0) None (Some true)
    None None None.

Definition room_b : ChatGroup.t :=
  ChatGroup.mk "room-b" "B" None None "corp-2" None (Some 0) None (Some true)
    None None None.

Definition message_1 : ChatMessage.t :=
  ChatMessage.mk 0 100 "msg-1" "room-a" MessageType.TEXT 1000 (Some "alice")
    None (Some "hello") None None (Some false) None (Some 0) None None None.

(** A message of another group, of another tenant, with the same [seq]. *)
Definition message_2 : ChatMessage.t :=
  ChatMessage.mk 0 100 "msg-2" "room-b" MessageType.TEXT 2000 (Some "bob")
    None (Some "hi") None None (Some false) None (Some 0) None None None.

(** Tables in which the two tenants share a [seq]. *)
Definition shared_seq : Database :=
  mk_db [room_a; room_b]
    [ChatMessage.set_id 1 message_1; ChatMessage.set_id 2 message_2] [] []
    3 1 1.

(** Both groups, and the first message stored. *)
Definition archive_1 : Database :=
  mk_db [room_a; room_b] [ChatMessage.set_id 1 message_1] [] [] 2 1 1.

(** Alice joining [room-a] at a given time. *)
Definition alice_joined (at_ : timestamptz) : ChatMember.t :=
  ChatMember.mk 0 "room-a" "alice" (Some "Alice") at_ None
    (Some MemberType.MEMBER) None (Some true) None (Some 0) None None None.

(** [room-a] with Alice's first membership. *)
Definition archive_2 : Database :=
  mk_db [room_a] [] [ChatMember.set_id 1 (alice_joined 1000)] [] 1 2 1.

(** The first message as the codec delivers it, and the archive after its
    first delivery. *)
Definition decoded_1 : DecodedMessage :=
  mk_decoded message_1 "A" "corp-1" None.

Definition archive_3 : Database :=
  Eval vm_compute in snd (persist_batch [decoded_1] 10 true empty_db).

(** A request to sync all groups, the task it starts on an empty archive,
    and the archive after it. *)
Definition sync_all : SyncTaskRequest.t :=
  SyncTaskRequest.mk None None None "sync_messages".

Definition task_1 : SyncTask.t :=
  SyncTask.set_id 1 (pending_task "task-1" None).

Definition archive_4 : Database :=
  Eval vm_compute in
    snd (routes.sync_messages (create_sync_task "task-1") sync_all empty_db).

(** An operation on a unit-of-work session that queues the insertion of a
    group and returns its room id. *)
Definition add_group (g : ChatGroup.t) (s : database.AsyncSession)
    : result string * database.AsyncSession :=
  (Return (ChatGroup.roomid g),
   database.mk_session (database.bound s)
     (database.pending s ++ [INSERT_chat_groups g])).

(** The same operation interrupted after it queued its work. *)
Definition add_group_interrupted (g : ChatGroup.t)
    (s : database.AsyncSession) : result string * database.AsyncSession :=
  (Raise (mk_exn KeyboardInterrupt ""),
   database.mk_session (database.bound s)
     (database.pending s ++ [INSERT_chat_groups g])).

(** A running task with the given [progress] and [total_count]. *)
Definition running_task (progress total : option Z) : SyncTask.t :=
  SyncTask.mk 1 "task-1" None "sync_messages" "running" None None progress
    total (Some 0) (Some 0) None None None None.

(** ** Routes *)


(** The errors of a route that looks one object up: it answers [e404]
    when the service found nothing, and an exception of the [Exception]
    hierarchy that leaves it is [e404] for an object not found, [e500]
    for a failure of the service, or the HTTP error the service raised
    itself. *)
Definition lookup_errors {A B} (absent : A -> Prop) (e404 e500 : exn)
    (service : result A * Database) (route : result B * Database) : Prop :=
  (forall a, fst service = Return a -> absent a -> fst route = Raise e404)
  /\ (forall e, fst route = Raise e -> is_Exception (exn_class e) = true ->
        (e = e404 /\ exists a, fst service = Return a /\ absent a)
        \/ (e = e500
            /\ exists e', fst service = Raise e'
                 /\ is_Exception (exn_class e') = true
                 /\ api_router.is_HTTPException (exn_class e') = false)
        \/ (fst service = Raise e
            /\ api_router.is_HTTPException (exn_class e) = true)).

(** The refusal of a query parameter out of its bounds. *)
Definition out_of_range : exn :=
  mk_exn ValidationError "value is out of range".

(** ** Metrics *)

(** The time the middleware observes for a request. *)
Definition elapsed (r : app.Served) : float :=
  PrimFloat.sub (app.served_end r) (app.served_start r).

(** The answered requests of a run counted under the labels [k], and
    those observed under the method and endpoint [k]. *)
Definition counted_under (k : string * string * Z) (l : list app.Served)
    : list app.Served :=
  List.filter (fun r => bool_decide (app.answered_as r = Some k)) l.

Definition observed_under (k : string * string) (l : list app.Served)
    : list app.Served :=
  List.filter (fun r => bool_decide (fst <$> app.answered_as r = Some k)) l.

(** ** More sample data *)

(** A message of [room-b] that replies to the first message, of
    [room-a], and tables that hold both. *)
Definition message_3 : ChatMessage.t :=
  ChatMessage.mk 0 101 "msg-3" "room-b" MessageType.TEXT 3000 (Some "bob")
    None (Some "re: hello") None None (Some false) None (Some 0)
    (Some "msg-1") None None.

Definition archive_5 : Database :=
  mk_db [room_a; room_b]
    [ChatMessage.set_id 1 message_1; ChatMessage.set_id 2 message_3] [] []
    3 1 1.

(* ===================================================================== *)
(** * Properties                                                          *)
(* ===================================================================== *)

(** ** Results and exceptions *)

Lemma raises_Raise {A} (c : exc_class) (d : string) :
  raises (@Raise A (mk_exn c d)) c.
Proof. now exists d. Qed.

(** ** The message type enumeration *)

Lemma MessageType_find_value (s : string) (m : MessageType.t) :
  find (fun x => String.eqb (MessageType.value x) s) MessageType.members
  = Some m <-> MessageType.value m = s.
Proof.
  split.
  - intros H. apply find_some in H as [_ H]. now apply String.eqb_eq.
  - intros <-. now destruct m.
Qed.

Lemma MessageType_find_none (s : string) :
  find (fun x => String.eqb (MessageType.value x) s) MessageType.members
  = None <-> ~ In s (map MessageType.value MessageType.members).
Proof.
  split.
  - intros H Hin. apply in_map_iff in Hin as (m & Hm & _).
    apply MessageType_find_value in Hm. congruence.
  - intros Hn.
    destruct (find _ MessageType.members) as [m|] eqn:E; [|reflexivity].
    apply MessageType_find_value in E. exfalso. apply Hn.
    apply in_map_iff. exists m. split; [exact E|]. now destruct m; cbv; tauto.
Qed.

Lemma MessageTypeEnum_validate_value (s : string) (m : MessageTypeEnum.t) :
  MessageTypeEnum.validate s = Return m <-> MessageTypeEnum.value m = s.
Proof.
  unfold MessageTypeEnum.validate. split.
  - destruct (find _ _) as [x|] eqn:E; [|discriminate].
    intros [= ->]. apply find_some in E as [_ E]. now apply String.eqb_eq.
  - intros <-. now destruct m.
Qed.

(** C6. The message type tag is a closed set of twelve variants: text,
    image, voice, video, file, location, link, mini-program (written
    [miniprogram] on the wire), card, system, revoke and emotion. The
    enumeration has exactly these twelve members, pairwise distinct, with
    pairwise distinct tags; the [msgtype] of a stored Message is one of them;
    and a tag is accepted, by [MessageType(...)] and by the validation of
    a schema field of type [MessageTypeEnum], exactly when it is one of
    the twelve, any other tag being refused with an error. *)
Theorem message_type_closed :
  length MessageType.members = 12%nat
  /\ NoDup MessageType.members
  /\ map MessageType.value MessageType.members
     = ["text"; "image"; "voice"; "video"; "file"; "location"; "link";
        "miniprogram"; "card"; "system"; "revoke"; "emotion"]
  /\ NoDup (map MessageType.value MessageType.members)
  /\ (forall m : ChatMessage.t,
        In (ChatMessage.msgtype m) MessageType.members)
  /\ (forall s m, MessageType.of_value s = Return m
                  <-> MessageType.value m = s)
  /\ (forall s, ~ In s (map MessageType.value MessageType.members) ->
        raises (MessageType.of_value s) ValueError
        /\ raises (MessageTypeEnum.validate s) ValidationError)
  /\ (forall s, In s (map MessageType.value MessageType.members) <->
        returns (MessageTypeEnum.validate s)).
Proof.
  split; [reflexivity|].
  split; [compute_done|].
  split; [reflexivity|].
  split; [compute_done|].
  split; [intros m; destruct (ChatMessage.msgtype m); cbv; tauto|].
  split.
  { intros s m. rewrite <- MessageType_find_value.
    unfold MessageType.of_value. destruct (find _ _); split; congruence. }
  split.
  { intros s Hs. split.
    - unfold MessageType.of_value.
      apply MessageType_find_none in Hs. rewrite Hs. apply raises_Raise.
    - unfold MessageTypeEnum.validate.
      destruct (find _ MessageTypeEnum.members) as [m|] eqn:E;
        [|apply raises_Raise].
      exfalso. apply Hs. apply find_some in E as [_ E].
      apply String.eqb_eq in E. subst s. destruct m; cbv; tauto. }
  intros s. split.
  - intros Hin. simpl in Hin.
    repeat (destruct Hin as [<-|Hin]; [eexists; reflexivity|]).
    destruct Hin.
  - intros [m Hm]. apply MessageTypeEnum_validate_value in Hm. subst s.
    destruct m; cbv; tauto.
Qed.

(** ** [SyncTask.progress_percentage] *)

Lemma truediv_nonzero (a b : Z) :
  b <> 0 ->
  truediv a b = Return (PrimFloat.div (float_of_Z a) (float_of_Z b)).
Proof.
  intros Hb. unfold truediv. destruct (Z.eqb_spec b 0); [contradiction|].
  reflexivity.
Qed.

(** C9, as the code has it. [progress_percentage] never divides by zero:
    it is [0] when [total_count] is unset, zero or negative, whatever the
    other columns hold; and when [total_count] is positive and [progress]
    is set it is [progress / total_count * 100] rounded to two decimals. *)
Theorem progress_percentage_guarded (k : SyncTask.t) :
  ~ raises (SyncTask.progress_percentage k) ZeroDivisionError
  /\ (SyncTask.total_count k = None ->
        SyncTask.progress_percentage k = Return (Int 0))
  /\ (forall n, SyncTask.total_count k = Some n -> n <= 0 ->
        SyncTask.progress_percentage k = Return (Int 0))
  /\ (forall n p, SyncTask.total_count k = Some n -> 0 < n ->
        SyncTask.progress k = Some p ->
        SyncTask.progress_percentage k = Return (percentage p n)).
Proof.
  unfold SyncTask.progress_percentage, percentage.
  split; [|split; [|split]].
  - intros [d H].
    destruct (SyncTask.total_count k) as [n|]; [|discriminate].
    destruct (Z.eqb_spec n 0) as [Hz|Hn]; simpl in H; [discriminate|].
    destruct (0 <? n); [|discriminate].
    destruct (SyncTask.progress k) as [p|]; [|discriminate].
    rewrite truediv_nonzero in H by assumption. discriminate.
  - now intros ->.
  - intros n -> Hn.
    destruct (Z.ltb_spec 0 n); [lia|]. now rewrite andb_false_r.
  - intros n p -> Hn ->.
    destruct (Z.eqb_spec n 0); [lia|]. destruct (Z.ltb_spec 0 n); [|lia].
    simpl. now rewrite truediv_nonzero by assumption.
Qed.

(** A task at 1 of 3. *)
Lemma progress_percentage_guarded_witness :
  SyncTask.progress_percentage (running_task (Some 1) (Some 3))
  = Return (percentage 1 3)
  /\ percentage 1 3
     = Float (PrimFloat.div (float_of_Z 3333) (float_of_Z 100)).
Proof.
  split; [|vm_compute; reflexivity].
  destruct (progress_percentage_guarded (running_task (Some 1) (Some 3)))
    as (_ & _ & _ & H).
  apply (H 3 1); [reflexivity | lia | reflexivity].
Defined.

(** C9 as stated fails for a [total_count] that is neither zero nor
    unset: with [total_count = -4] and [progress = 1] the property is the
    int [0], not [1 / -4 * 100 = -25.0]. *)
Lemma progress_percentage_negative_total :
  SyncTask.total_count (running_task (Some 1) (Some (-4))) <> None
  /\ SyncTask.total_count (running_task (Some 1) (Some (-4))) <> Some 0
  /\ percentage 1 (-4) = Float (-25)%float
  /\ SyncTask.progress_percentage (running_task (Some 1) (Some (-4)))
     = Return (Int 0)
  /\ SyncTask.progress_percentage (running_task (Some 1) (Some (-4)))
     <> Return (percentage 1 (-4)).
Proof.
  repeat split; try discriminate; vm_compute; reflexivity.
Qed.

(** With [total_count] positive and [progress] unset the division itself
    fails. *)
Lemma progress_percentage_unset_progress :
  raises (SyncTask.progress_percentage (running_task None (Some 10)))
    TypeError.
Proof. eexists. reflexivity. Qed.

(** ** The validator of [SyncTaskRequest.end_time] *)

Lemma values_start_time (room : option string) (start : option datetime) :
  SyncTaskRequest.values_before_end_time room start !! "start_time"
  = Some (of_option PDatetime start).
Proof. unfold SyncTaskRequest.values_before_end_time. apply lookup_insert_eq. Qed.

(** The validator on a request whose two bounds are set. *)
Lemma end_time_validator_both (room : option string) (s e : datetime) :
  SyncTaskRequest.end_time_must_be_after_start_time (PDatetime e)
    (SyncTaskRequest.values_before_end_time room (Some s))
  = bind (datetime_le e s) (fun le =>
      if le then Raise (mk_exn ValueError "结束时间必须晚于开始时间")
      else Return (PDatetime e)).
Proof.
  unfold SyncTaskRequest.end_time_must_be_after_start_time, dict_get,
    dict_getitem.
  rewrite values_start_time. reflexivity.
Qed.

(** C10. A sync-task request with both bounds set is accepted by the
    validator of [end_time] only when [end_time] is strictly after
    [start_time]: when both are present and [end_time <= start_time] the
    validator raises [ValueError] and the request is refused with a
    validation error; when both are present and the validator returns,
    [end_time <= start_time] is false; and a request with either bound
    absent is not refused by this rule. *)
Theorem end_time_after_start_time (room : option string)
    (start end_ : option datetime) (type_ : string) :
  let check :=
    SyncTaskRequest.end_time_must_be_after_start_time
      (of_option PDatetime end_)
      (SyncTaskRequest.values_before_end_time room start) in
  (forall s e, start = Some s -> end_ = Some e ->
     datetime_le e s = Return true ->
     raises check ValueError
     /\ raises (SyncTaskRequest.validate room start end_ type_)
          ValidationError)
  /\ (forall s e, start = Some s -> end_ = Some e ->
        (returns check <-> datetime_le e s = Return false)
        /\ (returns (SyncTaskRequest.validate room start end_ type_)
            <-> datetime_le e s = Return false))
  /\ (start = None \/ end_ = None ->
        check = Return (of_option PDatetime end_)
        /\ SyncTaskRequest.validate room start end_ type_
           = Return (SyncTaskRequest.mk room start end_ type_)).
Proof.
  cbv zeta. split; [|split].
  - intros s e -> -> Hle. unfold SyncTaskRequest.validate. simpl of_option.
    rewrite end_time_validator_both, Hle. simpl.
    split; apply raises_Raise.
  - intros s e -> ->. unfold SyncTaskRequest.validate. simpl of_option.
    rewrite end_time_validator_both.
    destruct (datetime_le e s) as [[|]|err] eqn:Hle; simpl.
    + split; (split; [intros [a Ha]; discriminate | discriminate]).
    + split; (split; [reflexivity | intros _; eexists; reflexivity]).
    + split; (split; [intros [a Ha] | discriminate]).
      * discriminate.
      * unfold datetime_le in Hle.
        destruct (dt_utcoffset e), (dt_utcoffset s); try discriminate;
          injection Hle as <-; simpl in Ha; discriminate.
  - intros [-> | ->].
    + unfold SyncTaskRequest.validate,
        SyncTaskRequest.end_time_must_be_after_start_time, dict_get.
      rewrite values_start_time. simpl.
      destruct end_; simpl; split; reflexivity.
    + unfold SyncTaskRequest.validate. simpl. split; reflexivity.
Qed.

(** ** The session decorator *)

Section DecoratorFacts.
Context {Session R : Type}.
Variable commit rollback close aexit : Session -> result unit * Session.

Local Abbreviation run func s :=
  (database.with_db_session commit rollback close aexit func (Some s)).

(** Case analysis on what a method of the session does where the goal
    calls it. *)
Ltac on_method method :=
  match goal with
  | |- context [method ?s] => destruct (method s) as [[[]|?] ?]; cbn
  end.

(** The calls of the wrapper, whatever the methods of the session do. *)
Lemma with_db_session_calls (func : Session -> result R * Session)
    (s0 : Session) :
  exists s',
    snd (run func s0)
    = Some (s',
            (match func s0 with
             | (Return _, s1) =>
                 database.Commit ::
                 match commit s1 with
                 | (Raise e, s2) =>
                     if is_Exception (exn_class e)
                     then recovery_calls (rollback s2) else []
                 | _ => []
                 end
             | (Raise e, s1) =>
                 if is_Exception (exn_class e)
                 then recovery_calls (rollback s1) else []
             end ++ [database.Close; database.AExit])%list).
Proof.
  unfold database.with_db_session, database.wrapper, database.async_with,
    database.try_except_Exception_finally, database.seq,
    database.await_func, database.invoke, database.logger_error,
    database.ret, recovery_calls.
  cbn. destruct (func s0) as [[v|e] s1]; cbn.
  - on_method commit.
    + on_method close; on_method aexit; eexists; reflexivity.
    + destruct (is_Exception (exn_class e)); cbn; [on_method rollback|];
        on_method close; on_method aexit; eexists; reflexivity.
  - destruct (is_Exception (exn_class e)); cbn; [on_method rollback|];
      on_method close; on_method aexit; eexists; reflexivity.
Qed.

(** The wrapper returns a result only when the operation returned it and
    the commit went through. *)
Lemma with_db_session_returns (func : Session -> result R * Session)
    (s0 : Session) (v : R) :
  fst (run func s0) = Return v ->
  exists s1, func s0 = (Return v, s1) /\ fst (commit s1) = Return tt.
Proof.
  unfold database.with_db_session, database.wrapper, database.async_with,
    database.try_except_Exception_finally, database.seq,
    database.await_func, database.invoke, database.logger_error,
    database.ret.
  cbn. destruct (func s0) as [[v0|e] s1]; cbn.
  - destruct (commit s1) as [[[]|e] s2] eqn:Ec; cbn.
    + on_method close; on_method aexit; try discriminate.
      intros [= <-]. exists s1. now rewrite Ec.
    + destruct (is_Exception (exn_class e)); cbn; [on_method rollback|];
        on_method close; on_method aexit; discriminate.
  - destruct (is_Exception (exn_class e)); cbn; [on_method rollback|];
      on_method close; on_method aexit; discriminate.
Qed.

Section MethodsReturn.

(** The session's own [rollback], [close] and context exit are taken to
    return normally; [commit] may fail. *)
Hypothesis rollback_returns : forall s, fst (rollback s) = Return tt.
Hypothesis close_returns : forall s, fst (close s) = Return tt.
Hypothesis aexit_returns : forall s, fst (aexit s) = Return tt.

Ltac returns_normally H method :=
  simpl;
  match goal with
  | |- context [method ?s] =>
      generalize (H s); destruct (method s) as [? ?]; simpl; intros ->;
      simpl
  end.

(** The calls of the wrapper and its outcome, path by path. *)
Lemma with_db_session_paths (func : Session -> result R * Session)
    (s0 : Session) :
  exists s',
    match func s0 with
    | (Return v, s1) =>
        match commit s1 with
        | (Return _, _) =>
            run func s0
            = (Return v,
               Some (s', [database.Commit; database.Close; database.AExit]))
        | (Raise e, _) =>
            if is_Exception (exn_class e) then
              run func s0
              = (Raise e,
                 Some (s', [database.Commit; database.Rollback;
                            database.LoggerError; database.Close;
                            database.AExit]))
            else
              run func s0
              = (Raise e,
                 Some (s', [database.Commit; database.Close;
                            database.AExit]))
        end
    | (Raise e, _) =>
        if is_Exception (exn_class e) then
          run func s0
          = (Raise e,
             Some (s', [database.Rollback; database.LoggerError;
                        database.Close; database.AExit]))
        else
          run func s0
          = (Raise e, Some (s', [database.Close; database.AExit]))
    end.
Proof.
  unfold database.with_db_session, database.wrapper,
    database.async_with, database.try_except_Exception_finally,
    database.seq, database.await_func, database.invoke,
    database.logger_error, database.ret.
  simpl.
  destruct (func s0) as [[v|e] s1]; simpl.
  - destruct (commit s1) as [[u|e] s2]; simpl.
    + returns_normally close_returns close.
      returns_normally aexit_returns aexit.
      eexists. reflexivity.
    + destruct (is_Exception (exn_class e)); simpl.
      * returns_normally rollback_returns rollback.
        returns_normally close_returns close.
        returns_normally aexit_returns aexit.
        eexists. reflexivity.
      * returns_normally close_returns close.
        returns_normally aexit_returns aexit.
        eexists. reflexivity.
  - destruct (is_Exception (exn_class e)); simpl.
    + returns_normally rollback_returns rollback.
      returns_normally close_returns close.
      returns_normally aexit_returns aexit.
      eexists. reflexivity.
    + returns_normally close_returns close.
      returns_normally aexit_returns aexit.
      eexists. reflexivity.
Qed.

End MethodsReturn.

(** C2, as the code has it. On every exit path, whatever the methods of
    the session do, the wrapper closes the session last, before the
    context exit, and it returns a result only when the operation
    returned it and the commit went through. If the operation returns
    normally, [commit] is called exactly once; when the commit returns,
    nothing is rolled back; when it raises, no result is returned. If
    the operation raises, nothing is committed. With an exception in
    flight, of the operation or of the commit, [rollback] is called
    exactly when the exception derives from [Exception]: one that does
    not (cancellation, [KeyboardInterrupt]) leaves the wrapper with the
    session closed and no call to [rollback]. For a session whose own
    [rollback], [close] and context exit return normally, the outcome of
    the wrapper is the result of the operation when the commit returned,
    the exception of the commit when it raised, and the exception of the
    operation when the operation raised. *)
Theorem with_db_session_exit_paths (func : Session -> result R * Session)
    (s0 : Session) :
  exists s' calls,
    snd (run func s0) = Some (s', calls)
    /\ closes_last calls
    /\ (forall v, fst (run func s0) = Return v ->
          exists s1, func s0 = (Return v, s1)
                     /\ fst (commit s1) = Return tt)
    /\ match func s0 with
       | (Return v, s1) =>
           count_occ database.call_eq_dec calls database.Commit = 1%nat
           /\ match fst (commit s1) with
              | Return _ =>
                  ~ In database.Rollback calls
                  /\ (methods_return rollback close aexit ->
                      fst (run func s0) = Return v)
              | Raise e =>
                  (In database.Rollback calls
                   <-> is_Exception (exn_class e) = true)
                  /\ (methods_return rollback close aexit ->
                      fst (run func s0) = Raise e)
              end
       | (Raise e, _) =>
           ~ In database.Commit calls
           /\ (In database.Rollback calls
               <-> is_Exception (exn_class e) = true)
           /\ (methods_return rollback close aexit ->
               fst (run func s0) = Raise e)
       end.
Proof.
  destruct (with_db_session_calls func s0) as [s' Hcalls].
  exists s'. eexists. split; [exact Hcalls|].
  split; [eexists; reflexivity|].
  split; [intros v; apply with_db_session_returns|].
  assert (Hout : methods_return rollback close aexit ->
            match func s0 with
            | (Return v, s1) =>
                match commit s1 with
                | (Return _, _) => fst (run func s0) = Return v
                | (Raise e, _) => fst (run func s0) = Raise e
                end
            | (Raise e, _) => fst (run func s0) = Raise e
            end).
  { intros (Hr & Hc & Ha).
    destruct (with_db_session_paths Hr Hc Ha func s0) as [s'' H].
    destruct (func s0) as [[v|e] s1].
    - destruct (commit s1) as [[u|e] s2]; [now rewrite H|].
      destruct (is_Exception (exn_class e)); now rewrite H.
    - destruct (is_Exception (exn_class e)); now rewrite H. }
  unfold recovery_calls.
  destruct (func s0) as [[v|e] s1].
  - destruct (commit s1) as [[u|e] s2]; cbn [fst].
    + split; [reflexivity|]. split; [cbn; intuition discriminate|].
      exact Hout.
    + assert (count_occ database.call_eq_dec
                (if is_Exception (exn_class e)
                 then match fst (rollback s2) with
                      | Return _ => [database.Rollback; database.LoggerError]
                      | Raise _ => [database.Rollback]
                      end
                 else []) database.Commit = 0%nat) as H0.
      { destruct (is_Exception (exn_class e)); [|reflexivity].
        now destruct (fst (rollback s2)). }
      split; [|split].
      * cbn [app]. rewrite count_occ_cons_eq by reflexivity.
        rewrite count_occ_app, H0. reflexivity.
      * destruct (is_Exception (exn_class e));
          [destruct (fst (rollback s2))|]; cbn; intuition discriminate.
      * exact Hout.
  - split; [|split].
    + destruct (is_Exception (exn_class e));
        [destruct (fst (rollback s1))|]; cbn; intuition discriminate.
    + destruct (is_Exception (exn_class e));
        [destruct (fst (rollback s1))|]; cbn; intuition discriminate.
    + exact Hout.
Qed.

End DecoratorFacts.

(** Before [init_db] has run there is no session maker to call: the
    wrapper fails before it has a session. *)
Lemma with_db_session_uninitialised {Session R : Type}
    (commit rollback close aexit : Session -> result unit * Session)
    (func : Session -> result R * Session) :
  raises (fst (database.with_db_session commit rollback close aexit func
                 None))
    TypeError
  /\ snd (database.with_db_session commit rollback close aexit func None)
     = None.
Proof. split; [apply raises_Raise | reflexivity]. Qed.

(** [add_group] under the decorator: committed once, closed, the room id
    returned. *)
Lemma with_db_session_exit_paths_witness :
  exists s' calls,
    snd (database.with_db_session database.session_commit
           database.session_rollback database.session_close
           database.session_close (add_group room_a)
           (Some (database.mk_session empty_db [])))
    = Some (s', calls)
    /\ closes_last calls
    /\ count_occ database.call_eq_dec calls database.Commit = 1%nat
    /\ fst (database.with_db_session database.session_commit
              database.session_rollback database.session_close
              database.session_close (add_group room_a)
              (Some (database.mk_session empty_db [])))
       = Return "room-a"
    /\ ~ In database.Rollback calls.
Proof.
  destruct (with_db_session_exit_paths database.session_commit
              database.session_rollback database.session_close
              database.session_close (add_group room_a)
              (database.mk_session empty_db []))
    as (s' & calls & H1 & H2 & _ & H3 & H4 & H5).
  exists s', calls.
  split; [exact H1|]. split; [exact H2|]. split; [exact H3|].
  split; [|exact H4].
  apply H5. split; [|split]; intros s; reflexivity.
Defined.

(** C2 as stated fails when the commit does: an operation that returns
    normally, here the insertion of a group whose [roomid] is already
    stored, has its commit refused with [IntegrityError]. The wrapper
    rolls back and raises that exception: the result of the operation is
    not returned and nothing it queued is committed. *)
Lemma with_db_session_commit_refused :
  add_group room_a (database.mk_session archive_1 [])
  = (Return "room-a",
     database.mk_session archive_1 [INSERT_chat_groups room_a])
  /\ database.with_db_session database.session_commit
       database.session_rollback database.session_close
       database.session_close (add_group room_a)
       (Some (database.mk_session archive_1 []))
     = (Raise (mk_exn IntegrityError "constraint violated"),
        Some (database.mk_session archive_1 [],
              [database.Commit; database.Rollback; database.LoggerError;
               database.Close; database.AExit])).
Proof. split; reflexivity. Qed.

(** An operation interrupted by an exception that does not derive from
    [Exception]: the wrapper makes no call to [rollback]; the session is
    closed, which discards what the operation queued. *)
Lemma with_db_session_interrupt_no_rollback :
  database.with_db_session database.session_commit
    database.session_rollback database.session_close
    database.session_close (add_group_interrupted room_a)
    (Some (database.mk_session empty_db []))
  = (Raise (mk_exn KeyboardInterrupt ""),
     Some (database.mk_session empty_db [],
           [database.Close; database.AExit]))
  /\ ~ In database.Rollback [database.Close; database.AExit].
Proof.
  split; [reflexivity|]. simpl. intuition discriminate.
Qed.

(** ** The schema: what the declared constraints give *)

Lemma unique_NoDup {K} `{EqDecision K} (keys : list K) :
  unique keys = true <-> NoDup keys.
Proof. unfold unique. apply bool_decide_eq_true. Qed.

Lemma references_In {K} `{EqDecision K} (fks pks : list K) :
  references fks pks = true <-> (forall k, In k fks -> In k pks).
Proof.
  unfold references. rewrite forallb_forall. split; intros H k Hk.
  - apply list_elem_of_In. eapply bool_decide_eq_true_1, H, Hk.
  - apply bool_decide_eq_true_2, list_elem_of_In, H, Hk.
Qed.

Lemma consistent_Constraints (db : Database) :
  consistent db <-> Constraints db.
Proof.
  unfold consistent, constraints_ok.
  rewrite !andb_true_iff, !unique_NoDup, !references_In.
  split.
  - intros H. decompose [and] H. now constructor.
  - intros []. tauto.
Qed.

Lemma empty_db_consistent : consistent empty_db.
Proof. reflexivity. Qed.

Lemma execute_Return (s : statement) (db db' : Database) :
  execute s db = Return db' <-> consistent (effect s db) /\ db' = effect s db.
Proof.
  unfold execute, consistent.
  destruct (constraints_ok (effect s db)); split.
  - now intros [= <-].
  - now intros [_ ->].
  - discriminate.
  - now intros [? _].
Qed.

Lemma execute_refused (s : statement) (db : Database) :
  ~ consistent (effect s db) -> raises (execute s db) IntegrityError.
Proof.
  unfold execute, consistent.
  destruct (constraints_ok (effect s db)); [tauto|].
  intros _. apply raises_Raise.
Qed.

Lemma execute_all_consistent (ss : list statement) (db db' : Database) :
  consistent db -> execute_all ss db = Return db' -> consistent db'.
Proof.
  revert db. induction ss as [|s ss IH]; simpl; intros db Hc H.
  - now injection H as <-.
  - destruct (execute s db) as [db1|e] eqn:E; simpl in H; [|discriminate].
    apply execute_Return in E as [E ->]. now apply (IH (effect s db)).
Qed.

(** *** Unique keys *)

Lemma lookup_map {A B} (f : A -> B) (l : list A) (i : nat) :
  map f l !! i = f <$> l !! i.
Proof. exact (list_lookup_fmap f l i). Qed.

(** Rows at different positions of a table differ on a unique key. *)
Lemma unique_key_positions {A K} (key : A -> K) (rows : list A)
    (i j : nat) (x y : A) :
  NoDup (map key rows) ->
  rows !! i = Some x -> rows !! j = Some y -> i <> j -> key x <> key y.
Proof.
  intros Hnd Hi Hj Hij Heq. apply Hij.
  apply (NoDup_lookup (map key rows) i j (key x)); [exact Hnd| |].
  - now rewrite lookup_map, Hi.
  - now rewrite lookup_map, Hj, Heq.
Qed.

(** A unique key identifies its row. *)
Lemma unique_key_row {A K} (key : A -> K) (rows : list A) (x y : A) :
  NoDup (map key rows) -> In x rows -> In y rows -> key x = key y -> x = y.
Proof.
  induction rows as [|r rows IH]; simpl; [tauto|].
  intros Hnd Hx Hy Heq. apply NoDup_cons in Hnd as [Hr Hnd].
  destruct Hx as [->|Hx], Hy as [->|Hy]; auto.
  - exfalso. apply Hr, list_elem_of_In. rewrite Heq. now apply in_map.
  - exfalso. apply Hr, list_elem_of_In. rewrite <- Heq. now apply in_map.
Qed.

(** A row that repeats a unique key cannot be appended. *)
Lemma unique_key_taken {A K} (key : A -> K) (rows : list A) (x : A) :
  In (key x) (map key rows) -> ~ NoDup (map key (rows ++ [x])).
Proof.
  intros Hin Hnd. rewrite map_app in Hnd. simpl in Hnd.
  apply NoDup_app in Hnd as (_ & Hnd & _).
  apply (Hnd (key x)); [now apply list_elem_of_In | now left].
Qed.

Lemma unique_key_fresh {A K} (key : A -> K) (rows : list A) (x : A) :
  NoDup (map key rows) -> ~ In (key x) (map key rows) ->
  NoDup (map key (rows ++ [x])).
Proof.
  intros Hnd Hn. rewrite map_app. simpl.
  apply NoDup_app. split; [exact Hnd|]. split.
  - intros k Hk ->%list_elem_of_singleton. now apply Hn, list_elem_of_In.
  - apply NoDup_singleton.
Qed.

(** C8. [seq] is unique over the whole [chat_messages] table, across groups
    and tenants: in every state the tables reach through accepted
    statements, two distinct stored Messages differ in [seq], in particular
    two Messages of different tenants do; and the insertion of a Message
    whose [seq] is already stored is refused, whatever its group or
    tenant. This is strictly more than uniqueness within each tenant: it
    implies it, and tables in which two tenants share a [seq] are unique
    per tenant and still violate the constraints. *)
Theorem seq_globally_unique (ss : list statement) (db : Database) :
  execute_all ss empty_db = Return db ->
  (forall i j m1 m2,
     chat_messages db !! i = Some m1 -> chat_messages db !! j = Some m2 ->
     i <> j -> ChatMessage.seq m1 <> ChatMessage.seq m2)
  /\ (forall m1 m2,
        In m1 (chat_messages db) -> In m2 (chat_messages db) ->
        tenant_of db m1 <> tenant_of db m2 ->
        ChatMessage.seq m1 <> ChatMessage.seq m2)
  /\ (forall m m',
        In m (chat_messages db) -> ChatMessage.seq m' = ChatMessage.seq m ->
        raises (execute (INSERT_chat_messages m') db) IntegrityError)
  /\ seq_unique_per_tenant db
  /\ (seq_unique_per_tenant shared_seq /\ ~ consistent shared_seq).
Proof.
  intros H.
  apply execute_all_consistent in H; [|exact empty_db_consistent].
  apply consistent_Constraints in H.
  split; [|split; [|split; [|split]]].
  - intros i j m1 m2. apply unique_key_positions, (messages_seq _ H).
  - intros m1 m2 H1 H2 Ht Heq. apply Ht.
    now rewrite (unique_key_row ChatMessage.seq (chat_messages db) m1 m2
                   (messages_seq _ H)).
  - intros m m' Hm Heq. apply execute_refused.
    rewrite consistent_Constraints. intros [_ _ Hseq _ _ _ _ _ _ _ _ _].
    simpl in Hseq. revert Hseq.
    apply (unique_key_taken ChatMessage.seq (chat_messages db)
             (ChatMessage.set_id (chat_messages_id_seq db) m')).
    simpl. rewrite Heq. now apply in_map.
  - intros i j m1 m2 Hi Hj Hij _.
    exact (unique_key_positions ChatMessage.seq _ i j m1 m2
             (messages_seq _ H) Hi Hj Hij).
  - split; [|discriminate].
    intros i j m1 m2 Hi Hj Hij Ht.
    destruct i as [|[|i]], j as [|[|j]]; simpl in Hi, Hj;
      try discriminate; try congruence;
      injection Hi as <-; injection Hj as <-; discriminate.
Qed.

(** C7. The identity of a Member record is the triple (group, user, join
    time): in every state the tables reach through accepted statements,
    two distinct stored records differ in it; a record that repeats a
    stored triple is refused; and a user who rejoins a group with a new
    join time gets a new record, appended to the table under the next
    value of the id sequence (which must not be taken), the earlier
    record staying as it was. *)
Theorem member_identity (ss : list statement) (db : Database) :
  execute_all ss empty_db = Return db ->
  (forall i j m1 m2,
     chat_members db !! i = Some m1 -> chat_members db !! j = Some m2 ->
     i <> j ->
     ChatMember.idx_members_unique m1 <> ChatMember.idx_members_unique m2)
  /\ (forall new,
        In (ChatMember.idx_members_unique new)
           (map ChatMember.idx_members_unique (chat_members db)) ->
        raises (execute (INSERT_chat_members new) db) IntegrityError)
  /\ (forall old new,
        In old (chat_members db) ->
        ChatMember.roomid new = ChatMember.roomid old ->
        ChatMember.userid new = ChatMember.userid old ->
        ~ In (ChatMember.join_time new)
            (map ChatMember.join_time
               (List.filter
                  (fun m => String.eqb (ChatMember.roomid m)
                              (ChatMember.roomid old)
                            && String.eqb (ChatMember.userid m)
                                 (ChatMember.userid old))
                  (chat_members db))) ->
        ~ In (chat_members_id_seq db)
            (map ChatMember.id (chat_members db)) ->
        exists db',
          execute (INSERT_chat_members new) db = Return db'
          /\ chat_members db'
             = (chat_members db
                ++ [ChatMember.set_id (chat_members_id_seq db) new])%list
          /\ In old (chat_members db')).
Proof.
  intros H.
  apply execute_all_consistent in H; [|exact empty_db_consistent].
  apply consistent_Constraints in H.
  split; [|split].
  - intros i j m1 m2. apply unique_key_positions, (members_idx _ H).
  - intros new Hin. apply execute_refused.
    rewrite consistent_Constraints. intros [_ _ _ _ _ _ _ Hidx _ _ _ _].
    simpl in Hidx. revert Hidx.
    now apply (unique_key_taken ChatMember.idx_members_unique
                 (chat_members db)
                 (ChatMember.set_id (chat_members_id_seq db) new)).
  - intros old new Hold Hroom Huser Htime Hid.
    exists (effect (INSERT_chat_members new) db).
    split; [|split; [reflexivity | simpl; apply in_or_app; now left]].
    apply execute_Return. split; [|reflexivity].
    apply consistent_Constraints. destruct H. constructor; simpl;
      try assumption.
    + now apply (unique_key_fresh ChatMember.id).
    + apply (unique_key_fresh ChatMember.idx_members_unique);
        [assumption|].
      intros Hin. apply in_map_iff in Hin as (m & Hm & Hin).
      apply Htime. apply in_map_iff. exists m.
      unfold ChatMember.idx_members_unique in Hm. simpl in Hm.
      injection Hm as Hr Hu Ht. split; [exact Ht|].
      apply filter_In. split; [exact Hin|].
      rewrite Hr, Hu, Hroom, Huser, !String.eqb_refl. reflexivity.
    + intros r Hr. rewrite map_app in Hr. apply in_app_or in Hr.
      destruct Hr as [Hr|[<-|[]]]; [now auto|].
      simpl. rewrite Hroom. auto using in_map.
Qed.

(** *** Two tenants, one [seq] *)

(** The sample archive is reached by three insertions. *)
Lemma archive_1_reached :
  execute_all
    [INSERT_chat_groups room_a; INSERT_chat_groups room_b;
     INSERT_chat_messages message_1] empty_db
  = Return archive_1.
Proof. vm_compute. reflexivity. Qed.

(** The message of the second tenant cannot be stored under the [seq] of
    the first tenant's message. *)
Lemma seq_globally_unique_witness :
  raises (execute (INSERT_chat_messages message_2) archive_1) IntegrityError.
Proof.
  refine (proj1 (proj2 (proj2 (seq_globally_unique _ archive_1
                                 archive_1_reached)))
            (ChatMessage.set_id 1 message_1) message_2 _ _).
  - left. reflexivity.
  - reflexivity.
Defined.

(** *** A user who leaves and rejoins *)

(** Alice's first membership is reached by two insertions. *)
Lemma archive_2_reached :
  execute_all
    [INSERT_chat_groups room_a; INSERT_chat_members (alice_joined 1000)]
    empty_db
  = Return archive_2.
Proof. vm_compute. reflexivity. Qed.

(** Alice rejoins at a later time: a second record, the first one kept. *)
Lemma member_identity_witness :
  exists db',
    execute (INSERT_chat_members (alice_joined 5000)) archive_2 = Return db'
    /\ chat_members db'
       = [ChatMember.set_id 1 (alice_joined 1000);
          ChatMember.set_id 2 (alice_joined 5000)]
    /\ In (ChatMember.set_id 1 (alice_joined 1000)) (chat_members db').
Proof.
  refine (proj2 (proj2 (member_identity _ archive_2 archive_2_reached))
            (ChatMember.set_id 1 (alice_joined 1000)) (alice_joined 5000)
            _ _ _ _ _).
  - left. reflexivity.
  - reflexivity.
  - reflexivity.
  - simpl. intros [H|[]]. discriminate.
  - simpl. intros [H|[]]. discriminate.
Defined.

(** ** The engine: what its writes keep *)

Lemma extends_refl (db : Database) : extends db db.
Proof. constructor; exists []; now rewrite app_nil_r. Qed.

Lemma extends_trans (a b c : Database) :
  extends a b -> extends b c -> extends a c.
Proof.
  intros [[m1 H1] [k1 H2] [g1 H3]] [[m2 H4] [k2 H5] [g2 H6]].
  constructor.
  - exists (m1 ++ m2)%list. now rewrite H4, H1, app_assoc.
  - exists (k1 ++ k2)%list. now rewrite H5, H2, app_assoc.
  - exists (g1 ++ g2)%list. now rewrite H6, H3, app_assoc.
Qed.

Lemma map_update_rows {A K} (key : A -> K) (w : A -> bool) (f : A -> A)
    (rows : list A) :
  (forall r, key (f r) = key r) ->
  map key (update_rows w f rows) = map key rows.
Proof.
  intros H. unfold update_rows. rewrite map_map. apply map_ext.
  intros r. now destruct (w r).
Qed.

Lemma archive_write_effect (s : statement) (db : Database) :
  archive_write s ->
  extends db (effect s db) /\ sync_tasks (effect s db) = sync_tasks db.
Proof.
  destruct s; simpl; intros H; try contradiction;
    (split; [|reflexivity]); constructor; simpl;
    try (exists []; now rewrite app_nil_r).
  - exists [ChatGroup.roomid g]. unfold group_keys. simpl.
    now rewrite map_app.
  - now eexists.
  - eexists. now rewrite map_app.
  - exists []. rewrite app_nil_r. unfold group_keys. simpl.
    now apply map_update_rows.
  - exists []. rewrite app_nil_r. apply map_update_rows. apply H.
Qed.

Lemma task_write_effect (s : statement) (db : Database) :
  task_write s ->
  chat_messages (effect s db) = chat_messages db
  /\ chat_members (effect s db) = chat_members db
  /\ chat_groups (effect s db) = chat_groups db.
Proof. destruct s; simpl; intros H; try contradiction; now repeat split. Qed.

Lemma execute_all_app (l1 l2 : list statement) (db : Database) :
  execute_all (l1 ++ l2) db = bind (execute_all l1 db) (execute_all l2).
Proof.
  revert db. induction l1 as [|s l1 IH]; simpl; intros db; [reflexivity|].
  destruct (execute s db); simpl; [apply IH | reflexivity].
Qed.

Lemma execute_all_archive (ss : list statement) (db db' : Database) :
  Forall archive_write ss -> execute_all ss db = Return db' ->
  extends db db' /\ sync_tasks db' = sync_tasks db.
Proof.
  intros Hss. revert db. induction Hss as [|s ss Hs _ IH]; simpl; intros db H.
  - injection H as <-. split; [apply extends_refl | reflexivity].
  - destruct (execute s db) as [db1|] eqn:E; simpl in H; [|discriminate].
    apply execute_Return in E as [_ ->].
    destruct (archive_write_effect s db Hs) as [H1 H2].
    destruct (IH _ H) as [H3 H4].
    split; [eapply extends_trans; eassumption | congruence].
Qed.

Lemma archive_step_refl (db : Database) : archive_step db db.
Proof. split; [apply extends_refl | now split]. Qed.

Lemma archive_step_trans (a b c : Database) :
  archive_step a b -> archive_step b c -> archive_step a c.
Proof.
  intros (H1 & H2 & H3) (H4 & H5 & H6).
  split; [eapply extends_trans; eassumption|].
  split; [congruence | auto].
Qed.

Lemma archive_step_execute_all (ss : list statement) (db : Database) :
  Forall archive_write ss ->
  archive_step db (or_unchanged db (execute_all ss db)).
Proof.
  intros Hss. destruct (execute_all ss db) as [db'|e] eqn:E; simpl.
  - destruct (execute_all_archive ss db db' Hss E) as [H1 H2].
    split; [exact H1|]. split; [exact H2|].
    intros Hc. eapply execute_all_consistent; eassumption.
  - apply archive_step_refl.
Qed.

Lemma side_effects_archive (dm : DecodedMessage) (db : Database) :
  Forall archive_write
    (side_effects dm db ++ [INSERT_chat_messages (dm_message dm)]).
Proof.
  apply Forall_app. split; [|now repeat constructor].
  unfold side_effects. apply Forall_app. split.
  - destruct (group_stored _ db); now repeat constructor.
  - destruct (ChatMessage.msgtype (dm_message dm));
      try now constructor.
    destruct (dm_member_event dm) as [[u name|u]|];
      now repeat constructor.
Qed.

Lemma persist_message_step (dm : DecodedMessage) (db : Database)
    (r : PersistResult) :
  archive_step db (fst (persist_message dm (db, r))).
Proof.
  unfold persist_message.
  destruct (message_stored _ db); [apply archive_step_refl|].
  pose proof (archive_step_execute_all _ db (side_effects_archive dm db))
    as H.
  destruct (execute_all _ db); simpl in *; [exact H|].
  apply archive_step_refl.
Qed.

Lemma persist_messages_step (batch : list DecodedMessage)
    (acc : Database * PersistResult) :
  archive_step (fst acc)
    (fst (fold_left (fun a dm => persist_message dm a) batch acc)).
Proof.
  revert acc. induction batch as [|dm batch IH]; simpl; intros acc.
  - apply archive_step_refl.
  - eapply archive_step_trans; [|apply IH].
    destruct acc as [db r]. apply persist_message_step.
Qed.

(** The closing write of a batch changes two columns of group rows and
    nothing else. *)
Lemma touch_group_frame (now : timestamptz) (db : Database) (r : string) :
  chat_messages (touch_group now db r) = chat_messages db
  /\ chat_members (touch_group now db r) = chat_members db
  /\ group_keys (touch_group now db r) = group_keys db
  /\ sync_tasks (touch_group now db r) = sync_tasks db
  /\ (consistent db -> consistent (touch_group now db r)).
Proof.
  unfold touch_group.
  destruct (execute _ db) as [db'|e] eqn:E; [|now repeat split].
  apply execute_Return in E as [Hc ->]. simpl.
  split; [reflexivity|]. split; [reflexivity|].
  split; [|split; [reflexivity | intros _; exact Hc]].
  unfold group_keys. simpl. now apply map_update_rows.
Qed.

Lemma touch_groups_frame (now : timestamptz) (rooms : list string)
    (db : Database) :
  chat_messages (fold_left (touch_group now) rooms db) = chat_messages db
  /\ chat_members (fold_left (touch_group now) rooms db) = chat_members db
  /\ group_keys (fold_left (touch_group now) rooms db) = group_keys db
  /\ sync_tasks (fold_left (touch_group now) rooms db) = sync_tasks db
  /\ (consistent db -> consistent (fold_left (touch_group now) rooms db)).
Proof.
  revert db. induction rooms as [|r rooms IH]; simpl; intros db.
  - now repeat split.
  - destruct (touch_group_frame now db r) as (H1 & H2 & H3 & H4 & H5).
    destruct (IH (touch_group now db r)) as (I1 & I2 & I3 & I4 & I5).
    repeat split; try congruence. auto.
Qed.

Lemma frame_archive_step (db db' : Database) :
  chat_messages db' = chat_messages db ->
  chat_members db' = chat_members db ->
  group_keys db' = group_keys db ->
  sync_tasks db' = sync_tasks db ->
  (consistent db -> consistent db') ->
  archive_step db db'.
Proof.
  intros H1 H2 H3 H4 H5. split; [|now split].
  constructor; exists []; rewrite app_nil_r; congruence.
Qed.

Lemma persist_batch_tx_step (batch : list DecodedMessage)
    (now : timestamptz) (db : Database) :
  archive_step db (fst (persist_batch_tx batch now db)).
Proof.
  unfold persist_batch_tx.
  pose proof (persist_messages_step batch (db, no_result)) as H.
  destruct (fold_left _ batch (db, no_result)) as [db1 r]. simpl in *.
  eapply archive_step_trans; [exact H|].
  destruct (touch_groups_frame now
              (map (fun dm => ChatMessage.roomid (dm_message dm)) batch) db1)
    as (H1 & H2 & H3 & H4 & H5).
  now apply frame_archive_step.
Qed.

Lemma persist_batch_step (batch : list DecodedMessage) (now : timestamptz)
    (ok : bool) (db : Database) :
  archive_step db (snd (persist_batch batch now ok db)).
Proof.
  unfold persist_batch. destruct ok; [|apply archive_step_refl].
  pose proof (persist_batch_tx_step batch now db) as H.
  now destruct (persist_batch_tx batch now db).
Qed.

Lemma deactivate_group_archive (r : string) :
  Forall archive_write
    [ UPDATE_chat_groups (fun g => String.eqb (ChatGroup.roomid g) r)
        (ChatGroup.set_is_active (Some false));
      UPDATE_chat_members (fun m => String.eqb (ChatMember.roomid m) r)
        (ChatMember.set_is_active (Some false)) ].
Proof. now repeat constructor. Qed.

Lemma task_step_refl (db : Database) : task_step db db.
Proof. now repeat split. Qed.

Lemma task_step_execute (s : statement) (db : Database) :
  task_write s -> task_step db (or_unchanged db (execute s db)).
Proof.
  intros Hs. destruct (execute s db) as [db'|e] eqn:E; simpl;
    [|apply task_step_refl].
  apply execute_Return in E as [Hc ->].
  destruct (task_write_effect s db Hs) as (H1 & H2 & H3).
  now repeat split.
Qed.

Lemma create_sync_task_step (task_id : string) (room : option string)
    (start end_ : option datetime) (db : Database) :
  task_step db (snd (create_sync_task task_id room start end_ db)).
Proof.
  unfold create_sync_task.
  destruct (has_active_run room db); [apply task_step_refl|].
  match goal with |- context [execute ?s db] =>
    pose proof (task_step_execute s db I) as H;
    destruct (execute s db) as [db'|e]
  end; simpl in *; [|apply task_step_refl].
  destruct (find_task task_id db'); [exact H | apply task_step_refl].
Qed.

Lemma sync_messages_snd (task_id : string) (request : SyncTaskRequest.t)
    (db : Database) :
  snd (routes.sync_messages (create_sync_task task_id) request db)
  = snd (create_sync_task task_id (SyncTaskRequest.roomid request)
           (SyncTaskRequest.start_time request)
           (SyncTaskRequest.end_time request) db).
Proof.
  unfold routes.sync_messages.
  destruct (create_sync_task _ _ _ _ db) as [[k|e] db']; simpl;
    [reflexivity|].
  now destruct (is_Exception (exn_class e)).
Qed.

Lemma task_step_extends (db db' : Database) :
  task_step db db' -> extends db db'.
Proof.
  intros (H1 & H2 & H3 & _).
  constructor; exists []; rewrite app_nil_r; unfold group_keys; congruence.
Qed.

(** Every operation of the engine is a step of one of the two kinds. *)
Lemma run_step (op : operation) (db : Database) :
  archive_step db (run op db) \/ task_step db (run op db).
Proof.
  destruct op; simpl.
  - left. apply persist_batch_step.
  - left. apply archive_step_execute_all, deactivate_group_archive.
  - right. rewrite sync_messages_snd. apply create_sync_task_step.
  - right. now apply task_step_execute.
  - right. now apply task_step_execute.
  - right. now apply task_step_execute.
Qed.

Lemma run_consistent (op : operation) (db : Database) :
  consistent db -> consistent (run op db).
Proof.
  destruct (run_step op db) as [(_ & _ & H)|(_ & _ & _ & H)]; exact H.
Qed.

Lemma run_extends (op : operation) (db : Database) :
  extends db (run op db).
Proof.
  destruct (run_step op db) as [(H & _)|H];
    [exact H | now apply task_step_extends].
Qed.

Lemma run_all_snoc (ops : list operation) (op : operation) (db : Database) :
  run_all (ops ++ [op]) db = run op (run_all ops db).
Proof. unfold run_all. now rewrite fold_left_app. Qed.

Lemma run_all_consistent (ops : list operation) (db : Database) :
  consistent db -> consistent (run_all ops db).
Proof.
  intros Hc. induction ops as [|op ops IH] using rev_ind; [exact Hc|].
  rewrite run_all_snoc. now apply run_consistent.
Qed.

Lemma run_all_extends (ops : list operation) (db : Database) :
  extends db (run_all ops db).
Proof.
  induction ops as [|op ops IH] using rev_ind; [apply extends_refl|].
  rewrite run_all_snoc. eapply extends_trans; [exact IH|apply run_extends].
Qed.

Lemma reachable_consistent (db : Database) : reachable db -> consistent db.
Proof.
  intros [ops ->]. apply run_all_consistent, empty_db_consistent.
Qed.

(** ** Nothing is hard-deleted *)

Lemma kept_row {A K} (key : A -> K) (rows rows' : list A) (new : list K)
    (x : A) :
  map key rows' = (map key rows ++ new)%list -> In x rows ->
  exists x', In x' rows' /\ key x' = key x.
Proof.
  intros H Hx.
  assert (In (key x) (map key rows')) as Hin.
  { rewrite H. apply in_or_app. left. now apply in_map. }
  apply in_map_iff in Hin as (x' & Hk & Hx'). now exists x'.
Qed.

Lemma update_rows_In {A} (w : A -> bool) (f : A -> A) (rows : list A)
    (x : A) :
  In x (update_rows w f rows) ->
  exists r, In r rows /\ x = (if w r then f r else r).
Proof.
  unfold update_rows. intros H. apply in_map_iff in H as (r & <- & Hr).
  now exists r.
Qed.

Lemma update_groups_consistent (w : ChatGroup.t -> bool)
    (f : ChatGroup.t -> ChatGroup.t) (db : Database) :
  (forall g, ChatGroup.roomid (f g) = ChatGroup.roomid g) ->
  consistent db -> consistent (effect (UPDATE_chat_groups w f) db).
Proof.
  intros Hf. rewrite !consistent_Constraints. intros [].
  assert (group_keys (effect (UPDATE_chat_groups w f) db) = group_keys db)
    as Hk by (unfold group_keys; simpl; now apply map_update_rows).
  constructor; rewrite ?Hk; assumption.
Qed.

Lemma update_members_consistent (w : ChatMember.t -> bool)
    (f : ChatMember.t -> ChatMember.t) (db : Database) :
  (forall m, member_key (f m) = member_key m
             /\ ChatMember.roomid (f m) = ChatMember.roomid m) ->
  consistent db -> consistent (effect (UPDATE_chat_members w f) db).
Proof.
  intros Hf. rewrite !consistent_Constraints. intros [].
  constructor; simpl; try assumption.
  - rewrite map_update_rows; [assumption|].
    intros m. destruct (Hf m) as [Hm _]. exact (f_equal fst Hm).
  - rewrite map_update_rows; [assumption|].
    intros m. destruct (Hf m) as [Hm _]. exact (f_equal snd Hm).
  - rewrite map_update_rows; [assumption|]. intros m. apply Hf.
Qed.

(** Deactivating a group of a consistent archive goes through, and is the
    two updates. *)
Lemma deactivate_group_Return (r : string) (db : Database) :
  consistent db ->
  deactivate_group r db
  = Return
      (effect
         (UPDATE_chat_members (fun m => String.eqb (ChatMember.roomid m) r)
            (ChatMember.set_is_active (Some false)))
         (effect
            (UPDATE_chat_groups (fun g => String.eqb (ChatGroup.roomid g) r)
               (ChatGroup.set_is_active (Some false)))
            db)).
Proof.
  intros Hc. unfold deactivate_group. simpl.
  match goal with |- context [execute ?s db] =>
    assert (execute s db = Return (effect s db)) as ->
  end.
  { apply execute_Return. split; [|reflexivity].
    now apply update_groups_consistent. }
  simpl.
  match goal with |- context [execute ?s ?d] =>
    assert (execute s d = Return (effect s d)) as ->
  end.
  { apply execute_Return. split; [|reflexivity].
    apply update_members_consistent; [now intros m|].
    now apply update_groups_consistent. }
  reflexivity.
Qed.

(** C4. No operation of the core hard-deletes a Group, a Member or a
    Message: after any sequence of operations every Message row is still
    stored as it was, and every Member and Group row is still stored under
    its key. Removal is a deactivation write: deactivating a group sets
    [is_active] to false on the group and on its members, and leaves every
    row of the three tables in place. *)
Theorem rows_never_deleted (ops : list operation) (db : Database) :
  (forall m, In m (chat_messages db) -> In m (chat_messages (run_all ops db)))
  /\ (forall m, In m (chat_members db) ->
        exists m', In m' (chat_members (run_all ops db))
                   /\ member_key m' = member_key m)
  /\ (forall g, In g (chat_groups db) ->
        exists g', In g' (chat_groups (run_all ops db))
                   /\ ChatGroup.roomid g' = ChatGroup.roomid g)
  /\ (forall r, consistent db ->
        let db' := run (Deactivate_group r) db in
        deactivate_group r db = Return db'
        /\ (forall g, In g (chat_groups db') -> ChatGroup.roomid g = r ->
              ChatGroup.is_active g = Some false)
        /\ (forall m, In m (chat_members db') -> ChatMember.roomid m = r ->
              ChatMember.is_active m = Some false)
        /\ chat_messages db' = chat_messages db
        /\ map member_key (chat_members db')
           = map member_key (chat_members db)
        /\ group_keys db' = group_keys db).
Proof.
  destruct (run_all_extends ops db) as [[nm Hm] [nk Hk] [ng Hg]].
  split; [|split; [|split]].
  - intros m Hin. rewrite Hm. apply in_or_app. now left.
  - intros m Hin.
    exact (kept_row member_key (chat_members db)
             (chat_members (run_all ops db)) nk m Hk Hin).
  - intros g Hin.
    exact (kept_row ChatGroup.roomid (chat_groups db)
             (chat_groups (run_all ops db)) ng g Hg Hin).
  - intros r Hc db'. subst db'. simpl.
    rewrite (deactivate_group_Return r db Hc). simpl.
    split; [reflexivity|]. split; [|split; [|split; [|split]]].
    + intros g Hin Hr. apply update_rows_In in Hin as (g0 & _ & ->).
      destruct (String.eqb_spec (ChatGroup.roomid g0) r) as [E|E];
        [reflexivity | contradiction].
    + intros m Hin Hr. apply update_rows_In in Hin as (m0 & _ & ->).
      destruct (String.eqb_spec (ChatMember.roomid m0) r) as [E|E];
        [reflexivity | contradiction].
    + reflexivity.
    + now apply map_update_rows.
    + unfold group_keys. simpl. now apply map_update_rows.
Qed.

(** What the relationships of [ChatGroup] would do if a caller ever
    deleted a group through the session: its messages and members go with
    it. No operation of the engine issues that delete. *)
Lemma session_delete_group_cascades :
  session_delete_group "room-a" archive_1
  = Return (mk_db [room_b] [] [] [] 2 1 1).
Proof. vm_compute. reflexivity. Qed.

(** ** Re-delivery of a message *)

Lemma message_stored_In (id : string) (db : Database) :
  message_stored id db = true <-> In id (message_keys db).
Proof.
  unfold message_stored. rewrite bool_decide_eq_true. apply list_elem_of_In.
Qed.

Lemma persist_message_duplicate (dm : DecodedMessage) (db : Database)
    (r : PersistResult) :
  In (ChatMessage.msgid (dm_message dm)) (message_keys db) ->
  persist_message dm (db, r) = (db, skipped r).
Proof.
  intros H. apply message_stored_In in H. unfold persist_message.
  now rewrite H.
Qed.

(** A message that is persisted without error is stored afterwards. *)
Lemma persist_message_stored (dm : DecodedMessage) (db db' : Database)
    (r r' : PersistResult) :
  persist_message dm (db, r) = (db', r') -> errors r' = errors r ->
  In (ChatMessage.msgid (dm_message dm)) (message_keys db').
Proof.
  unfold persist_message.
  destruct (message_stored _ db) eqn:Hs.
  - intros [= <- _] _. now apply message_stored_In.
  - rewrite execute_all_app.
    destruct (execute_all (side_effects dm db) db) as [d1|e] eqn:E1; simpl.
    + destruct (execute _ d1) as [d2|e] eqn:E2; simpl.
      * intros [= <- _] _. apply execute_Return in E2 as [_ ->].
        unfold message_keys. simpl. rewrite map_app. apply in_or_app.
        right. now left.
      * intros [= _ <-]. simpl. lia.
    + intros [= _ <-]. simpl. lia.
Qed.

Lemma NoDup_count_occ_1 (l : list string) (x : string) :
  NoDup l -> In x l -> count_occ string_dec l x = 1%nat.
Proof.
  intros Hnd Hin. apply NoDup_ListNoDup in Hnd.
  exact (proj1 (NoDup_count_occ' string_dec l) Hnd x Hin).
Qed.

(** A batch of one message. *)
Lemma persist_batch_single (dm : DecodedMessage) (now : timestamptz)
    (db : Database) :
  persist_batch [dm] now true db
  = (Return (snd (persist_message dm (db, no_result))),
     touch_group now (fst (persist_message dm (db, no_result)))
       (ChatMessage.roomid (dm_message dm))).
Proof.
  unfold persist_batch, persist_batch_tx. cbn [fold_left map].
  now destruct (persist_message dm (db, no_result)).
Qed.

(** C1. [msgid] is a key of the message store, and persisting a message
    whose [msgid] is already stored is a no-op on it: the message, member
    and group rows stay as they are and the delivery is counted under
    [skipped_duplicates], not under [errors]. Persisting the same decoded
    message twice therefore stores exactly one Message with that [msgid],
    the second delivery being a skipped duplicate. *)
Theorem persist_twice_stores_once (db : Database) (dm : DecodedMessage)
    (now now' : timestamptz) :
  reachable db ->
  let key := ChatMessage.msgid (dm_message dm) in
  NoDup (message_keys db)
  /\ (In key (message_keys db) ->
        (forall r, persist_message dm (db, r) = (db, skipped r))
        /\ exists db',
             persist_batch [dm] now true db = (Return (mk_result 0 1 0), db')
             /\ chat_messages db' = chat_messages db
             /\ chat_members db' = chat_members db
             /\ group_keys db' = group_keys db)
  /\ (forall r1 db1,
        persist_batch [dm] now true db = (Return r1, db1) ->
        errors r1 = 0 ->
        count_occ string_dec (message_keys db1) key = 1%nat
        /\ exists db2,
             persist_batch [dm] now' true db1
             = (Return (mk_result 0 1 0), db2)
             /\ chat_messages db2 = chat_messages db1).
Proof.
  intros Hr key. apply reachable_consistent in Hr.
  assert (forall d t, In key (message_keys d) ->
            exists d',
              persist_batch [dm] t true d = (Return (mk_result 0 1 0), d')
              /\ chat_messages d' = chat_messages d
              /\ chat_members d' = chat_members d
              /\ group_keys d' = group_keys d) as Hdup.
  { intros d t Hin. rewrite persist_batch_single.
    rewrite (persist_message_duplicate dm d no_result Hin). simpl.
    eexists. split; [reflexivity|].
    destruct (touch_group_frame t d (ChatMessage.roomid (dm_message dm)))
      as (H1 & H2 & H3 & _).
    now repeat split. }
  split; [|split].
  - apply consistent_Constraints in Hr. apply (messages_msgid _ Hr).
  - intros Hin. split; [|now apply Hdup].
    intros r. now apply persist_message_duplicate.
  - intros r1 db1 H Herr. rewrite persist_batch_single in H.
    destruct (persist_message dm (db, no_result)) as [d r] eqn:E.
    simpl in H. injection H as <- <-.
    pose proof (persist_message_step dm db no_result) as (_ & _ & Hc).
    rewrite E in Hc. simpl in Hc. specialize (Hc Hr).
    destruct (touch_group_frame now d (ChatMessage.roomid (dm_message dm)))
      as (H1 & _ & _ & _ & H5).
    assert (In key (message_keys (touch_group now d
                                    (ChatMessage.roomid (dm_message dm)))))
      as Hin.
    { unfold message_keys. rewrite H1.
      now apply (persist_message_stored dm db d no_result r). }
    split.
    + apply NoDup_count_occ_1; [|exact Hin].
      specialize (H5 Hc). apply consistent_Constraints in H5.
      apply (messages_msgid _ H5).
    + destruct (Hdup _ now' Hin) as (db2 & H2 & H3 & _). now exists db2.
Qed.

(** The first message delivered twice to an empty archive: stored once,
    the second delivery skipped. *)
Lemma persist_twice_stores_once_witness :
  count_occ string_dec (message_keys archive_3) "msg-1" = 1%nat
  /\ exists db2,
       persist_batch [decoded_1] 20 true archive_3
       = (Return (mk_result 0 1 0), db2)
       /\ chat_messages db2 = chat_messages archive_3.
Proof.
  refine (proj2 (proj2 (persist_twice_stores_once empty_db decoded_1 10 20
                          (ex_intro _ [] eq_refl)))
            (mk_result 1 0 0) archive_3 _ _).
  - vm_compute. reflexivity.
  - reflexivity.
Defined.

(** ** One active run per scope *)

Lemma has_active_run_false (scope : option string) (db : Database) :
  has_active_run scope db = false -> active_runs scope db = [].
Proof.
  unfold has_active_run, active_runs. intros H.
  induction (sync_tasks db) as [|k ks IH]; [reflexivity|].
  simpl in *. apply orb_false_iff in H as [Hk Hks]. rewrite Hk. auto.
Qed.

Lemma has_active_run_In (scope : option string) (db : Database)
    (k : SyncTask.t) :
  In k (sync_tasks db) -> active_for scope k = true ->
  has_active_run scope db = true.
Proof.
  intros Hin Hk. apply existsb_exists. now exists k.
Qed.

(** An update that activates no task cannot add an active run. *)
Lemma active_runs_update (scope : option string)
    (w : SyncTask.t -> bool) (f : SyncTask.t -> SyncTask.t)
    (rows : list SyncTask.t) :
  (forall k, w k = true -> active_for scope (f k) = true ->
             active_for scope k = true) ->
  (length (List.filter (active_for scope) (update_rows w f rows))
   <= length (List.filter (active_for scope) rows))%nat.
Proof.
  intros H. induction rows as [|k rows IH]; simpl; [lia|].
  destruct (w k) eqn:Hw.
  - destruct (active_for scope (f k)) eqn:Hf.
    + rewrite (H k Hw Hf). simpl. lia.
    + destruct (active_for scope k); simpl; lia.
  - destruct (active_for scope k); simpl; lia.
Qed.

Lemma task_in_status (task_id : string) (s : TaskStatus.t) (k : SyncTask.t) :
  task_in task_id s k = true -> SyncTask.status k = TaskStatus.value s.
Proof.
  unfold task_in. intros [_ H]%andb_true_iff. now apply String.eqb_eq.
Qed.

Lemma terminal_not_active (t : terminal) :
  is_active_status (TaskStatus.value (terminal_status t)) = false.
Proof. now destruct t. Qed.

Lemma single_active_update (w : SyncTask.t -> bool)
    (f : SyncTask.t -> SyncTask.t) (db : Database) :
  (forall scope k, w k = true -> active_for scope (f k) = true ->
                   active_for scope k = true) ->
  single_active db ->
  single_active (or_unchanged db (execute (UPDATE_sync_tasks w f) db)).
Proof.
  intros Hf Hs. destruct (execute _ db) as [db'|e] eqn:E; [|exact Hs].
  apply execute_Return in E as [_ ->]. intros scope.
  unfold active_runs. simpl.
  pose proof (active_runs_update scope w f (sync_tasks db) (Hf scope)).
  specialize (Hs scope). unfold active_runs in Hs. lia.
Qed.

(** What an accepted start request leaves: the new task, pending, at the
    end of the table. *)
Lemma create_sync_task_Return (task_id : string) (room : option string)
    (start end_ : option datetime) (db db' : Database) (k : SyncTask.t) :
  create_sync_task task_id room start end_ db = (Return k, db') ->
  has_active_run room db = false
  /\ sync_tasks db' = (sync_tasks db ++ [k])%list
  /\ SyncTask.task_id k = task_id
  /\ SyncTask.roomid k = room
  /\ SyncTask.status k = TaskStatus.value TaskStatus.PENDING.
Proof.
  unfold create_sync_task.
  destruct (has_active_run room db); [discriminate|].
  destruct (execute _ db) as [d|e] eqn:E; [|discriminate].
  destruct (find_task task_id d) as [k'|] eqn:F; [|discriminate].
  intros [= -> ->]. split; [reflexivity|].
  apply execute_Return in E as [Hc ->].
  set (row := SyncTask.set_id (sync_tasks_id_seq db)
                (pending_task task_id room)).
  unfold find_task in F.
  change (sync_tasks (effect (INSERT_sync_tasks (pending_task task_id room))
                        db))
    with (sync_tasks db ++ [row])%list in *.
  apply find_some in F as [Hin Hid]. apply String.eqb_eq in Hid.
  assert (k = row) as ->.
  { apply consistent_Constraints in Hc.
    apply (unique_key_row SyncTask.task_id (sync_tasks db ++ [row]) k row);
      [exact (tasks_task_id _ Hc) | exact Hin | | exact Hid].
    apply in_or_app. right. now left. }
  now repeat split.
Qed.

Lemma single_active_create (task_id : string) (room : option string)
    (start end_ : option datetime) (db : Database) :
  single_active db ->
  single_active (snd (create_sync_task task_id room start end_ db)).
Proof.
  intros Hs.
  destruct (create_sync_task task_id room start end_ db) as [[k|e] db']
    eqn:E; simpl.
  - apply create_sync_task_Return in E as (Hn & Ht & _ & Hroom & Hst).
    intros scope. unfold active_runs. rewrite Ht, List.filter_app, length_app.
    simpl. unfold active_for at 2. rewrite Hroom.
    destruct (decide (room = scope)) as [<-|Hne].
    + apply has_active_run_false in Hn. unfold active_runs in Hn.
      rewrite Hn. simpl. destruct (_ && _); simpl; lia.
    + rewrite bool_decide_eq_false_2 by exact Hne. simpl.
      specialize (Hs scope). unfold active_runs in Hs. lia.
  - unfold create_sync_task in E.
    destruct (has_active_run room db); [now injection E as _ <-|].
    destruct (execute _ db) as [d|e'];
      [destruct (find_task task_id d)|];
      first [discriminate | now injection E as _ <-].
Qed.

Lemma run_single_active (op : operation) (db : Database) :
  single_active db -> single_active (run op db).
Proof.
  intros Hs. destruct op; simpl.
  - destruct (persist_batch_step batch now commit_succeeds db)
      as (_ & Ht & _).
    intros scope. unfold active_runs. rewrite Ht. apply Hs.
  - destruct (archive_step_execute_all _ db (deactivate_group_archive roomid))
      as (_ & Ht & _).
    intros scope. unfold active_runs.
    unfold deactivate_group. rewrite Ht. apply Hs.
  - rewrite sync_messages_snd. now apply single_active_create.
  - apply single_active_update; [|exact Hs].
    intros scope k Hw Hf. apply task_in_status in Hw.
    unfold active_for in *. simpl in Hf. rewrite Hw.
    apply andb_true_iff in Hf as [Hf _]. now rewrite Hf.
  - apply single_active_update; [|exact Hs]. intros scope k _ Hf. exact Hf.
  - apply single_active_update; [|exact Hs].
    intros scope k _ Hf. unfold active_for in Hf. simpl in Hf.
    rewrite terminal_not_active, andb_false_r in Hf. discriminate.
Qed.

Lemma reachable_single_active (db : Database) :
  reachable db -> single_active db.
Proof.
  intros [ops ->]. induction ops as [|op ops IH] using rev_ind.
  - intros scope. simpl. lia.
  - rewrite run_all_snoc. now apply run_single_active.
Qed.

(** The route on a scope that has an active run. *)
Lemma sync_messages_rejected (task_id : string) (request : SyncTaskRequest.t)
    (db : Database) :
  has_active_run (SyncTaskRequest.roomid request) db = true ->
  routes.sync_messages (create_sync_task task_id) request db
  = (Raise (mk_exn (HTTPException 500) "创建同步任务失败"), db).
Proof.
  intros H. unfold routes.sync_messages, create_sync_task. now rewrite H.
Qed.

(** C3. At most one sync run is active per scope: in every state the
    engine reaches, each scope (a group, or all groups) has at most one
    task that is pending or running; a start request for a scope that has
    an active run is rejected by the route, with an error and without
    storing a task; and once a start request is accepted, with its task
    stored as pending for that scope, any further start request for the
    same scope is rejected. *)
Theorem one_active_run_per_scope (db : Database) :
  reachable db ->
  (forall scope, (length (active_runs scope db) <= 1)%nat)
  /\ (forall task_id request,
        has_active_run (SyncTaskRequest.roomid request) db = true ->
        raises
          (fst (routes.sync_messages (create_sync_task task_id) request db))
          (HTTPException 500)
        /\ snd (routes.sync_messages (create_sync_task task_id) request db)
           = db)
  /\ (forall task_id request k db1,
        routes.sync_messages (create_sync_task task_id) request db
        = (Return k, db1) ->
        sync_tasks db1 = (sync_tasks db ++ [k])%list
        /\ SyncTask.roomid k = SyncTaskRequest.roomid request
        /\ SyncTask.status k = "pending"
        /\ active_runs (SyncTaskRequest.roomid request) db1 = [k]
        /\ forall task_id' request',
             SyncTaskRequest.roomid request'
             = SyncTaskRequest.roomid request ->
             raises
               (fst (routes.sync_messages (create_sync_task task_id')
                       request' db1))
               (HTTPException 500)
             /\ snd (routes.sync_messages (create_sync_task task_id')
                       request' db1)
                = db1).
Proof.
  intros Hr. split; [|split].
  - now apply reachable_single_active.
  - intros task_id request H. rewrite (sync_messages_rejected _ _ _ H).
    split; [apply raises_Raise | reflexivity].
  - intros task_id request k db1 H.
    unfold routes.sync_messages in H.
    destruct (create_sync_task task_id _ _ _ db) as [[k'|e] d] eqn:E;
      [|destruct (is_Exception (exn_class e)); discriminate].
    injection H as -> ->.
    apply create_sync_task_Return in E as (Hn & Ht & _ & Hroom & Hst).
    assert (active_for (SyncTaskRequest.roomid request) k = true) as Hk.
    { unfold active_for. rewrite Hroom, Hst.
      now rewrite bool_decide_eq_true_2. }
    split; [exact Ht|]. split; [exact Hroom|]. split; [exact Hst|]. split.
    + unfold active_runs. rewrite Ht, List.filter_app.
      apply has_active_run_false in Hn. unfold active_runs in Hn.
      rewrite Hn. simpl. now rewrite Hk.
    + intros task_id' request' Hsame.
      rewrite sync_messages_rejected.
      * split; [apply raises_Raise | reflexivity].
      * rewrite Hsame. apply (has_active_run_In _ _ k); [|exact Hk].
        rewrite Ht. apply in_or_app. right. now left.
Qed.

(** A request to sync all groups is accepted on an empty archive; while
    its task is pending, a second one is rejected. *)
Lemma one_active_run_per_scope_witness :
  active_runs None archive_4 = [task_1]
  /\ raises
       (fst (routes.sync_messages (create_sync_task "task-2") sync_all
               archive_4))
       (HTTPException 500)
  /\ snd (routes.sync_messages (create_sync_task "task-2") sync_all
            archive_4)
     = archive_4.
Proof.
  assert (routes.sync_messages (create_sync_task "task-1") sync_all empty_db
          = (Return task_1, archive_4)) as Hstart
    by (vm_compute; reflexivity).
  destruct (proj2 (proj2 (one_active_run_per_scope empty_db
                            (ex_intro _ [] eq_refl)))
              "task-1" sync_all task_1 archive_4 Hstart)
    as (_ & _ & _ & Ha & Hrej).
  split; [exact Ha|]. exact (Hrej "task-2" sync_all eq_refl).
Defined.

(* ===================================================================== *)
(** * Further properties of the source                                    *)
(* ===================================================================== *)

(** ** [get_database_url] *)

Lemma append_String (c : Ascii.ascii) (p r : string) :
  (String c p ++ r)%string = String c (p ++ r)%string.
Proof. reflexivity. Qed.

Lemma prefix_app (p r : string) : String.prefix p (p ++ r)%string = true.
Proof.
  induction p as [|c p IH]; [now destruct r|].
  rewrite append_String. simpl.
  destruct (Ascii.ascii_dec c c); [exact IH | contradiction].
Qed.

Lemma prefix_split (p s : string) :
  String.prefix p s = true ->
  s = (p ++ string_drop (String.length p) s)%string.
Proof.
  revert s. induction p as [|c p IH]; intros s H; [reflexivity|].
  destruct s as [|d s]; simpl in H; [discriminate|].
  destruct (Ascii.ascii_dec c d) as [->|]; [|discriminate].
  rewrite append_String. simpl. f_equal. now apply IH.
Qed.

Lemma string_drop_app (p r : string) :
  string_drop (String.length p) (p ++ r)%string = r.
Proof.
  induction p as [|c p IH]; [reflexivity|].
  rewrite append_String. exact IH.
Qed.

Lemma replace_first_prefix (old new s : string) :
  String.prefix old s = true ->
  replace_first old new s
  = (new ++ string_drop (String.length old) s)%string.
Proof. intros H. destruct s; cbn [replace_first]; now rewrite H. Qed.

(** What the function does to a URL of the plain scheme. *)
Lemma get_database_url_plain (rest : string) (async_mode : bool) :
  get_database_url ("postgresql://" ++ rest)%string async_mode
  = Return (if async_mode then ("postgresql+asyncpg://" ++ rest)%string
            else ("postgresql://" ++ rest)%string).
Proof.
  unfold get_database_url, startswith. destruct async_mode; [|reflexivity].
  rewrite (prefix_app "postgresql://" rest).
  rewrite replace_first_prefix by apply (prefix_app "postgresql://").
  now rewrite (string_drop_app "postgresql://" rest).
Qed.

Lemma get_database_url_async_scheme (database_url url : string) :
  get_database_url database_url true = Return url ->
  startswith url "postgresql+asyncpg://" = true.
Proof.
  unfold get_database_url. intros H.
  destruct (startswith database_url "postgresql+asyncpg://") eqn:Ea;
    simpl in H; [now injection H as <-|].
  destruct (startswith database_url "postgresql://") eqn:Eb;
    [|discriminate].
  injection H as <-. unfold startswith in *.
  rewrite replace_first_prefix by exact Eb.
  apply (prefix_app "postgresql+asyncpg://").
Qed.

(** In async mode the function returns only URLs of the asyncpg scheme:
    a URL that has it is returned as it is, a URL of the plain
    [postgresql://] scheme has its scheme rewritten and the rest kept, and
    any other URL is refused with [ValueError]; so the URL the async
    engine is created from, when there is one, starts with
    [postgresql+asyncpg://], and the function applied to its own result
    changes nothing. *)
Theorem get_database_url_async (database_url : string) :
  (forall url, get_database_url database_url true = Return url ->
     startswith url "postgresql+asyncpg://" = true
     /\ get_database_url url true = Return url
     /\ (startswith database_url "postgresql+asyncpg://" = true ->
           url = database_url)
     /\ (forall rest, database_url = ("postgresql://" ++ rest)%string ->
           url = ("postgresql+asyncpg://" ++ rest)%string))
  /\ (raises (get_database_url database_url true) ValueError
      <-> startswith database_url "postgresql+asyncpg://" = false
          /\ startswith database_url "postgresql://" = false).
Proof.
  split.
  - intros url H.
    pose proof (get_database_url_async_scheme _ _ H) as Hp.
    split; [exact Hp|]. split; [|split].
    + unfold get_database_url. now rewrite Hp.
    + intros Ha. unfold get_database_url in H. rewrite Ha in H.
      now injection H.
    + intros rest ->. rewrite get_database_url_plain in H. now injection H.
  - unfold get_database_url.
    destruct (startswith database_url "postgresql+asyncpg://"); simpl.
    + split; [intros [d H]; discriminate | intros [H _]; discriminate].
    + destruct (startswith database_url "postgresql://").
      * split; [intros [d H]; discriminate | intros [_ H]; discriminate].
      * split; [now split | intros _; apply raises_Raise].
Qed.

(** In sync mode the configured URL is returned as it is, whatever its
    scheme: also a URL that names the async driver, and a URL that async
    mode refuses. *)
Theorem get_database_url_sync (database_url : string) :
  get_database_url database_url false = Return database_url.
Proof. reflexivity. Qed.

(** ** The session generators and the decorator, whatever the session does *)

(** Case analysis on what a method of the session does where the goal
    calls it. *)
Ltac case_method method :=
  match goal with
  | |- context [method ?s] => destruct (method s) as [[[]|?] ?]; cbn
  end.

Ltac case_Exception :=
  match goal with
  | |- context [is_Exception ?c] => destruct (is_Exception c); cbn
  end.

(** A method of the session that returns normally, by hypothesis [H]. *)
Ltac method_returns H method :=
  cbn;
  match goal with
  | |- context [method ?s] =>
      generalize (H s); destruct (method s) as [? ?]; cbn; intros ->; cbn
  end.

(** [get_async_session] never commits. With a maker set, it closes the
    session and leaves the context on every path, whatever the consumer
    and the session's own methods do: the calls are the recovery calls,
    when the consumer raised an exception deriving from [Exception],
    followed by [close] and the context exit. When the session's methods
    return normally, the outcome of the consumer is the outcome of the
    generator: its exception is re-raised, not swallowed. Without a maker
    the generator raises [RuntimeError] before any session exists. *)
Theorem get_async_session_paths {Session R : Type}
    (rollback close aexit : Session -> result unit * Session)
    (consumer : Session -> result R * Session) (s0 : Session) :
  (exists s',
     snd (get_async_session rollback close aexit consumer (Some s0))
     = Some (s',
             (match consumer s0 with
              | (Raise e, s1) =>
                  if is_Exception (exn_class e)
                  then recovery_calls (rollback s1) else []
              | _ => []
              end ++ [database.Close; database.AExit])%list))
  /\ ((forall s, fst (rollback s) = Return tt) ->
      (forall s, fst (close s) = Return tt) ->
      (forall s, fst (aexit s) = Return tt) ->
      fst (get_async_session rollback close aexit consumer (Some s0))
      = fst (consumer s0))
  /\ raises (fst (get_async_session rollback close aexit consumer None))
       RuntimeError
  /\ snd (get_async_session rollback close aexit consumer None) = None.
Proof.
  split; [|split; [|split; [apply raises_Raise | reflexivity]]].
  - unfold get_async_session, yield_session, database.async_with,
      database.try_except_Exception_finally, database.seq,
      database.await_func, database.invoke, database.logger_error,
      recovery_calls.
    cbn. destruct (consumer s0) as [[v|e] s1]; cbn;
      [|case_Exception; [case_method rollback|]];
      case_method close; case_method aexit; eexists; reflexivity.
  - intros Hr Hc Ha.
    unfold get_async_session, yield_session, database.async_with,
      database.try_except_Exception_finally, database.seq,
      database.await_func, database.invoke, database.logger_error.
    cbn. destruct (consumer s0) as [[v|e] s1]; cbn;
      [|case_Exception; [method_returns Hr rollback|]];
      method_returns Hc close; method_returns Ha aexit; reflexivity.
Qed.

(** [get_sync_session] behaves in the same way without a context manager:
    it never commits, and with a maker set it ends in [close] on every
    path, after the recovery calls when the consumer raised an exception
    deriving from [Exception]. *)
Theorem get_sync_session_paths {Session R : Type}
    (rollback close : Session -> result unit * Session)
    (consumer : Session -> result R * Session) (s0 : Session) :
  (exists s',
     snd (get_sync_session rollback close consumer (Some s0))
     = Some (s',
             (match consumer s0 with
              | (Raise e, s1) =>
                  if is_Exception (exn_class e)
                  then recovery_calls (rollback s1) else []
              | _ => []
              end ++ [database.Close])%list))
  /\ ((forall s, fst (rollback s) = Return tt) ->
      (forall s, fst (close s) = Return tt) ->
      fst (get_sync_session rollback close consumer (Some s0))
      = fst (consumer s0))
  /\ raises (fst (get_sync_session rollback close consumer None))
       RuntimeError.
Proof.
  split; [|split; [|apply raises_Raise]].
  - unfold get_sync_session, yield_session,
      database.try_except_Exception_finally, database.seq,
      database.await_func, database.invoke, database.logger_error,
      recovery_calls.
    cbn. destruct (consumer s0) as [[v|e] s1]; cbn;
      [|case_Exception; [case_method rollback|]];
      case_method close; eexists; reflexivity.
  - intros Hr Hc.
    unfold get_sync_session, yield_session,
      database.try_except_Exception_finally, database.seq,
      database.await_func, database.invoke, database.logger_error.
    cbn. destruct (consumer s0) as [[v|e] s1]; cbn;
      [|case_Exception; [method_returns Hr rollback|]];
      method_returns Hc close; reflexivity.
Qed.

(** The decorator closes the session and leaves the context on every exit
    path even when the session's own methods fail: whatever [commit],
    [rollback], [close] and the context exit do, the calls of the wrapper
    are the commit when the operation returned, the recovery calls when
    an exception deriving from [Exception] is in flight, then [close] and
    the context exit. *)
Theorem with_db_session_always_closes {Session R : Type}
    (commit rollback close aexit : Session -> result unit * Session)
    (func : Session -> result R * Session) (s0 : Session) :
  exists s',
    snd (database.with_db_session commit rollback close aexit func (Some s0))
    = Some (s',
            (match func s0 with
             | (Return _, s1) =>
                 database.Commit ::
                 match commit s1 with
                 | (Raise e, s2) =>
                     if is_Exception (exn_class e)
                     then recovery_calls (rollback s2) else []
                 | _ => []
                 end
             | (Raise e, s1) =>
                 if is_Exception (exn_class e)
                 then recovery_calls (rollback s1) else []
             end ++ [database.Close; database.AExit])%list).
Proof.
  unfold database.with_db_session, database.wrapper, database.async_with,
    database.try_except_Exception_finally, database.seq,
    database.await_func, database.invoke, database.logger_error,
    database.ret, recovery_calls.
  cbn. destruct (func s0) as [[v|e] s1]; cbn;
    [case_method commit; [|case_Exception; [case_method rollback|]]
    |case_Exception; [case_method rollback|]];
    case_method close; case_method aexit; eexists; reflexivity.
Qed.


(** With the session as a unit of work over the tables, a decorated
    operation that only queues statements is all or nothing: when the
    wrapper returns, every queued statement has taken effect, in order;
    when it raises, the tables are as they were; and on both paths nothing
    is left pending. *)
Theorem with_db_session_atomic {R : Type}
    (func : database.AsyncSession -> result R * database.AsyncSession)
    (db : Database) :
  (forall s, database.bound (snd (func s)) = database.bound s) ->
  exists s' calls,
    snd (database.with_db_session database.session_commit
           database.session_rollback database.session_close
           database.session_close func
           (Some (database.mk_session db [])))
    = Some (s', calls)
    /\ database.pending s' = []
    /\ match fst (database.with_db_session database.session_commit
                    database.session_rollback database.session_close
                    database.session_close func
                    (Some (database.mk_session db [])))
       with
       | Return v =>
           exists s1,
             func (database.mk_session db []) = (Return v, s1)
             /\ execute_all (database.pending s1) db
                = Return (database.bound s')
       | Raise _ => database.bound s' = db
       end.
Proof.
  intros Hq. specialize (Hq (database.mk_session db [])).
  unfold database.with_db_session, database.wrapper, database.async_with,
    database.try_except_Exception_finally, database.seq,
    database.await_func, database.invoke, database.logger_error,
    database.ret.
  cbn. destruct (func (database.mk_session db [])) as [[v|e] s1]; cbn in *.
  - unfold database.session_commit. rewrite Hq.
    destruct (execute_all (database.pending s1) db) as [db'|e] eqn:E; cbn.
    + do 2 eexists. split; [reflexivity|]. split; [reflexivity|].
      exists s1. now split.
    + case_Exception; do 2 eexists;
        (split; [reflexivity|]); (split; [reflexivity|]); cbn; congruence.
  - case_Exception; do 2 eexists;
      (split; [reflexivity|]); (split; [reflexivity|]); exact Hq.
Qed.

(** [add_group] under the decorator: the group is stored. *)
Lemma with_db_session_atomic_witness :
  exists s' calls,
    snd (database.with_db_session database.session_commit
           database.session_rollback database.session_close
           database.session_close (add_group room_a)
           (Some (database.mk_session empty_db [])))
    = Some (s', calls)
    /\ database.pending s' = []
    /\ exists s1,
         add_group room_a (database.mk_session empty_db [])
         = (Return "room-a", s1)
         /\ execute_all (database.pending s1) empty_db
            = Return (database.bound s').
Proof.
  exact (with_db_session_atomic (add_group room_a) empty_db
           (fun _ => eq_refl)).
Defined.

(** ** Health, start and stop *)

Section EngineFacts.
Context {AsyncEngine SyncEngine Conn Cursor Config : Type}.
Variable engine_begin : AsyncEngine -> result Conn.
Variable execute_select_1 : Conn -> result Cursor.
Variable scalar : Cursor -> result (option Z).
Variable begin_exit : Conn -> option exn -> result unit.
Variable create_async_engine : string -> Config -> result AsyncEngine.
Variable create_engine : string -> Config -> result SyncEngine.
Variable dispose : AsyncEngine -> result unit.
Variable sync_dispose : SyncEngine -> result unit.

Local Abbreviation health g :=
  (check_database_health engine_begin execute_select_1 scalar begin_exit g).

Local Abbreviation connection_test e :=
  (with_begin engine_begin begin_exit e
     (fun conn => bind (execute_select_1 conn) (fun _ => Return tt))).

Lemma try_except_Exception_raises {A} (body : result A)
    (handler : exn -> result A) (x : exn) :
  (forall e, handler e <> Raise x) ->
  try_except_Exception body handler = Raise x ->
  body = Raise x /\ is_Exception (exn_class x) = false.
Proof.
  intros Hh. unfold try_except_Exception.
  destruct body as [a|e]; [discriminate|].
  destruct (is_Exception (exn_class e)) eqn:E.
  - intros H. now apply Hh in H.
  - intros [= ->]. now split.
Qed.

Lemma check_database_health_raises (g : Globals AsyncEngine SyncEngine)
    (x : exn) :
  health g = Raise x -> is_Exception (exn_class x) = false.
Proof.
  intros H. unfold check_database_health in H.
  apply try_except_Exception_raises in H; [tauto | discriminate].
Qed.

(** [check_database_health] answers [True] exactly when the engine is set,
    a connection opens, [SELECT 1] runs, its scalar is 1 and the block is
    left normally. Without an engine it answers [False] without touching
    the database, and every failure that derives from [Exception] is
    answered [False] as well: the only exceptions that leave the function
    are those that do not derive from [Exception]. *)
Theorem check_database_health_answers (g : Globals AsyncEngine SyncEngine) :
  (health g = Return true
   <-> exists e conn cur,
         engine g = Some e
         /\ engine_begin e = Return conn
         /\ execute_select_1 conn = Return cur
         /\ scalar cur = Return (Some 1)
         /\ begin_exit conn None = Return tt)
  /\ (engine g = None -> health g = Return false)
  /\ (forall x, health g = Raise x -> is_Exception (exn_class x) = false).
Proof.
  split; [|split].
  - unfold check_database_health, with_begin, try_except_Exception.
    split.
    + destruct (engine g) as [e|]; [|discriminate].
      destruct (engine_begin e) as [conn|x] eqn:E1; cbn;
        [|destruct (is_Exception (exn_class x)); discriminate].
      destruct (execute_select_1 conn) as [cur|x] eqn:E2; cbn.
      * destruct (scalar cur) as [v|x] eqn:E3; cbn.
        -- destruct (begin_exit conn None) as [[]|x] eqn:Ex; cbn;
             [|destruct (is_Exception (exn_class x)); discriminate].
           intros [= Hv]. apply bool_decide_eq_true_1 in Hv. subst v.
           exists e, conn, cur. now repeat split.
        -- destruct (begin_exit conn (Some x)) as [[]|y]; cbn;
             [destruct (is_Exception (exn_class x)); discriminate
             |destruct (is_Exception (exn_class y)); discriminate].
      * destruct (begin_exit conn (Some x)) as [[]|y]; cbn;
          [destruct (is_Exception (exn_class x)); discriminate
          |destruct (is_Exception (exn_class y)); discriminate].
    + intros (e & conn & cur & -> & -> & H1 & H2 & H3). cbn.
      rewrite H1. cbn. rewrite H2. cbn. now rewrite H3.
  - intros H. unfold check_database_health. now rewrite H.
  - apply check_database_health_raises.
Qed.


Local Abbreviation init url config g :=
  (init_db engine_begin execute_select_1 begin_exit create_async_engine
     create_engine url config g).

Lemma init_db_Return (database_url : string) (config : Config)
    (g g' : Globals AsyncEngine SyncEngine) (v : unit) :
  init database_url config g = (Return v, g') ->
  exists e se, g' = mk_globals (Some e) (Some e) (Some se) (Some se).
Proof.
  unfold init_db.
  destruct (get_database_url database_url true) as [url|x]; cbn;
    [|discriminate].
  destruct (create_async_engine url config) as [e|x]; cbn; [|discriminate].
  destruct (create_engine database_url config) as [se|x]; cbn;
    [|discriminate].
  destruct (with_begin _ _ e _) as [[]|x]; [|discriminate].
  intros [= _ <-]. now exists e, se.
Qed.

(** [init_db] returns normally only with the four globals set: the async
    engine and its session maker, made from a URL of the asyncpg scheme,
    and the sync engine and its session maker, made from the configured
    URL as it is, after a connection test that passed. When it raises, the
    globals assigned before the failure stay assigned: nothing, when the
    URL is refused or the async engine cannot be made; the async pair,
    when the sync engine cannot be made; all four, when the connection
    test fails. *)
Theorem init_db_globals (database_url : string) (config : Config)
    (g : Globals AsyncEngine SyncEngine) :
  match init database_url config g with
  | (Return _, g') =>
      exists url e se,
        get_database_url database_url true = Return url
        /\ startswith url "postgresql+asyncpg://" = true
        /\ create_async_engine url config = Return e
        /\ create_engine database_url config = Return se
        /\ connection_test e = Return tt
        /\ g' = mk_globals (Some e) (Some e) (Some se) (Some se)
  | (Raise x, g') =>
      (g' = g
       /\ bind (get_database_url database_url true)
            (fun url => create_async_engine url config) = Raise x)
      \/ (exists e,
            create_engine database_url config = Raise x
            /\ g' = mk_globals (Some e) (Some e) (sync_engine g)
                      (sync_session_maker g))
      \/ (exists e se,
            connection_test e = Raise x
            /\ g' = mk_globals (Some e) (Some e) (Some se) (Some se))
  end.
Proof.
  unfold init_db.
  destruct (get_database_url database_url true) as [url|x] eqn:Eu; cbn;
    [|now left].
  destruct (create_async_engine url config) as [e|x] eqn:Ee; cbn;
    [|now left].
  destruct (create_engine database_url config) as [se|x] eqn:Es; cbn;
    [|right; left; now exists e].
  destruct (with_begin _ _ e _) as [[]|x] eqn:Ec.
  - exists url, e, se.
    pose proof (get_database_url_async_scheme _ _ Eu) as Hp.
    now repeat split.
  - right. right. now exists e, se.
Qed.

Local Abbreviation at_import :=
  (@globals_at_import AsyncEngine SyncEngine).

Local Abbreviation life app_engine url config serve g :=
  (lifespan engine_begin execute_select_1 begin_exit create_async_engine
     create_engine dispose app_engine url config serve g).

(** The shutdown of the application disposes the engine that the name
    [engine] of [app.py] was bound to when the module was imported, and no
    other. Imported before [init_db] has run, the name is [None]: whatever
    the start-up and the application do, the shutdown disposes nothing,
    although a start-up that succeeded has set [database.engine], which
    [close_db] would dispose. *)
Theorem lifespan_disposes_nothing (database_url : string) (config : Config)
    (serve : result unit) :
  snd (life (engine at_import) database_url config serve
         at_import) = []
  /\ (forall app_engine g,
        snd (life app_engine database_url config serve g) = []
        \/ exists e,
             app_engine = Some e
             /\ snd (life app_engine database_url config serve g)
                = [Dispose e])
  /\ (fst (init database_url config at_import) = Return tt ->
      exists e,
        engine (snd (init database_url config at_import)) = Some e
        /\ exists rest,
             snd (close_db dispose sync_dispose
                    (snd (init database_url config at_import)))
             = Dispose e :: rest).
Proof.
  split; [|split].
  - unfold lifespan. cbn.
    destruct (init_db _ _ _ _ _ _ _ _) as [[[]|x] g']; [|reflexivity].
    now destruct serve as [[]|x].
  - intros app_engine g. unfold lifespan.
    destruct (init_db _ _ _ _ _ _ _ g) as [[[]|x] g']; [|now left].
    destruct serve as [[]|x]; [|now left].
    destruct app_engine as [e|]; [right; now exists e | now left].
  - destruct (init_db _ _ _ _ _ _ _ _) as [[[]|x] g'] eqn:E; [|discriminate].
    intros _. apply init_db_Return in E as (e & se & ->).
    exists e. split; [reflexivity|]. unfold close_db. cbn.
    destruct (dispose e); cbn; eexists; reflexivity.
Qed.

End EngineFacts.

(** ** The routes of [api_router] *)


Lemma reraise_HTTPException_errors {A B} (absent : A -> Prop)
    (d404 d500 : string) (service : result A * Database)
    (inner : result B * Database) :
  match fst service with
  | Return a =>
      (absent a /\ fst inner = Raise (mk_exn (HTTPException 404) d404))
      \/ (~ absent a /\ exists b, fst inner = Return b)
  | Raise e => fst inner = Raise e
  end ->
  lookup_errors absent (mk_exn (HTTPException 404) d404)
    (mk_exn (HTTPException 500) d500) service
    (api_router.reraise_HTTPException d500 inner).
Proof.
  destruct service as [[a|e'] db0], inner as [[b|e1] db1]; cbn.
  - intros [[_ [=]]|[Hn _]]. split.
    + intros a' [= <-] Ha. contradiction.
    + intros e [=].
  - intros [[Ha [= ->]]|[_ [b [=]]]]. split.
    + intros a' [= <-] _. reflexivity.
    + intros e. cbn. intros [= <-] _. left. split; [reflexivity|].
      now exists a.
  - discriminate.
  - intros [= ->]. split; [discriminate|].
    intros e.
    destruct (api_router.is_HTTPException (exn_class e')) eqn:Eh; cbn.
    + intros [= <-] _. right. right. now split.
    + destruct (is_Exception (exn_class e')) eqn:Ee; cbn; intros [= <-] He.
      * right. left. split; [reflexivity|]. now exists e'.
      * congruence.
Qed.

Section RouteFacts.

Context {Groups Group Messages Message Task Tasks GroupStats MessageStats
         Found : Type}.
Variable create_sync_task :
  option string -> option datetime -> option datetime ->
  Database -> result SyncTask.t * Database.
Variable group_service_get_groups :
  Z -> Z -> option string -> option bool ->
  Database -> result Groups * Database.
Variable group_service_get_group_by_id :
  string -> Database -> result (option Group) * Database.
Variable message_service_get_messages_by_room :
  string -> Z -> Z -> option string -> option string -> option string ->
  option string -> option string -> Database -> result Messages * Database.
Variable message_service_get_message_by_id :
  string -> Database -> result (option Message) * Database.
Variable sync_service_get_task_by_id :
  string -> Database -> result (option Task) * Database.
Variable sync_service_get_tasks :
  Z -> Z -> option string -> option string ->
  Database -> result Tasks * Database.
Variable sync_service_cancel_task :
  string -> Database -> result bool * Database.
Variable group_service_get_group_stats :
  Database -> result GroupStats * Database.
Variable message_service_get_message_stats :
  option string -> Z -> Database -> result MessageStats * Database.
Variable message_service_search_messages :
  string -> Z -> Z -> option string -> option string -> option string ->
  option string -> Database -> result Found * Database.

Local Abbreviation http_500 detail := (mk_exn (HTTPException 500) detail).
Local Abbreviation http_404 detail := (mk_exn (HTTPException 404) detail).


(** The routes that look up one group, message or sync task, and the
    route that cancels a task, answer HTTP 404 with their own detail when
    the service finds nothing (or cannot cancel); that 404 is not turned
    into a 500 by the route's own handler. An HTTP error raised by the
    service passes unchanged, and any other failure of the service is
    answered with HTTP 500. *)
Theorem lookup_routes_answer_404 :
  (forall roomid db,
     lookup_errors (fun group => group = None) (http_404 "群组不存在")
       (http_500 "获取群组详情失败")
       (group_service_get_group_by_id roomid db)
       (api_router.get_group group_service_get_group_by_id roomid db))
  /\ (forall msgid db,
        lookup_errors (fun message => message = None)
          (http_404 "消息不存在") (http_500 "获取消息详情失败")
          (message_service_get_message_by_id msgid db)
          (api_router.get_message message_service_get_message_by_id msgid
             db))
  /\ (forall task_id db,
        lookup_errors (fun task => task = None) (http_404 "同步任务不存在")
          (http_500 "获取同步任务失败")
          (sync_service_get_task_by_id task_id db)
          (api_router.get_sync_task sync_service_get_task_by_id task_id db))
  /\ (forall task_id db,
        lookup_errors (fun success => success = false)
          (http_404 "同步任务不存在或无法取消")
          (http_500 "取消同步任务失败")
          (sync_service_cancel_task task_id db)
          (api_router.cancel_sync_task sync_service_cancel_task task_id db)).
Proof.
  split; [|split; [|split]]; intros;
    unfold api_router.get_group, api_router.get_message,
      api_router.get_sync_task, api_router.cancel_sync_task;
    apply reraise_HTTPException_errors.
  - destruct (group_service_get_group_by_id roomid db) as [[[g|]|e] db'];
      cbn; [right | left | reflexivity]; split;
      [discriminate | now exists g | reflexivity | reflexivity].
  - destruct (message_service_get_message_by_id msgid db)
      as [[[g|]|e] db'];
      cbn; [right | left | reflexivity]; split;
      [discriminate | now exists g | reflexivity | reflexivity].
  - destruct (sync_service_get_task_by_id task_id db) as [[[g|]|e] db'];
      cbn; [right | left | reflexivity]; split;
      [discriminate | now exists g | reflexivity | reflexivity].
  - destruct (sync_service_cancel_task task_id db) as [[[|]|e] db'];
      cbn; [right | left | reflexivity]; split;
      [discriminate | now eexists | reflexivity | reflexivity].
Qed.

Lemma Query_answers (d lo : Z) (hi : option Z) (raw : option Z) :
  lo <= d -> match hi with Some h => d <= h | None => True end ->
  (lo <= default d raw
   /\ match hi with Some h => default d raw <= h | None => True end
   /\ api_router.Query d (Some lo) hi raw = Return (default d raw))
  \/ ((default d raw < lo
       \/ match hi with Some h => h < default d raw | None => False end)
      /\ api_router.Query d (Some lo) hi raw = Raise out_of_range).
Proof.
  intros Hlo Hhi. destruct raw as [v|]; cbn; [|now left].
  destruct (Z.leb_spec lo v); cbn.
  - destruct hi as [h|]; [|now left].
    destruct (Z.leb_spec v h); [now left | right]. now split; [right|].
  - right. now split; [left|].
Qed.

(** A request with a page, size or number of days outside the bounds its
    route declares is refused before the route runs, the tables left as
    they are; otherwise the route runs with the values given, or with its
    defaults for those left out, so that a service is only ever asked for
    a page from 1 on and a size within the route's limit. *)
Theorem requests_within_bounds :
  (forall page size keyword is_active db,
     let p := default 1 page in
     let s := default 20 size in
     (1 <= p /\ 1 <= s <= 100
      /\ api_router.get_groups_request group_service_get_groups page size
           keyword is_active db
         = api_router.get_groups group_service_get_groups p s keyword
             is_active db)
     \/ ((p < 1 \/ s < 1 \/ 100 < s)
         /\ api_router.get_groups_request group_service_get_groups page size
              keyword is_active db
            = (Raise out_of_range, db)))
  /\ (forall roomid page size start_time end_time msgtype from_user keyword
             db,
        let p := default 1 page in
        let s := default 50 size in
        (1 <= p /\ 1 <= s <= 200
         /\ api_router.get_group_messages_request
              message_service_get_messages_by_room roomid page size
              start_time end_time msgtype from_user keyword db
            = api_router.get_group_messages
                message_service_get_messages_by_room roomid p s start_time
                end_time msgtype from_user keyword db)
        \/ ((p < 1 \/ s < 1 \/ 200 < s)
            /\ api_router.get_group_messages_request
                 message_service_get_messages_by_room roomid page size
                 start_time end_time msgtype from_user keyword db
               = (Raise out_of_range, db)))
  /\ (forall page size status roomid db,
        let p := default 1 page in
        let s := default 20 size in
        (1 <= p /\ 1 <= s <= 100
         /\ api_router.get_sync_tasks_request sync_service_get_tasks page
              size status roomid db
            = api_router.get_sync_tasks sync_service_get_tasks p s status
                roomid db)
        \/ ((p < 1 \/ s < 1 \/ 100 < s)
            /\ api_router.get_sync_tasks_request sync_service_get_tasks page
                 size status roomid db
               = (Raise out_of_range, db)))
  /\ (forall roomid days db,
        let d := default 7 days in
        (1 <= d <= 365
         /\ api_router.get_message_stats_request
              message_service_get_message_stats roomid days db
            = api_router.get_message_stats message_service_get_message_stats
                roomid d db)
        \/ ((d < 1 \/ 365 < d)
            /\ api_router.get_message_stats_request
                 message_service_get_message_stats roomid days db
               = (Raise out_of_range, db)))
  /\ (forall q page size roomid msgtype start_time end_time db,
        let p := default 1 page in
        let s := default 20 size in
        (1 <= p /\ 1 <= s <= 100
         /\ api_router.search_messages_request
              message_service_search_messages (Some q) page size roomid
              msgtype start_time end_time db
            = api_router.search_messages message_service_search_messages q p
                s roomid msgtype start_time end_time db)
        \/ ((p < 1 \/ s < 1 \/ 100 < s)
            /\ api_router.search_messages_request
                 message_service_search_messages (Some q) page size roomid
                 msgtype start_time end_time db
               = (Raise out_of_range, db))).
Proof.
  repeat split; intros;
    unfold api_router.get_groups_request,
      api_router.get_group_messages_request,
      api_router.get_sync_tasks_request,
      api_router.get_message_stats_request,
      api_router.search_messages_request;
    try (destruct (Query_answers 1 1 None page) as [(Hp & _ & ->)|([Hp|[]] & ->)];
         [lia | exact I | |]);
    try (destruct (Query_answers 20 1 (Some 100) size)
           as [(Hs1 & Hs2 & ->)|([Hs|Hs] & ->)]; [lia | lia | | |]);
    try (destruct (Query_answers 50 1 (Some 200) size)
           as [(Hs1 & Hs2 & ->)|([Hs|Hs] & ->)]; [lia | lia | | |]);
    try (destruct (Query_answers 7 1 (Some 365) days)
           as [(Hs1 & Hs2 & ->)|([Hs|Hs] & ->)]; [lia | lia | | |]);
    subst; first [ left; repeat split; solve [lia | reflexivity]
                 | right; split; [lia | reflexivity] ].
Qed.

End RouteFacts.

(** ** The Prometheus middleware *)

Lemma count_inc (k k' : string * string * Z) (m : app.Metrics) :
  app.count (app.inc k m) k'
  = if decide (k = k') then app.count m k' + 1 else app.count m k'.
Proof.
  unfold app.count at 1, app.inc. cbn.
  destruct (decide (k = k')) as [->|Hk].
  - now rewrite lookup_insert_eq.
  - now rewrite lookup_insert_ne.
Qed.

Lemma durations_observe (k k' : string * string) (x : float)
    (m : app.Metrics) :
  app.durations (app.observe k x m) k'
  = if decide (k = k') then (app.durations m k' ++ [x])%list
    else app.durations m k'.
Proof.
  unfold app.durations at 1, app.observe. cbn.
  destruct (decide (k = k')) as [->|Hk].
  - now rewrite lookup_insert_eq.
  - now rewrite lookup_insert_ne.
Qed.

Lemma dispatch_metrics (r : app.Served) (m : app.Metrics) :
  snd (app.dispatch (app.served_start r) (app.served_end r)
         (app.served_request r) (app.served_call_next r) m)
  = match app.answered_as r with
    | Some k => app.observe (fst k) (elapsed r) (app.inc k m)
    | None => m
    end.
Proof.
  unfold app.dispatch, app.answered_as.
  now destruct (app.served_call_next r (app.served_request r)).
Qed.

(** Over any run of requests, the counter under a method, endpoint and
    status has grown by exactly the number of requests answered under
    them: every answered request is counted once, under its own labels
    only, and a request whose handling raises is not counted at all. *)
Theorem dispatch_all_counts (l : list app.Served) (m : app.Metrics)
    (k : string * string * Z) :
  app.count (app.dispatch_all l m) k
  = app.count m k + Z.of_nat (length (counted_under k l)).
Proof.
  unfold app.dispatch_all. revert m.
  induction l as [|r l IH]; intros m; cbn [fold_left].
  - cbn. lia.
  - rewrite IH, dispatch_metrics. unfold counted_under. cbn [List.filter].
    destruct (app.answered_as r) as [k'|] eqn:E.
    + unfold app.count at 1, app.observe. cbn [app.REQUEST_COUNT].
      fold (app.count (app.inc k' m) k). rewrite count_inc.
      destruct (decide (k' = k)) as [->|Hk].
      * rewrite bool_decide_eq_true_2 by reflexivity.
        cbn [length]. lia.
      * rewrite bool_decide_eq_false_2 by congruence. lia.
    + rewrite bool_decide_eq_false_2 by discriminate. lia.
Qed.

(** Over any run of requests, the durations observed under a method and
    endpoint are those recorded before, followed by the elapsed time of
    each request answered under them, in the order served: nothing is
    dropped, and a request whose handling raises leaves no
    observation. *)
Theorem dispatch_all_observations (l : list app.Served) (m : app.Metrics)
    (k : string * string) :
  app.durations (app.dispatch_all l m) k
  = (app.durations m k ++ map elapsed (observed_under k l))%list.
Proof.
  unfold app.dispatch_all. revert m.
  induction l as [|r l IH]; intros m; cbn [fold_left].
  - cbn. now rewrite app_nil_r.
  - rewrite IH, dispatch_metrics. unfold observed_under. cbn [List.filter].
    destruct (app.answered_as r) as [k'|] eqn:E; cbn [fmap option_fmap option_map].
    + rewrite durations_observe.
      assert (Hd : app.durations (app.inc k' m) k = app.durations m k)
        by reflexivity.
      destruct (decide (fst k' = k)) as [Hk|Hk].
      * rewrite bool_decide_eq_true_2 by congruence.
        cbn [map]. rewrite Hd, <- app_assoc. reflexivity.
      * rewrite bool_decide_eq_false_2 by congruence. now rewrite Hd.
    + rewrite bool_decide_eq_false_2 by discriminate. reflexivity.
Qed.

(** ** The validators of [Settings] *)

Section ValidatorFacts.
Import Stdlib.Strings.Ascii.

Lemma split_nonempty (sep : Ascii.ascii) (s : string) :
  config.split sep s <> [].
Proof.
  destruct s as [|c s]; cbn; [discriminate|].
  destruct (Ascii.eqb c sep); [discriminate|].
  now destruct (config.split sep s).
Qed.

Lemma split_length (sep : Ascii.ascii) (s : string) :
  length (config.split sep s) = S (config.count sep s).
Proof.
  induction s as [|c s IH]; cbn; [reflexivity|].
  destruct (Ascii.eqb c sep); cbn.
  - now rewrite IH.
  - pose proof (split_nonempty sep s) as Hn.
    destruct (config.split sep s); [contradiction | exact IH].
Qed.

Lemma split_join (sep : Ascii.ascii) (s : string) :
  config.join sep (config.split sep s) = s.
Proof.
  induction s as [|c s IH]; [reflexivity|]. cbn [config.split].
  pose proof (split_nonempty sep s) as Hn.
  destruct (Ascii.eqb_spec c sep) as [->|Hc].
  - destruct (config.split sep s) as [|h t]; [contradiction|].
    change (config.join sep (EmptyString :: h :: t))
      with (String sep (config.join sep (h :: t))).
    now rewrite IH.
  - destruct (config.split sep s) as [|h t]; [contradiction|].
    destruct t as [|h' t].
    + cbn in IH |- *. now rewrite IH.
    + change (config.join sep (String c h :: h' :: t))
        with (String c (h +:+ String sep (config.join sep (h' :: t)))).
      change (config.join sep (h :: h' :: t))
        with (h +:+ String sep (config.join sep (h' :: t))) in IH.
      now rewrite IH.
Qed.

Lemma split_no_sep (sep : Ascii.ascii) (s : string) :
  List.Forall (fun piece => config.count sep piece = 0%nat)
    (config.split sep s).
Proof.
  induction s as [|c s IH]; cbn.
  - now repeat constructor.
  - destruct (Ascii.eqb c sep) eqn:Ec.
    + now constructor.
    + destruct (config.split sep s) as [|h t].
      * repeat constructor. cbn. now rewrite Ec.
      * inversion IH as [|? ? Hh Ht]; subst. constructor; [|exact Ht].
        cbn. now rewrite Ec.
Qed.

(** A list setting given as text is cut at its commas and at nothing
    else: the pieces joined by commas give the text back, none of them
    holds a comma, and there is one piece more than there are commas, so
    that even an empty text gives one entry. Each validator returns the
    pieces in their order, stripped (and lowered for file types); a
    setting that is already a list is returned as it is. *)
Theorem parse_lists_split (strip lower : string -> string) (s : string) :
  exists pieces,
    config.join ","%char pieces = s
    /\ List.Forall (fun piece => config.count ","%char piece = 0%nat) pieces
    /\ length pieces = S (config.count ","%char s)
    /\ config.parse_allowed_origins strip (config.RawStr s)
       = map strip pieces
    /\ config.parse_allowed_file_types strip lower (config.RawStr s)
       = map (fun piece => lower (strip piece)) pieces
    /\ config.parse_celery_accept_content strip (config.RawStr s)
       = map strip pieces
    /\ forall l,
         config.parse_allowed_origins strip (config.RawList l) = l
         /\ config.parse_allowed_file_types strip lower (config.RawList l)
            = l
         /\ config.parse_celery_accept_content strip (config.RawList l) = l.
Proof.
  exists (config.split ","%char s).
  split; [apply split_join|]. split; [apply split_no_sep|].
  split; [apply split_length|]. now repeat split.
Qed.

(** A log level is accepted exactly when its upper-case form is one of
    the five levels, and what is stored is that upper-case form: a level
    of the list, which the validator accepts again unchanged. Any other
    text is refused with [ValueError]. *)
Theorem validate_log_level_canonical (upper : string -> string)
    (Hlevels : forall l, l ∈ config.valid_levels -> upper l = l)
    (v : string) :
  match config.validate_log_level upper v with
  | Return l =>
      l = upper v /\ (l ∈ config.valid_levels)
      /\ config.validate_log_level upper l = Return l
  | Raise e => (upper v ∉ config.valid_levels) /\ exn_class e = ValueError
  end.
Proof.
  unfold config.validate_log_level.
  destruct (decide (upper v ∈ config.valid_levels)) as [Hin|Hn].
  - rewrite (bool_decide_eq_true_2 _ Hin). cbn.
    split; [reflexivity|]. split; [exact Hin|].
    rewrite (Hlevels _ Hin), (bool_decide_eq_true_2 _ Hin). reflexivity.
  - rewrite (bool_decide_eq_false_2 _ Hn). cbn. now split.
Qed.

Lemma validate_log_level_canonical_witness :
  "INFO" = config.str_upper "info" /\ ("INFO" ∈ config.valid_levels)
  /\ config.validate_log_level config.str_upper "INFO" = Return "INFO".
Proof.
  refine (validate_log_level_canonical config.str_upper _ "info").
  intros l Hl.
  repeat (apply elem_of_cons in Hl as [->|Hl]; [reflexivity|]).
  now apply elem_of_nil in Hl.
Defined.

End ValidatorFacts.

(** ** The enumerations of the schemas and of the models *)

(** Each enumeration of [schemas.py] mirrors the one of [models.py]: the
    value of every member of the model is accepted by the schema as the
    member of the same value, and the schema has no value the model
    lacks. *)
Theorem schema_enums_mirror_models :
  (forall m, exists e,
      MessageTypeEnum.validate (MessageType.value m) = Return e
      /\ MessageTypeEnum.value e = MessageType.value m)
  /\ (forall e, exists m, MessageType.value m = MessageTypeEnum.value e)
  /\ (forall m, exists e,
        MemberTypeEnum.validate (MemberType.value m) = Return e
        /\ MemberTypeEnum.value e = MemberType.value m)
  /\ (forall e, exists m, MemberType.value m = MemberTypeEnum.value e)
  /\ (forall s, exists e,
        TaskStatusEnum.validate (TaskStatus.value s) = Return e
        /\ TaskStatusEnum.value e = TaskStatus.value s)
  /\ (forall e, exists s, TaskStatus.value s = TaskStatusEnum.value e)
  /\ (forall s, exists e,
        DownloadStatusEnum.validate (DownloadStatus.value s) = Return e
        /\ DownloadStatusEnum.value e = DownloadStatus.value s)
  /\ (forall e, exists s,
        DownloadStatus.value s = DownloadStatusEnum.value e).
Proof.
  repeat split; intros x; destruct x;
    solve [ eexists; split; vm_compute; reflexivity
          | eexists; vm_compute; reflexivity
          | unshelve eexists; [constructor; fail| ..]; reflexivity ].
Qed.

(** ** Keys, foreign keys and the cascade of [ChatGroup] *)

Lemma execute_raises (s : statement) (db : Database) :
  ~ Constraints (effect s db) ->
  execute s db = Raise (mk_exn IntegrityError "constraint violated").
Proof.
  intros H. unfold execute.
  destruct (constraints_ok (effect s db)) eqn:E; [|reflexivity].
  exfalso. now apply H, consistent_Constraints.
Qed.

Lemma In_omap {A B} (f : A -> option B) (l : list A) (y : B) :
  In y (omap f l) <-> exists x, In x l /\ f x = Some y.
Proof.
  rewrite <- list_elem_of_In, list_elem_of_omap.
  split; intros (x & Hx & Hf); exists x; split; auto;
    now apply list_elem_of_In.
Qed.

(** The rows a DELETE leaves. *)
Lemma delete_rows_In {A} (w : A -> bool) (rows : list A) (x : A) :
  In x (delete_rows w rows) <-> In x rows /\ w x = false.
Proof.
  unfold delete_rows. rewrite filter_In, negb_true_iff. reflexivity.
Qed.

(** A row cannot name a group that is not stored: the insertion of a
    message or of a member whose [roomid] is no stored group, of a sync
    task whose [roomid] is set to one, and of a message that replies to a
    [msgid] neither stored nor its own, is refused with
    [IntegrityError]. *)
Theorem foreign_keys_enforced (db : Database) :
  (forall m, ~ In (ChatMessage.roomid m) (group_keys db) ->
     raises (execute (INSERT_chat_messages m) db) IntegrityError)
  /\ (forall m k, ChatMessage.reply_to_msgid m = Some k ->
        k <> ChatMessage.msgid m -> ~ In k (message_keys db) ->
        raises (execute (INSERT_chat_messages m) db) IntegrityError)
  /\ (forall m, ~ In (ChatMember.roomid m) (group_keys db) ->
        raises (execute (INSERT_chat_members m) db) IntegrityError)
  /\ (forall k r, SyncTask.roomid k = Some r -> ~ In r (group_keys db) ->
        raises (execute (INSERT_sync_tasks k) db) IntegrityError).
Proof.
  split; [|split; [|split]].
  - intros m Hm. rewrite execute_raises; [apply raises_Raise|].
    intros C. apply Hm. apply (messages_roomid _ C). cbn.
    rewrite map_app. apply in_or_app. right. now left.
  - intros m k Hk Hself Hn. rewrite execute_raises; [apply raises_Raise|].
    intros C.
    assert (Hin : In k (message_keys (effect (INSERT_chat_messages m) db))).
    { apply (messages_reply_to _ C). apply In_omap.
      exists (ChatMessage.set_id (chat_messages_id_seq db) m). split.
      - cbn. apply in_or_app. right. now left.
      - exact Hk. }
    unfold message_keys in Hin. cbn in Hin. rewrite map_app in Hin.
    apply in_app_or in Hin as [Hin|[Hin|[]]].
    + now apply Hn.
    + now apply Hself.
  - intros m Hm. rewrite execute_raises; [apply raises_Raise|].
    intros C. apply Hm. apply (members_roomid _ C). cbn.
    rewrite map_app. apply in_or_app. right. now left.
  - intros k r Hk Hn. rewrite execute_raises; [apply raises_Raise|].
    intros C. apply Hn. apply (tasks_roomid _ C). apply In_omap.
    exists (SyncTask.set_id (sync_tasks_id_seq db) k). split.
    + cbn. apply in_or_app. right. now left.
    + destruct k. exact Hk.
Qed.

Lemma insert_group_taken (db : Database) (g : ChatGroup.t) :
  In (ChatGroup.roomid g) (group_keys db) ->
  execute (INSERT_chat_groups g) db
  = Raise (mk_exn IntegrityError "constraint violated").
Proof.
  intros Hg. apply execute_raises.
  intros C. apply (unique_key_taken ChatGroup.roomid _ g Hg).
  exact (groups_pk _ C).
Qed.

(** A key cannot be stored twice: the insertion of a group whose
    [roomid], of a message whose [msgid], or of a sync task whose
    [task_id] is already stored is refused with [IntegrityError]. *)
Theorem unique_keys_enforced (db : Database) :
  (forall g, In (ChatGroup.roomid g) (group_keys db) ->
     raises (execute (INSERT_chat_groups g) db) IntegrityError)
  /\ (forall m, In (ChatMessage.msgid m) (message_keys db) ->
        raises (execute (INSERT_chat_messages m) db) IntegrityError)
  /\ (forall k, In (SyncTask.task_id k)
                  (map SyncTask.task_id (sync_tasks db)) ->
        raises (execute (INSERT_sync_tasks k) db) IntegrityError).
Proof.
  split; [|split].
  - intros g Hg. rewrite insert_group_taken; [apply raises_Raise | exact Hg].
  - intros m Hm. rewrite execute_raises; [apply raises_Raise|].
    intros C.
    apply (unique_key_taken ChatMessage.msgid (chat_messages db)
             (ChatMessage.set_id (chat_messages_id_seq db) m) Hm).
    exact (messages_msgid _ C).
  - intros k Hk. rewrite execute_raises; [apply raises_Raise|].
    intros C.
    apply (unique_key_taken SyncTask.task_id (sync_tasks db)
             (SyncTask.set_id (sync_tasks_id_seq db) k)).
    + destruct k. exact Hk.
    + exact (tasks_task_id _ C).
Qed.

(** In a state that satisfies the constraints, a group is accepted
    exactly when its [roomid] is not stored yet; the tables then hold it
    as their last group and are otherwise unchanged. *)
Theorem group_insert_accepted_iff (db : Database) (g : ChatGroup.t) :
  consistent db ->
  (~ In (ChatGroup.roomid g) (group_keys db) <->
   execute (INSERT_chat_groups g) db
   = Return (mk_db (chat_groups db ++ [g]) (chat_messages db)
               (chat_members db) (sync_tasks db) (chat_messages_id_seq db)
               (chat_members_id_seq db) (sync_tasks_id_seq db))).
Proof.
  intros Hc. apply consistent_Constraints in Hc as C. split.
  - intros Hfresh. apply execute_Return. split; [|reflexivity].
    apply consistent_Constraints.
    assert (Hk : forall r, In r (group_keys db) ->
                   In r (group_keys (effect (INSERT_chat_groups g) db))).
    { intros r Hr. unfold group_keys. cbn. rewrite map_app.
      apply in_or_app. now left. }
    constructor; cbn.
    + now apply unique_key_fresh; [exact (groups_pk _ C)|].
    + exact (messages_pk _ C).
    + exact (messages_seq _ C).
    + exact (messages_msgid _ C).
    + intros r Hr. apply Hk. exact (messages_roomid _ C r Hr).
    + exact (messages_reply_to _ C).
    + exact (members_pk _ C).
    + exact (members_idx _ C).
    + intros r Hr. apply Hk. exact (members_roomid _ C r Hr).
    + exact (tasks_pk _ C).
    + exact (tasks_task_id _ C).
    + intros r Hr. apply Hk. exact (tasks_roomid _ C r Hr).
  - intros H Hin. rewrite (insert_group_taken db g Hin) in H. discriminate.
Qed.

Lemma group_insert_accepted_iff_witness :
  ~ In (ChatGroup.roomid room_a) (group_keys empty_db) <->
  execute (INSERT_chat_groups room_a) empty_db
  = Return (mk_db [room_a] [] [] [] 1 1 1).
Proof.
  apply (group_insert_accepted_iff empty_db room_a). reflexivity.
Defined.

Lemma deleted_group_key (r : string) (groups : list ChatGroup.t) :
  ~ In r (map ChatGroup.roomid
            (delete_rows (fun g => String.eqb (ChatGroup.roomid g) r)
               groups)).
Proof.
  intros (g & <- & Hg)%in_map_iff. apply delete_rows_In in Hg as [_ Hg].
  now rewrite String.eqb_refl in Hg.
Qed.

(** A group that still has a message, a member or a sync task cannot be
    deleted by a DELETE of its own row: the statement is refused with
    [IntegrityError]. *)
Theorem group_delete_needs_cascade (db : Database) (r : string) :
  (exists m, In m (chat_messages db) /\ ChatMessage.roomid m = r)
  \/ (exists m, In m (chat_members db) /\ ChatMember.roomid m = r)
  \/ (exists k, In k (sync_tasks db) /\ SyncTask.roomid k = Some r) ->
  raises
    (execute (DELETE_chat_groups (fun g => String.eqb (ChatGroup.roomid g) r))
       db) IntegrityError.
Proof.
  intros H. rewrite execute_raises; [apply raises_Raise|].
  intros C. apply (deleted_group_key r (chat_groups db)).
  destruct H as [(m & Hm & <-)|[(m & Hm & <-)|(k & Hk & Hr)]].
  - apply (messages_roomid _ C). cbn. now apply in_map.
  - apply (members_roomid _ C). cbn. now apply in_map.
  - apply (tasks_roomid _ C). cbn. apply In_omap. now exists k.
Qed.

Lemma group_delete_needs_cascade_witness :
  raises
    (execute
       (DELETE_chat_groups (fun g => String.eqb (ChatGroup.roomid g) "room-a"))
       archive_1) IntegrityError.
Proof.
  apply (group_delete_needs_cascade archive_1 "room-a").
  left. exists (ChatMessage.set_id 1 message_1).
  split; [now left | reflexivity].
Defined.




(** The cascade stops at a reply from outside: if a message of another
    group replies to a message of the group, the deletion of the group
    through the session is refused with [IntegrityError], since the
    relationships reach the group's own messages only and the reply would
    be left naming a message that is gone. *)
Theorem cascade_refused_by_foreign_reply (r : string) (db : Database)
    (m0 m : ChatMessage.t) :
  consistent db ->
  In m0 (chat_messages db) -> In m (chat_messages db) ->
  ChatMessage.roomid m0 = r -> ChatMessage.roomid m <> r ->
  ChatMessage.reply_to_msgid m = Some (ChatMessage.msgid m0) ->
  raises (session_delete_group r db) IntegrityError.
Proof.
  intros Hc Hm0 Hm Hr0 Hr Hreply. apply consistent_Constraints in Hc.
  unfold session_delete_group. cbn [execute_all].
  rewrite execute_raises; [apply raises_Raise|].
  intros C.
  assert (Hin : In (ChatMessage.msgid m0)
                  (message_keys
                     (effect
                        (DELETE_chat_messages
                           (fun m => String.eqb (ChatMessage.roomid m) r))
                        db))).
  { apply (messages_reply_to _ C). apply In_omap. exists m. split.
    - cbn. apply delete_rows_In. split; [exact Hm|].
      now apply String.eqb_neq.
    - exact Hreply. }
  unfold message_keys in Hin. cbn in Hin.
  apply in_map_iff in Hin as (m1 & Hid & Hm1).
  apply delete_rows_In in Hm1 as [Hm1 Hr1].
  apply String.eqb_neq in Hr1. apply Hr1.
  rewrite (unique_key_row ChatMessage.msgid (chat_messages db) m1 m0);
    [exact Hr0 | exact (messages_msgid _ Hc) | exact Hm1 | exact Hm0
    | exact Hid].
Qed.

Lemma cascade_refused_by_foreign_reply_witness :
  raises (session_delete_group "room-a" archive_5) IntegrityError.
Proof.
  apply (cascade_refused_by_foreign_reply "room-a" archive_5
           (ChatMessage.set_id 1 message_1) (ChatMessage.set_id 2 message_3)).
  - reflexivity.
  - now left.
  - right. now left.
  - reflexivity.
  - discriminate.
  - reflexivity.
Defined.

(** ** [SystemConfig.get_typed_value] *)

(** [get_typed_value] raises only what a parser raised on a stored,
    non-empty value of the type that parser reads: an unset or empty
    value is answered without a parser, with the neutral value of an
    integer, float, boolean or JSON setting; a boolean setting never
    raises and is true only for a text whose lower-case form is [true],
    [1] or [yes]; and a setting of any other type, or of none, is
    answered with the stored value as it is. *)
Theorem get_typed_value_errors {J : Type} (int : string -> result Z)
    (float_ : string -> result float) (json_loads : string -> result J)
    (empty_dict : J) (lower : string -> string) (c : SystemConfig.t) :
  let typed_value :=
    SystemConfig.get_typed_value int float_ json_loads empty_dict lower c in
  (forall x, typed_value = Raise x ->
     exists v, SystemConfig.value c = Some v /\ v <> ""
       /\ ((SystemConfig.config_type c = Some "integer" /\ int v = Raise x)
           \/ (SystemConfig.config_type c = Some "float"
               /\ float_ v = Raise x)
           \/ (SystemConfig.config_type c = Some "json"
               /\ json_loads v = Raise x)))
  /\ (SystemConfig.truthy (SystemConfig.value c) = false ->
      typed_value
      = Return
          (if bool_decide (SystemConfig.config_type c = Some "integer")
           then SystemConfig.TInt 0
           else if bool_decide (SystemConfig.config_type c = Some "float")
           then SystemConfig.TFloat (float_of_Z 0)
           else if bool_decide (SystemConfig.config_type c = Some "boolean")
           then SystemConfig.TBool false
           else if bool_decide (SystemConfig.config_type c = Some "json")
           then SystemConfig.TJson empty_dict
           else SystemConfig.TValue (SystemConfig.value c)))
  /\ (SystemConfig.config_type c = Some "boolean" ->
      exists b, typed_value = Return (SystemConfig.TBool b)
        /\ (b = true ->
            exists v, SystemConfig.value c = Some v
              /\ lower v ∈ ["true"; "1"; "yes"]))
  /\ (SystemConfig.config_type c ∉
        [Some "integer"; Some "float"; Some "boolean"; Some "json"] ->
      typed_value = Return (SystemConfig.TValue (SystemConfig.value c))).
Proof.
  unfold SystemConfig.get_typed_value. cbv zeta.
  split; [|split; [|split]].
  - intros x.
    repeat case_bool_decide; destruct (SystemConfig.value c) as [[|a v]|];
      try discriminate.
    + destruct (int (String a v)) eqn:E; [discriminate|]. cbn.
      intros [= <-]. exists (String a v). repeat split; [discriminate|].
      now left.
    + destruct (float_ (String a v)) eqn:E; [discriminate|]. cbn.
      intros [= <-]. exists (String a v). repeat split; [discriminate|].
      right. now left.
    + destruct (json_loads (String a v)) eqn:E; [discriminate|]. cbn.
      intros [= <-]. exists (String a v). repeat split; [discriminate|].
      right. now right.
  - destruct (SystemConfig.value c) as [[|a v]|]; cbn; try discriminate;
      intros _; now repeat case_bool_decide.
  - intros Hb. rewrite Hb.
    rewrite (bool_decide_eq_false_2 (Some "boolean" = Some "integer"))
      by discriminate.
    rewrite (bool_decide_eq_false_2 (Some "boolean" = Some "float"))
      by discriminate.
    rewrite (bool_decide_eq_true_2 (Some "boolean" = Some "boolean"))
      by reflexivity.
    destruct (SystemConfig.value c) as [[|a v]|].
    + exists false. now split.
    + eexists. split; [reflexivity|]. intros Hv.
      exists (String a v). split; [reflexivity|].
      now apply bool_decide_eq_true_1 in Hv.
    + exists false. now split.
  - intros Hn.
    repeat case_bool_decide; try reflexivity; exfalso; apply Hn;
      match goal with H : SystemConfig.config_type c = _ |- _ =>
        rewrite H end;
      repeat first [apply list_elem_of_here | apply list_elem_of_further].
Qed.
